(** * esp32_bridge: device registry, event bus, power controller, battery monitor

    A shallow embedding of the coordination core of the firmware
    (namespace [esp_framework]) and the properties its specification
    states about it.

    - [device_manager]  (device/device_manager.cpp)
    - [event_bus]       (common/event_system.cpp)
    - [pmu]             (pmu/src/pmu.cpp)
    - [battery_manager] (battery/src/battery_manager.cpp)

    Member functions become functions on a record of the member
    variables.  Calls into collaborators (the device manager, the
    battery device, the event bus) are recorded, in program order, in
    the list of calls each function returns next to the new state. *)

From Stdlib Require Import ZArith QArith Qminmax Bool List Lia Lqa.
From Stdlib Require Import SpecFloat.
From stdpp Require Import base decidable countable list gmap strings.

Local Open Scope Z_scope.

(* ===================================================================== *)
(** * Events (common/include/event_system.h) *)
(* ===================================================================== *)

(** [enum class event_type], in declaration order. *)
Inductive event_type : Type :=
  | network_connected
  | network_disconnected
  | data_received
  | battery_low
  | battery_critical
  | battery_normal
  | charging_started
  | charging_complete
  | battery_temp_high
  | battery_temp_normal
  | device_error
  | enter_deep_sleep.

#[global] Instance event_type_eq_dec : EqDecision event_type.
Proof. solve_decision. Defined.

(** The enumerator values, as [static_cast<int>] gives them. *)
Definition event_type_code (e : event_type) : nat :=
  match e with
  | network_connected => 0
  | network_disconnected => 1
  | data_received => 2
  | battery_low => 3
  | battery_critical => 4
  | battery_normal => 5
  | charging_started => 6
  | charging_complete => 7
  | battery_temp_high => 8
  | battery_temp_normal => 9
  | device_error => 10
  | enter_deep_sleep => 11
  end%nat.

Definition event_type_of_code (n : nat) : option event_type :=
  match n with
  | 0 => Some network_connected
  | 1 => Some network_disconnected
  | 2 => Some data_received
  | 3 => Some battery_low
  | 4 => Some battery_critical
  | 5 => Some battery_normal
  | 6 => Some charging_started
  | 7 => Some charging_complete
  | 8 => Some battery_temp_high
  | 9 => Some battery_temp_normal
  | 10 => Some device_error
  | 11 => Some enter_deep_sleep
  | _ => None
  end%nat.

#[global] Instance event_type_countable : Countable event_type.
Proof.
  apply (inj_countable event_type_code event_type_of_code).
  intros []; reflexivity.
Defined.

(* ===================================================================== *)
(** * The power controller (pmu/src/pmu.cpp) *)
(* ===================================================================== *)

Module Pmu.

(** The two broadcasts the controller asks of its [device_manager&]. *)
Inductive dev_mgr_call : Type :=
  | suspend_all
  | resume_all.

(** [std::chrono::steady_clock::time_point] is a count of clock ticks
    since the clock's epoch; libstdc++ counts nanoseconds.
    [std::chrono::seconds] is a count of seconds. *)
Definition time_point := Z.
Definition seconds := Z.

Definition ticks_per_second : Z := 1000000000.

(** [duration_cast<seconds>] of a tick count: integer division that
    truncates toward zero. *)
Definition duration_cast_seconds (d : Z) : seconds :=
  Z.quot d ticks_per_second.

(** The member variables of [class pmu] ([dev_mgr_] is the reference the
    calls of type [dev_mgr_call] go to). *)
Record pmu : Type := mk_pmu {
  is_locked_ : bool;
  last_unlock_time_ : time_point;
  idle_timeout_ : seconds;
  is_suspended_ : bool
}.

Section WithConfig.

(** [#define PMU_DEFAULT_IDLE_TIMEOUT CONFIG_POWER_SAVE_TIMEOUT], a value
    of the build configuration (sdkconfig.h). *)
Variable PMU_DEFAULT_IDLE_TIMEOUT : Z.

(** [pmu::pmu(dev_mgr, idle_timeout_seconds)], run when the steady clock
    reads [now]. *)
Definition new (now : time_point) (idle_timeout_seconds : Z) : pmu :=
  {| is_locked_ := false;
     last_unlock_time_ := now;
     idle_timeout_ := if idle_timeout_seconds =? 0
                      then PMU_DEFAULT_IDLE_TIMEOUT
                      else idle_timeout_seconds;
     is_suspended_ := false |}.

(** [pmu::set_idle_timeout(seconds)] *)
Definition set_idle_timeout (s : Z) (p : pmu) : pmu :=
  if s <=? 0
  then {| is_locked_ := is_locked_ p;
          last_unlock_time_ := last_unlock_time_ p;
          idle_timeout_ := PMU_DEFAULT_IDLE_TIMEOUT;
          is_suspended_ := is_suspended_ p |}
  else {| is_locked_ := is_locked_ p;
          last_unlock_time_ := last_unlock_time_ p;
          idle_timeout_ := s;
          is_suspended_ := is_suspended_ p |}.

End WithConfig.

(** [pmu::get_idle_timeout()] *)
Definition get_idle_timeout (p : pmu) : Z := idle_timeout_ p.

(** [pmu::is_locked()] *)
Definition is_locked (p : pmu) : bool := is_locked_ p.

(** [pmu::lock()] *)
Definition lock (p : pmu) : pmu * list dev_mgr_call :=
  if negb (is_locked_ p) then
    if is_suspended_ p then
      ({| is_locked_ := true;
          last_unlock_time_ := last_unlock_time_ p;
          idle_timeout_ := idle_timeout_ p;
          is_suspended_ := false |}, [resume_all])
    else
      ({| is_locked_ := true;
          last_unlock_time_ := last_unlock_time_ p;
          idle_timeout_ := idle_timeout_ p;
          is_suspended_ := is_suspended_ p |}, [])
  else (p, []).

(** [pmu::unlock()], run when the steady clock reads [now]. *)
Definition unlock (now : time_point) (p : pmu) : pmu :=
  if is_locked_ p then
    {| is_locked_ := false;
       last_unlock_time_ := now;
       idle_timeout_ := idle_timeout_ p;
       is_suspended_ := is_suspended_ p |}
  else p.

(** [pmu::loop()], run when the steady clock reads [now]. *)
Definition loop (now : time_point) (p : pmu) : pmu * list dev_mgr_call :=
  if is_locked_ p || is_suspended_ p then (p, [])
  else
    let elapsed := duration_cast_seconds (now - last_unlock_time_ p) in
    if idle_timeout_ p <=? elapsed then
      if negb (is_suspended_ p) then
        ({| is_locked_ := is_locked_ p;
            last_unlock_time_ := last_unlock_time_ p;
            idle_timeout_ := idle_timeout_ p;
            is_suspended_ := true |}, [suspend_all])
      else (p, [])
    else (p, []).

(** What a client does with a controller between a given [unlock()] and
    the next [lock()]: it polls [loop()] and may call [unlock()] again.
    Each call carries the reading of the steady clock it runs at. *)
Inductive idle_call : Type :=
  | call_unlock (now : time_point)
  | call_loop (now : time_point).

Definition run_call (c : idle_call) (p : pmu) : pmu * list dev_mgr_call :=
  match c with
  | call_unlock now => (unlock now p, [])
  | call_loop now => loop now p
  end.

Fixpoint run_calls (cs : list idle_call) (p : pmu) : pmu * list dev_mgr_call :=
  match cs with
  | [] => (p, [])
  | c :: cs' =>
      let '(p1, out1) := run_call c p in
      let '(p2, out2) := run_calls cs' p1 in
      (p2, out1 ++ out2)
  end.

(** A [loop()] at [now] is the one that suspends: the flag goes from
    false to true and [suspend_all()] is called. *)
Definition suspends_at (now : time_point) (p : pmu) : Prop :=
  is_suspended_ p = false /\
  is_suspended_ (fst (loop now p)) = true /\
  snd (loop now p) = [suspend_all].

(** [pmu::~pmu()]: the call the destructor makes on the device manager. *)
Definition destroy (p : pmu) : list dev_mgr_call :=
  if is_suspended_ p then [resume_all] else [].

(** Every call a client can make on a live controller. *)
Inductive client_call : Type :=
  | client_lock
  | client_unlock (now : time_point)
  | client_loop (now : time_point)
  | client_set_idle_timeout (s : Z).

Section Client.

Variable PMU_DEFAULT_IDLE_TIMEOUT : Z.

Definition run_client_call (c : client_call) (p : pmu)
  : pmu * list dev_mgr_call :=
  match c with
  | client_lock => lock p
  | client_unlock now => (unlock now p, [])
  | client_loop now => loop now p
  | client_set_idle_timeout s =>
      (set_idle_timeout PMU_DEFAULT_IDLE_TIMEOUT s p, [])
  end.

Fixpoint run_client_calls (cs : list client_call) (p : pmu)
  : pmu * list dev_mgr_call :=
  match cs with
  | [] => (p, [])
  | c :: cs' =>
      let '(p1, out1) := run_client_call c p in
      let '(p2, out2) := run_client_calls cs' p1 in
      (p2, out1 ++ out2)
  end.

(** The life of a controller: built at [now] with the given timeout,
    used through [cs], destroyed.  The result is every call it made on
    the device manager, in order. *)
Definition lifetime (now : time_point) (idle_timeout_seconds : Z)
    (cs : list client_call) : list dev_mgr_call :=
  let '(p, out) :=
    run_client_calls cs (new PMU_DEFAULT_IDLE_TIMEOUT now idle_timeout_seconds) in
  out ++ destroy p.

End Client.

(** Reading a sequence of broadcasts: [alternates s cs] holds when, from
    devices that are suspended ([s = true]) or running ([s = false]),
    every [suspend_all] finds them running and every [resume_all] finds
    them suspended. *)
Fixpoint alternates (suspended : bool) (cs : list dev_mgr_call) : bool :=
  match cs with
  | [] => true
  | suspend_all :: cs' => negb suspended && alternates true cs'
  | resume_all :: cs' => suspended && alternates false cs'
  end.

(** Whether the devices are suspended after the broadcasts [cs]. *)
Definition suspended_after (suspended : bool) (cs : list dev_mgr_call) : bool :=
  fold_left (fun _ c => match c with
                        | suspend_all => true
                        | resume_all => false
                        end) cs suspended.

(** What every call on a controller keeps: while locked it is not
    suspended. *)
Definition awake_when_locked (p : pmu) : Prop :=
  is_locked_ p = true -> is_suspended_ p = false.

(** The number of [suspend_all] and of [resume_all] broadcasts. *)
Definition count_suspend (cs : list dev_mgr_call) : nat :=
  length (List.filter (fun c => match c with suspend_all => true | _ => false end) cs).

Definition count_resume (cs : list dev_mgr_call) : nat :=
  length (List.filter (fun c => match c with resume_all => true | _ => false end) cs).

(** The calls [enter_deep_sleep] makes on the event bus, the scheduler
    and the sleep driver; [vTaskDelay_ms ms] is
    [vTaskDelay(pdMS_TO_TICKS(ms))]. *)
Inductive sleep_call : Type :=
  | event_bus_publish (t : event_type)
  | vTaskDelay_ms (ms : Z)
  | esp_sleep_enable_timer_wakeup (time_in_us : Z)
  | esp_deep_sleep_start.

(** The product of two [uint32_t] values: it wraps modulo [2 ^ 32]. *)
Definition uint32_mul (a b : Z) : Z := (a * b) mod 2 ^ 32.

(** [pmu::enter_deep_sleep(sleep_time_ms)].  The argument is a
    [uint32_t]; [sleep_time_ms * 1000] is computed in that type and then
    widened to the [uint64_t] parameter of the driver. *)
Definition enter_deep_sleep (sleep_time_ms : Z) : list sleep_call :=
  [event_bus_publish enter_deep_sleep; vTaskDelay_ms 100]
  ++ (if sleep_time_ms >? 0
      then [esp_sleep_enable_timer_wakeup (uint32_mul sleep_time_ms 1000)]
      else [])
  ++ [esp_deep_sleep_start].

End Pmu.

(* ===================================================================== *)
(** * The device registry (device/device_manager.cpp) *)
(* ===================================================================== *)

Module DeviceManager.

(** A [device] object as the registry sees it: the object's identity
    (its address) and the C string its virtual [name()] returns (the
    characters before the terminating NUL). *)
Record device : Type := mk_device {
  address : nat;
  name : string
}.

(** [strcmp]: negative, zero or positive as the first string is
    lexicographically smaller than, equal to or greater than the second. *)
Definition strcmp (a b : string) : Z :=
  match String.compare a b with
  | Eq => 0
  | Lt => -1
  | Gt => 1
  end.

(** [std::find_if(first, last, pred) != last] *)
Definition find_if_found {A} (pred : A -> bool) (l : list A) : bool :=
  existsb pred l.

(** [device_manager::register_device(dev)]; the registry is the member
    [std::vector<std::shared_ptr<device>> devices_], a null [dev] is
    [None]. *)
Definition register_device (dev : option device) (devices_ : list device)
  : list device :=
  match dev with
  | None => devices_
  | Some d =>
      if find_if_found (fun existing => strcmp (name existing) (name d) =? 0)
                       devices_
      then devices_
      else devices_ ++ [d]
  end.

(** A sequence of [register_device] calls on a registry. *)
Definition register_all (devs : list (option device)) (devices_ : list device)
  : list device :=
  fold_left (fun reg dev => register_device dev reg) devs devices_.

(** [device_manager::get_device_by_name(name)]: the first registered
    device whose [name()] equals the argument ([std::find_if] with
    [name == dev->name()]), or null. *)
Definition get_device_by_name (n : string) (devices_ : list device)
  : option device :=
  List.find (fun dev => String.eqb n (name dev)) devices_.

Section Broadcasts.

(** Everything the virtual methods of the devices can read and change:
    the device objects, the drivers and the hardware behind them. *)
Variable world : Type.

(** A virtual method of [class device], one of [init()], [deinit()],
    [suspend()] and [resume()]: what a call on a device returns and what
    it leaves of the world. *)
Variable method : device -> world -> Z * world.

(** The loop of the four broadcasts:
    [for (auto& dev : devices_) { int ret = dev->method(); ... }], where
    the body logs an error when [ret != 0] and a note otherwise.  The
    result is the world afterwards and, for each call in order, the
    device and what the call returned. *)
Fixpoint for_each_device (devices_ : list device) (w : world)
  : world * list (device * Z) :=
  match devices_ with
  | [] => (w, [])
  | dev :: rest =>
      let '(ret, w1) := method dev w in
      let '(w2, log) := for_each_device rest w1 in
      (w2, (dev, ret) :: log)
  end.

End Broadcasts.

(** [device_manager::init_all()], [deinit_all()], [suspend_all()] and
    [resume_all()], each over the method of its name. *)
Definition init_all {world} (init : device -> world -> Z * world) :=
  for_each_device world init.
Definition deinit_all {world} (deinit : device -> world -> Z * world) :=
  for_each_device world deinit.
Definition suspend_all {world} (suspend : device -> world -> Z * world) :=
  for_each_device world suspend.
Definition resume_all {world} (resume : device -> world -> Z * world) :=
  for_each_device world resume.

End DeviceManager.

(* ===================================================================== *)
(** * The event bus (common/event_system.cpp) *)
(* ===================================================================== *)

Module EventBus.

(** [enum class event_data_type] *)
Inductive event_data_type : Type :=
  | none | integer | floating | boolean | string_data | binary.

(** [struct event_data] *)
Record event_data : Type := mk_event_data {
  type : event_type;
  data_type : event_data_type;
  data : option (list Z);
  data_size : Z
}.

(** The constructor with its default arguments: [event_data event(t)]. *)
Definition event (t : event_type) : event_data :=
  {| type := t; data_type := none; data := None; data_size := 0 |}.

(** A listener object is named by its address.  The owners that share
    the ownership of an object share one control block; every
    [std::shared_ptr] made from a raw pointer gets a control block of
    its own, so that one object can have several, as the object behind
    [std::shared_ptr<event_listener>(this, no-op deleter)] has one for
    every time that expression runs. *)
Definition listener := nat.
Definition control_block := nat.

(** A non-null [std::shared_ptr<event_listener>]: the control block it
    refers to and the pointer it stores ([get()]).  The null pointer is
    [None]. *)
Record shared_ptr : Type := mk_shared_ptr {
  control : control_block;
  get : listener
}.

#[global] Instance shared_ptr_eq_dec : EqDecision shared_ptr.
Proof. solve_decision. Defined.

(** A [std::weak_ptr<event_listener>] made from a [shared_ptr] refers to
    the same control block and stores the same pointer. *)
Abbreviation weak_ptr := shared_ptr.

(** The state of ownership is [released], the set of the control blocks
    that have no owner ([use_count() == 0]).  A control block that lost
    its last owner never gets one again: every function below only adds
    to the set.  A pointer whose control block is in the set owns
    nothing, and a [weak_ptr] made from it is expired from the start. *)

(** [wp.expired()] *)
Definition expired (released : gset control_block) (wp : weak_ptr) : bool :=
  bool_decide (control wp ∈ released).

(** [wp.lock()]: an owner of the same control block, or null. *)
Definition weak_lock (released : gset control_block) (wp : weak_ptr)
  : option shared_ptr :=
  if expired released wp then None else Some wp.

(** [a == b] on two [shared_ptr]: the stored pointers are compared,
    whatever the control blocks. *)
Definition shared_ptr_eq (a b : shared_ptr) : bool :=
  bool_decide (get a = get b).

(** [v.erase(std::remove_if(v.begin(), v.end(), pred), v.end())] *)
Definition erase_remove_if {A} (pred : A -> bool) (v : list A) : list A :=
  List.filter (fun x => negb (pred x)) v.

(** The member [std::map<event_type, std::vector<std::weak_ptr<...>>>]. *)
Abbreviation listeners_map := (gmap event_type (list weak_ptr)).

(** [event_bus::subscribe(type, listener)] *)
Definition subscribe (released : gset control_block) (t : event_type)
    (l : option shared_ptr) (listeners_ : listeners_map) : listeners_map :=
  match l with
  | None => listeners_
  | Some l =>
      let listeners := default [] (listeners_ !! t) in
      let listeners := erase_remove_if (expired released) listeners in
      if existsb (fun wp => match weak_lock released wp with
                            | Some sp => shared_ptr_eq sp l
                            | None => false
                            end) listeners
      then <[t := listeners]> listeners_
      else <[t := listeners ++ [l]]> listeners_
  end.

(** [event_bus::unsubscribe(type, listener)] *)
Definition unsubscribe (released : gset control_block) (t : event_type)
    (l : option shared_ptr) (listeners_ : listeners_map) : listeners_map :=
  match l with
  | None => listeners_
  | Some l =>
      match listeners_ !! t with
      | None => listeners_
      | Some listeners =>
          <[t := erase_remove_if
                   (fun wp => match weak_lock released wp with
                              | Some sp => shared_ptr_eq sp l
                              | None => true
                              end) listeners]> listeners_
      end
  end.

Section WithListeners.

(** The control blocks that lose their last owner while the [on_event]
    of the listener at an address runs, given those released before.
    The callbacks act on the owners of listeners; they do not call the
    bus themselves. *)
Variable on_event :
  listener -> event_data -> gset control_block -> gset control_block.

(** [sp->on_event(event)]: the call through the pointer [sp].  Through a
    null pointer it is an error, [None]; otherwise the callback runs and
    the result is the set of released control blocks after it. *)
Definition call_on_event (sp : option shared_ptr) (ev : event_data)
    (released : gset control_block) : option (gset control_block) :=
  match sp with
  | Some p => Some (released ∪ on_event (get p) ev released)
  | None => None
  end.

(** The delivery loop of [publish]:
    [for (auto& wp : listeners) { auto sp = wp.lock(); if (sp) sp->on_event(event); }].
    Returns the released set afterwards and the pointers the calls were
    made through, in order; [None] when a call fails. *)
Fixpoint notify (ev : event_data) (listeners : list weak_ptr)
    (released : gset control_block)
  : option (gset control_block * list shared_ptr) :=
  match listeners with
  | [] => Some (released, [])
  | wp :: rest =>
      let sp := weak_lock released wp in
      match sp with
      | Some p =>
          match call_on_event sp ev released with
          | Some released1 =>
              match notify ev rest released1 with
              | Some (released2, invoked) => Some (released2, p :: invoked)
              | None => None
              end
          | None => None
          end
      | None => notify ev rest released
      end
  end.

(** [event_bus::publish(event)]: the table and the released set
    afterwards and the pointers [on_event] was called through. *)
Definition publish (ev : event_data) (listeners_ : listeners_map)
    (released : gset control_block)
  : option (listeners_map * gset control_block * list shared_ptr) :=
  match listeners_ !! type ev with
  | None => Some (listeners_, released, [])
  | Some listeners =>
      let listeners := erase_remove_if (expired released) listeners in
      match notify ev listeners released with
      | Some (released', invoked) =>
          Some (<[type ev := listeners]> listeners_, released', invoked)
      | None => None
      end
  end.

End WithListeners.

(** What happens to a bus and to the owners around it: the three member
    functions, and the release of the last owner of a control block
    between two calls.  (A new owner needs no step: a control block
    counts as owned until it is released.) *)
Inductive bus_call : Type :=
  | call_subscribe (t : event_type) (l : option shared_ptr)
  | call_unsubscribe (t : event_type) (l : option shared_ptr)
  | call_publish (ev : event_data)
  | owner_released (b : control_block).

Section Client.

Variable on_event :
  listener -> event_data -> gset control_block -> gset control_block.

(** One step: the table and the released set afterwards, and the
    pointers the step called [on_event] through, in order ([None] for a
    step that is not a [publish]). *)
Definition run_bus_call (c : bus_call) (listeners_ : listeners_map)
    (released : gset control_block)
  : option (listeners_map * gset control_block * option (list shared_ptr)) :=
  match c with
  | call_subscribe t l => Some (subscribe released t l listeners_, released, None)
  | call_unsubscribe t l => Some (unsubscribe released t l listeners_, released, None)
  | call_publish ev =>
      match publish on_event ev listeners_ released with
      | Some (listeners_', released', invoked) =>
          Some (listeners_', released', Some invoked)
      | None => None
      end
  | owner_released b => Some (listeners_, {[b]} ∪ released, None)
  end.

(** A run of steps: the final table and released set, and the
    deliveries of the [publish] calls of the run, in order. *)
Fixpoint run_bus_calls (cs : list bus_call) (listeners_ : listeners_map)
    (released : gset control_block)
  : option (listeners_map * gset control_block * list (list shared_ptr)) :=
  match cs with
  | [] => Some (listeners_, released, [])
  | c :: cs' =>
      match run_bus_call c listeners_ released with
      | Some (listeners_1, released1, out1) =>
          match run_bus_calls cs' listeners_1 released1 with
          | Some (listeners_2, released2, out2) =>
              Some (listeners_2, released2,
                    match out1 with Some invoked => invoked :: out2 | None => out2 end)
          | None => None
          end
      | None => None
      end
  end.

End Client.

End EventBus.

(* ===================================================================== *)
(** * IEEE 754 binary32, the C++ type [float] *)
(* ===================================================================== *)

Module F32.

(** [float] values are the binary32 numbers: 24 bits of precision,
    exponents up to 128. *)
Definition prec : Z := 24.
Definition emax : Z := 128.

Definition float := spec_float.

(** Conversion of an integer constant, and a decimal literal [n/d]
    rounded to the nearest [float]. *)
Definition of_int (z : Z) : float := binary_normalize prec emax z 0 false.
Definition of_decimal (n d : Z) : float :=
  SFdiv prec emax (of_int n) (of_int d).

Definition sub (x y : float) : float := SFsub prec emax x y.
Definition mul (x y : float) : float := SFmul prec emax x y.
Definition div (x y : float) : float := SFdiv prec emax x y.
Definition add (x y : float) : float := SFadd prec emax x y.

(** [fabs] *)
Definition abs (x : float) : float := SFabs x.

(** The comparisons; each is false when an operand is a NaN. *)
Definition lt (x y : float) : bool := SFltb x y.
Definition le (x y : float) : bool := SFleb x y.
Definition gt (x y : float) : bool := SFltb y x.
Definition ge (x y : float) : bool := SFleb y x.

(** The integer part of a finite [float], rounding toward zero. *)
Definition truncate (x : float) : option Z :=
  match x with
  | S754_zero _ => Some 0
  | S754_finite s m e => Some (cond_Zopp s (Z.shiftl (Z.pos m) e))
  | S754_infinity _ => None
  | S754_nan => None
  end.

Definition INT_MIN : Z := - 2 ^ 31.
Definition INT_MAX : Z := 2 ^ 31 - 1.

(** [static_cast<int>(x)].  The language leaves the conversion of a NaN,
    of an infinity and of a value whose integer part does not fit [int]
    undefined; [invalid] is what the target yields there. *)
Definition to_int (invalid : float -> Z) (x : float) : Z :=
  match truncate x with
  | Some z => if (INT_MIN <=? z) && (z <=? INT_MAX) then z else invalid x
  | None => invalid x
  end.

(** Zeros and finite numbers, as opposed to infinities and NaN. *)
Definition is_finite (x : float) : bool :=
  match x with
  | S754_zero _ => true
  | S754_finite _ _ _ => true
  | _ => false
  end.

(** The exact value [m * 2 ^ e] of a finite [float] as a fraction (and
    zero for the others). *)
Definition to_Q (x : float) : Q :=
  match x with
  | S754_finite s m e =>
      Qmake (cond_Zopp s (Z.pos m * 2 ^ Z.max e 0))
            (Z.to_pos (2 ^ Z.max (- e) 0))
  | _ => 0%Q
  end.

(** The number [m * 2 ^ e] counted in units of [2 ^ -64]; an integer
    when [-64 <= e]. *)
Definition units (m e : Z) : Z := m * 2 ^ (e + 64).

End F32.

(* ===================================================================== *)
(** * The battery monitor (battery/src/battery_manager.cpp) *)
(* ===================================================================== *)

Module Battery.

Import EventBus.

(** [enum class battery_state] *)
Module battery_state.
Inductive t : Type :=
  | critical | low | normal | high | full | charging | error.

#[global] Instance eq_dec : EqDecision t.
Proof. solve_decision. Defined.
End battery_state.

(** [enum class charging_state] *)
Module charging_state.
Inductive t : Type :=
  | not_charging | fast_charging | slow_charging | trickle_charging
  | complete | error.
End charging_state.

Definition BATTERY_MIN_VOLTAGE : F32.float := F32.of_int 3.
Definition BATTERY_MAX_VOLTAGE : F32.float := F32.of_decimal 42 10.
Definition BATTERY_TEMP_WARNING : F32.float := F32.of_int 45.
Definition BATTERY_TEMP_CRITICAL : F32.float := F32.of_int 55.

(** What one sampling of the [battery_device] returns: [get_voltage()],
    [get_current()], [get_temperature()] and [is_charging()]. *)
Record reading : Type := mk_reading {
  voltage : F32.float;
  current : F32.float;
  temperature : F32.float;
  is_charging : bool
}.

(** The calls the manager makes on its collaborators. *)
Inductive call : Type :=
  | device_disable_charging
  | device_enable_charging
  | bus_publish (ev : event_data).

#[global] Instance event_data_type_eq_dec : EqDecision event_data_type.
Proof. solve_decision. Defined.

#[global] Instance event_data_eq_dec : EqDecision event_data.
Proof. solve_decision. Defined.

#[global] Instance call_eq_dec : EqDecision call.
Proof. solve_decision. Defined.

(** The member variables of [class battery_manager] ([battery_device_],
    the weak reference to the device, is an argument of the functions
    that lock it). *)
Record battery_manager : Type := mk_battery_manager {
  current_state_ : battery_state.t;
  charging_state_ : charging_state.t;
  charge_percentage_ : Z;
  low_battery_threshold_ : Z;
  critical_battery_threshold_ : Z;
  last_voltage_ : F32.float;
  last_current_ : F32.float;
  last_temperature_ : F32.float;
  temp_warning_active_ : bool
}.

(** [battery_manager::battery_manager()]; the two thresholds come from
    the build configuration ([CONFIG_BATTERY_LOW_THRESHOLD],
    [CONFIG_BATTERY_CRITICAL_THRESHOLD]). *)
Definition new (BATTERY_DEFAULT_LOW_THRESHOLD
                BATTERY_DEFAULT_CRITICAL_THRESHOLD : Z) : battery_manager :=
  {| current_state_ := battery_state.normal;
     charging_state_ := charging_state.not_charging;
     charge_percentage_ := 50;
     low_battery_threshold_ := BATTERY_DEFAULT_LOW_THRESHOLD;
     critical_battery_threshold_ := BATTERY_DEFAULT_CRITICAL_THRESHOLD;
     last_voltage_ := F32.of_int 0;
     last_current_ := F32.of_int 0;
     last_temperature_ := F32.of_int 25;
     temp_warning_active_ := false |}.

(** [battery_manager::get_battery_state()] *)
Definition get_battery_state (m : battery_manager) : battery_state.t :=
  current_state_ m.

(** [battery_manager::get_charge_percentage()] *)
Definition get_charge_percentage (m : battery_manager) : Z :=
  charge_percentage_ m.

(** [battery_manager::set_low_battery_threshold(percentage)] *)
Definition set_low_battery_threshold (percentage : Z) (m : battery_manager)
  : battery_manager :=
  if (percentage <? 5) || (percentage >? 50) then m
  else {| current_state_ := current_state_ m;
          charging_state_ := charging_state_ m;
          charge_percentage_ := charge_percentage_ m;
          low_battery_threshold_ := percentage;
          critical_battery_threshold_ := critical_battery_threshold_ m;
          last_voltage_ := last_voltage_ m;
          last_current_ := last_current_ m;
          last_temperature_ := last_temperature_ m;
          temp_warning_active_ := temp_warning_active_ m |}.

(** [battery_manager::set_critical_battery_threshold(percentage)] *)
Definition set_critical_battery_threshold (percentage : Z) (m : battery_manager)
  : battery_manager :=
  if (percentage <? 1) || (percentage >? 20) then m
  else {| current_state_ := current_state_ m;
          charging_state_ := charging_state_ m;
          charge_percentage_ := charge_percentage_ m;
          low_battery_threshold_ := low_battery_threshold_ m;
          critical_battery_threshold_ := percentage;
          last_voltage_ := last_voltage_ m;
          last_current_ := last_current_ m;
          last_temperature_ := last_temperature_ m;
          temp_warning_active_ := temp_warning_active_ m |}.

(** [battery_manager::disable_charging()]: locks the weak reference and
    forwards to the device when it is still there. *)
Definition disable_charging (device_present : bool) : list call :=
  if device_present then [device_disable_charging] else [].

(** [battery_manager::on_event(event)] *)
Definition on_event (device_present : bool) (ev : event_data)
    (m : battery_manager) : battery_manager * list call :=
  match type ev with
  | network_connected => (m, [])
  | network_disconnected => (m, [])
  | enter_deep_sleep => (m, disable_charging device_present)
  | _ => (m, [])
  end.

(** The linear map of the specification, in exact arithmetic: the empty
    bound goes to 0 and the full bound to 100. *)
Definition linear_map (v : Q) : Q :=
  ((v - F32.to_Q BATTERY_MIN_VOLTAGE) * 100
   / (F32.to_Q BATTERY_MAX_VOLTAGE - F32.to_Q BATTERY_MIN_VOLTAGE))%Q.

(** The same, clamped to the range from 0 to 100. *)
Definition clamped_linear_map (v : Q) : Q :=
  Qmax 0%Q (Qmin 100%Q (linear_map v)).

(** A bound on how far the roundings of single-precision arithmetic move
    the computed value from the exact linear map: [2 ^ -14]. *)
Definition rounding_tolerance : Q := (1 # 16384)%Q.

Section WithTarget.

(** What the target's float-to-int conversion yields where the language
    leaves [static_cast<int>] undefined. *)
Variable invalid_cast : F32.float -> Z.

(** [battery_manager::calculate_percentage(voltage)] *)
Definition calculate_percentage (voltage : F32.float) : Z :=
  if F32.le voltage BATTERY_MIN_VOLTAGE then 0
  else if F32.ge voltage BATTERY_MAX_VOLTAGE then 100
  else F32.to_int invalid_cast
         (F32.div (F32.mul (F32.sub voltage BATTERY_MIN_VOLTAGE) (F32.of_int 100))
                  (F32.sub BATTERY_MAX_VOLTAGE BATTERY_MIN_VOLTAGE)).

(** The charging-state update of [update_battery_state]. *)
Definition next_charging_state (r : reading) (percentage : Z)
  : charging_state.t :=
  if is_charging r then
    if F32.lt (current r) (F32.of_int (-500)) then charging_state.fast_charging
    else if F32.lt (current r) (F32.of_int (-100)) then charging_state.slow_charging
    else if F32.lt (current r) (F32.of_int (-10)) then charging_state.trickle_charging
    else if percentage >=? 100 then charging_state.complete
    else charging_state.error
  else charging_state.not_charging.

(** The temperature check of [update_battery_state]: the calls it makes
    and the new value of [temp_warning_active_]. *)
Definition check_temperature (temperature : F32.float)
    (temp_warning_active : bool) : list call * bool :=
  if F32.gt temperature BATTERY_TEMP_CRITICAL then
    if negb temp_warning_active
    then ([device_disable_charging; bus_publish (event battery_temp_high)], true)
    else ([device_disable_charging], temp_warning_active)
  else if F32.lt temperature BATTERY_TEMP_WARNING && temp_warning_active then
    ([device_enable_charging; bus_publish (event battery_temp_normal)], false)
  else ([], temp_warning_active).

(** The battery-state update of [update_battery_state]. *)
Definition next_battery_state (is_charging : bool) (percentage : Z)
    (critical_battery_threshold low_battery_threshold : Z) : battery_state.t :=
  if is_charging then battery_state.charging
  else if percentage <=? critical_battery_threshold then battery_state.critical
  else if percentage <=? low_battery_threshold then battery_state.low
  else if percentage >? 80 then battery_state.high
  else if percentage >=? 100 then battery_state.full
  else battery_state.normal.

(** The event published for a change of battery state. *)
Definition state_change_calls (prev_state current_state : battery_state.t)
  : list call :=
  if bool_decide (prev_state <> current_state) then
    match current_state with
    | battery_state.low => [bus_publish (event battery_low)]
    | battery_state.critical => [bus_publish (event battery_critical)]
    | battery_state.normal
    | battery_state.high
    | battery_state.full => [bus_publish (event battery_normal)]
    | battery_state.charging => [bus_publish (event charging_started)]
    | _ => []
    end
  else [].

(** [battery_manager::update_battery_state()].  [device] is the result of
    locking [battery_device_] and sampling the device: [None] when the
    device is gone. *)
Definition update_battery_state (device : option reading)
    (m : battery_manager) : battery_manager * list call :=
  match device with
  | None => (m, [])
  | Some r =>
      let percentage := calculate_percentage (voltage r) in
      let charging := next_charging_state r percentage in
      let '(temp_calls, temp_warning_active) :=
        check_temperature (temperature r) (temp_warning_active_ m) in
      let prev_state := current_state_ m in
      let current_state :=
        next_battery_state (is_charging r) percentage
          (critical_battery_threshold_ m) (low_battery_threshold_ m) in
      ({| current_state_ := current_state;
          charging_state_ := charging;
          charge_percentage_ := percentage;
          low_battery_threshold_ := low_battery_threshold_ m;
          critical_battery_threshold_ := critical_battery_threshold_ m;
          last_voltage_ := voltage r;
          last_current_ := current r;
          last_temperature_ := temperature r;
          temp_warning_active_ := temp_warning_active |},
       temp_calls ++ state_change_calls prev_state current_state)
  end.

(** A run of sampling ticks: after each tick, the manager and the calls
    that tick made. *)
Fixpoint ticks (rs : list (option reading)) (m : battery_manager)
  : list (battery_manager * list call) :=
  match rs with
  | [] => []
  | r :: rs' =>
      let step := update_battery_state r m in
      step :: ticks rs' (fst step)
  end.

(** The manager after a run of sampling ticks. *)
Fixpoint after_ticks (rs : list (option reading)) (m : battery_manager)
  : battery_manager :=
  match rs with
  | [] => m
  | r :: rs' => after_ticks rs' (fst (update_battery_state r m))
  end.

(** Everything that can happen to a manager after construction. *)
Inductive input : Type :=
  | in_tick (device : option reading)
  | in_event (device_present : bool) (ev : event_data)
  | in_set_low_battery_threshold (percentage : Z)
  | in_set_critical_battery_threshold (percentage : Z).

Definition step (i : input) (m : battery_manager) : battery_manager :=
  match i with
  | in_tick device => fst (update_battery_state device m)
  | in_event device_present ev => fst (on_event device_present ev m)
  | in_set_low_battery_threshold p => set_low_battery_threshold p m
  | in_set_critical_battery_threshold p => set_critical_battery_threshold p m
  end.

Definition run (inputs : list input) (m : battery_manager) : battery_manager :=
  fold_left (fun m i => step i m) inputs m.

End WithTarget.

(** ** Reading the calls of a tick *)

Definition count_call (c : call) (cs : list call) : nat :=
  length (List.filter (fun x => bool_decide (x = c)) cs).

(** The events a list of calls publishes, in order. *)
Definition published (cs : list call) : list event_type :=
  omap (fun c => match c with
                 | bus_publish ev => Some (type ev)
                 | _ => None
                 end) cs.

(** The events that report a change of battery state. *)
Definition is_state_event (e : event_type) : bool :=
  match e with
  | battery_low | battery_critical | battery_normal | charging_started => true
  | _ => false
  end.

Definition state_events (cs : list call) : list event_type :=
  List.filter is_state_event (published cs).

(** The calls of the thermal guard: the two device calls and the two
    temperature events. *)
Definition is_thermal_call (c : call) : bool :=
  match c with
  | device_disable_charging => true
  | device_enable_charging => true
  | bus_publish ev =>
      match type ev with
      | battery_temp_high | battery_temp_normal => true
      | _ => false
      end
  end.

Definition thermal_calls (cs : list call) : list call :=
  List.filter is_thermal_call cs.

(** All the calls of a run of ticks, in order. *)
Definition all_calls (out : list (battery_manager * list call)) : list call :=
  concat (map snd out).

(** [a] occurs in [cs] strictly before some occurrence of [b]. *)
Definition occurs_before (a b : call) (cs : list call) : Prop :=
  exists l1 l2 l3, cs = l1 ++ a :: l2 ++ b :: l3.

(** What the thermal guard does in a tick of an excursion after the
    first one: it disables charging again while the temperature is above
    critical. *)
Definition hold_calls (r : reading) : list call :=
  if F32.gt (temperature r) BATTERY_TEMP_CRITICAL
  then [device_disable_charging] else [].

(** ** Sample readings *)

(** A sample at the given voltage (in hundredths of a volt), discharging
    at 100 mA, at 25 C. *)
Definition walk_sample (centivolts : Z) : reading :=
  {| voltage := F32.of_decimal centivolts 100;
     current := F32.of_int 100;
     temperature := F32.of_int 25;
     is_charging := false |}.

(** A sample at 3.7 V, discharging at 100 mA, at the given temperature. *)
Definition sample_at (celsius : Z) : reading :=
  {| voltage := F32.of_decimal 37 10;
     current := F32.of_int 100;
     temperature := F32.of_int celsius;
     is_charging := false |}.

(** ** Initialisation and polling *)

Section WithBus.

Variable invalid_cast : F32.float -> Z.

(** The control blocks that lose their last owner while the [on_event]
    of a listener on the bus runs. *)
Variable listener_on_event :
  listener -> event_data -> gset control_block -> gset control_block.

(** The events among the calls of a tick, published on the bus in
    order: the table and the released set afterwards. *)
Fixpoint publish_calls (calls : list call) (listeners_ : listeners_map)
    (released : gset control_block)
  : option (listeners_map * gset control_block) :=
  match calls with
  | [] => Some (listeners_, released)
  | bus_publish ev :: calls' =>
      match publish listener_on_event ev listeners_ released with
      | Some (listeners_1, released1, _) =>
          publish_calls calls' listeners_1 released1
      | None => None
      end
  | _ :: calls' => publish_calls calls' listeners_ released
  end.

(** [battery_manager::init(device)] on the bus [(listeners_, released)].
    [device] is what the device reads at the first sampling, [None] for
    a null pointer.  [listener_ptr] is the pointer the function makes
    for the manager, [std::shared_ptr<event_listener>(this, no-op
    deleter)]: it stores the address of the manager and has a control
    block of its own.  It is a local variable, so the control block has
    its owner from the three [subscribe] calls to the return and none
    afterwards.  The result is the return value, the manager, the calls
    of the first tick, and the bus after the return. *)
Definition init (device : option reading) (listener_ptr : shared_ptr)
    (listeners_ : listeners_map) (released : gset control_block)
    (m : battery_manager)
  : option (bool * battery_manager * list call * listeners_map
            * gset control_block) :=
  match device with
  | None => Some (false, m, [], listeners_, released)
  | Some r =>
      let listeners_ :=
        subscribe released network_connected (Some listener_ptr) listeners_ in
      let listeners_ :=
        subscribe released network_disconnected (Some listener_ptr) listeners_ in
      let listeners_ :=
        subscribe released enter_deep_sleep (Some listener_ptr) listeners_ in
      let '(m, calls) := update_battery_state invalid_cast (Some r) m in
      match publish_calls calls listeners_ released with
      | Some (listeners_, released) =>
          Some (true, m, calls, listeners_, {[control listener_ptr]} ∪ released)
      | None => None
      end
  end.

End WithBus.

Definition BATTERY_CHECK_INTERVAL_MS : Z := 10000.

(** The value of an integer expression in the type [uint32_t]. *)
Definition uint32 (z : Z) : Z := z mod 2 ^ 32.

Section WithClock.

Variable invalid_cast : F32.float -> Z.

(** [portTICK_PERIOD_MS], the milliseconds per scheduler tick of the
    build configuration. *)
Variable portTICK_PERIOD_MS : Z.

(** [battery_manager::loop()].  [xTaskGetTickCount] is the tick count
    the scheduler returns, a [uint32_t]; [last_check_time] is the static
    local of the function, returned first with its new value. *)
Definition loop (xTaskGetTickCount : Z) (device : option reading)
    (last_check_time : Z) (m : battery_manager)
  : Z * battery_manager * list call :=
  let current_time := uint32 (xTaskGetTickCount * portTICK_PERIOD_MS) in
  if uint32 (current_time - last_check_time) >=? BATTERY_CHECK_INTERVAL_MS
  then
    let '(m', calls) := update_battery_state invalid_cast device m in
    (current_time, m', calls)
  else (last_check_time, m, []).

End WithClock.

End Battery.

(* ===================================================================== *)
(** * The battery sensor (battery/src/battery_manager.cpp) *)
(* ===================================================================== *)

Module BatteryDevice.

(** The channels and the pin of the board, with the values the SDK
    gives the enumerators. *)
Definition BATTERY_VOLTAGE_CHANNEL : Z := 0.
Definition BATTERY_CURRENT_CHANNEL : Z := 3.
Definition BATTERY_TEMP_CHANNEL : Z := 6.
Definition BATTERY_CHARGE_ENABLE_PIN : Z := 10.

Definition BATTERY_DEFAULT_VOLTAGE : F32.float := F32.of_decimal 38 10.
Definition BATTERY_DEFAULT_CURRENT : F32.float := F32.of_int 100.
Definition BATTERY_DEFAULT_TEMP : F32.float := F32.of_int 25.

Definition ESP_OK : Z := 0.

(** The member variables of [class battery_device]. *)
Record battery_device : Type := mk_battery_device {
  voltage_channel_ : Z;
  current_channel_ : Z;
  temp_channel_ : Z;
  charge_enable_pin_ : Z;
  initialized_ : bool
}.

(** The default member initialisers. *)
Definition new : battery_device :=
  {| voltage_channel_ := -1;
     current_channel_ := -1;
     temp_channel_ := -1;
     charge_enable_pin_ := -1;
     initialized_ := false |}.

(** The calls the device makes on the ADC and GPIO drivers. *)
Inductive driver_call : Type :=
  | adc1_config_width
  | adc1_config_channel_atten (channel : Z)
  | gpio_config (pin_bit_mask : Z)
  | gpio_set_level (gpio_num : Z) (level : Z).

(** [battery_device::enable_charging()]; [ret] is what [gpio_set_level]
    returns if it is called. *)
Definition enable_charging (ret : Z) (d : battery_device)
  : bool * list driver_call :=
  if negb (initialized_ d) then (false, [])
  else if negb (ret =? ESP_OK)
       then (false, [gpio_set_level (charge_enable_pin_ d) 1])
       else (true, [gpio_set_level (charge_enable_pin_ d) 1]).

(** [battery_device::disable_charging()] *)
Definition disable_charging (ret : Z) (d : battery_device)
  : bool * list driver_call :=
  if negb (initialized_ d) then (false, [])
  else if negb (ret =? ESP_OK)
       then (false, [gpio_set_level (charge_enable_pin_ d) 0])
       else (true, [gpio_set_level (charge_enable_pin_ d) 0]).

(** [battery_device::init()]; the driver functions are C functions and
    throw nothing, so the handlers are never entered. *)
Definition init (ret : Z) (d : battery_device)
  : Z * battery_device * list driver_call :=
  let configured :=
    {| voltage_channel_ := BATTERY_VOLTAGE_CHANNEL;
       current_channel_ := BATTERY_CURRENT_CHANNEL;
       temp_channel_ := BATTERY_TEMP_CHANNEL;
       charge_enable_pin_ := BATTERY_CHARGE_ENABLE_PIN;
       initialized_ := initialized_ d |} in
  let '(_, charging_calls) := enable_charging ret configured in
  (0,
   {| voltage_channel_ := BATTERY_VOLTAGE_CHANNEL;
      current_channel_ := BATTERY_CURRENT_CHANNEL;
      temp_channel_ := BATTERY_TEMP_CHANNEL;
      charge_enable_pin_ := BATTERY_CHARGE_ENABLE_PIN;
      initialized_ := true |},
   [adc1_config_width;
    adc1_config_channel_atten BATTERY_VOLTAGE_CHANNEL;
    adc1_config_channel_atten BATTERY_CURRENT_CHANNEL;
    adc1_config_channel_atten BATTERY_TEMP_CHANNEL;
    gpio_config (Z.shiftl 1 BATTERY_CHARGE_ENABLE_PIN)]
   ++ charging_calls).

(** [battery_device::deinit()] *)
Definition deinit (ret : Z) (d : battery_device)
  : Z * battery_device * list driver_call :=
  if negb (initialized_ d) then (0, d, [])
  else
    let '(_, charging_calls) := disable_charging ret d in
    (0,
     {| voltage_channel_ := voltage_channel_ d;
        current_channel_ := current_channel_ d;
        temp_channel_ := temp_channel_ d;
        charge_enable_pin_ := charge_enable_pin_ d;
        initialized_ := false |},
     charging_calls).

(** [battery_device::suspend()] and [battery_device::resume()] *)
Definition suspend (d : battery_device) : Z := 0.
Definition resume (d : battery_device) : Z := 0.

(** [battery_device::is_charging()]; [level] is what [gpio_get_level]
    returns for the charge-enable pin. *)
Definition is_charging (level : Z) (d : battery_device) : bool :=
  if negb (initialized_ d) then false else level =? 1.

(** The value of an integer expression in the type [uint32_t], the type
    of [esp_random()]. *)
Definition uint32 (z : Z) : Z := z mod 2 ^ 32.

(** The simulated fluctuation [((esp_random() % 10) - 5) * step]: the
    difference is computed in [uint32_t], where it wraps, and converted
    to [float] for the product. *)
Definition fluctuation (random : Z) (step : F32.float) : F32.float :=
  F32.mul (F32.of_int (uint32 (uint32 random mod 10 - 5))) step.

(** [battery_device::get_voltage()]; [random1] and [random2] are the two
    values [esp_random()] returns. *)
Definition get_voltage (random1 random2 : Z) (d : battery_device) : F32.float :=
  if negb (initialized_ d) then BATTERY_DEFAULT_VOLTAGE
  else
    let adc_raw := uint32 (2047 + uint32 random1 mod 1000) in
    let voltage :=
      F32.add Battery.BATTERY_MIN_VOLTAGE
        (F32.div
           (F32.mul (F32.sub Battery.BATTERY_MAX_VOLTAGE
                             Battery.BATTERY_MIN_VOLTAGE)
                    (F32.of_int adc_raw))
           (F32.of_int 4095)) in
    F32.add voltage (fluctuation random2 (F32.of_decimal 1 100)).

(** [battery_device::get_current()]; [level] is what [gpio_get_level]
    returns inside [is_charging()]. *)
Definition get_current (random1 random2 : Z) (level : Z) (d : battery_device)
  : F32.float :=
  if negb (initialized_ d) then BATTERY_DEFAULT_CURRENT
  else
    let adc_raw := uint32 (2047 + uint32 random1 mod 1000) in
    let current :=
      F32.mul (F32.div (F32.of_int (adc_raw - 2048)) (F32.of_int 2048))
              (F32.of_int 1000) in
    let current :=
      if negb (is_charging level d) then F32.abs current else current in
    F32.add current (fluctuation random2 (F32.of_decimal 5 10)).

(** [battery_device::get_temperature()] *)
Definition get_temperature (random1 random2 : Z) (d : battery_device)
  : F32.float :=
  if negb (initialized_ d) then BATTERY_DEFAULT_TEMP
  else
    let adc_raw := uint32 (1024 + uint32 random1 mod 1000) in
    let temperature :=
      F32.mul (F32.div (F32.of_int adc_raw) (F32.of_int 4095))
              (F32.of_int 100) in
    F32.add temperature (fluctuation random2 (F32.of_decimal 1 10)).

(** The values [esp_random()] and [gpio_get_level] return during one
    sampling by [update_battery_state], in the order of the calls. *)
Record sampling : Type := mk_sampling {
  voltage_random1 : Z;
  voltage_random2 : Z;
  current_random1 : Z;
  current_level : Z;
  current_random2 : Z;
  temperature_random1 : Z;
  temperature_random2 : Z;
  charging_level : Z
}.

(** What [update_battery_state] reads from the device in one sampling. *)
Definition sample (s : sampling) (d : battery_device) : Battery.reading :=
  {| Battery.voltage := get_voltage (voltage_random1 s) (voltage_random2 s) d;
     Battery.current :=
       get_current (current_random1 s) (current_random2 s) (current_level s) d;
     Battery.temperature :=
       get_temperature (temperature_random1 s) (temperature_random2 s) d;
     Battery.is_charging := is_charging (charging_level s) d |}.

End BatteryDevice.

(* ===================================================================== *)
(** * The serial port (device/uart_device.cpp) *)
(* ===================================================================== *)

Module UartDevice.

Definition ESP_OK : Z := 0.
Definition pdPASS : Z := 1.

(** Queue and task handles: the address of the object, null is [None]. *)
Definition handle := nat.

(** The member variables of [class uart_device]. *)
Record uart_device : Type := mk_uart_device {
  uart_num_ : Z;
  baud_rate_ : Z;
  tx_pin_ : Z;
  rx_pin_ : Z;
  uart_queue_ : option handle;
  uart_task_handle_ : option handle;
  is_initialized_ : bool
}.

(** [uart_device::uart_device(uart_num, baud_rate, tx_pin, rx_pin)] *)
Definition new (uart_num baud_rate tx_pin rx_pin : Z) : uart_device :=
  {| uart_num_ := uart_num;
     baud_rate_ := baud_rate;
     tx_pin_ := tx_pin;
     rx_pin_ := rx_pin;
     uart_queue_ := None;
     uart_task_handle_ := None;
     is_initialized_ := false |}.

(** The calls the device makes on the UART driver and the scheduler. *)
Inductive driver_call : Type :=
  | uart_driver_install (uart_num : Z)
  | uart_param_config (uart_num baud_rate : Z)
  | uart_set_pin (uart_num tx_pin rx_pin : Z)
  | xTaskCreate
  | uart_driver_delete (uart_num : Z)
  | vTaskDelete (task : handle)
  | vTaskSuspend (task : handle)
  | vTaskResume (task : handle)
  | uart_write_bytes (uart_num : Z) (bytes : list Z).

(** What the driver and the scheduler answer during one [init()]: the
    return values, and what [uart_driver_install] and [xTaskCreate]
    leave in the handles they are given. *)
Record init_answers : Type := mk_init_answers {
  install_ret : Z;
  installed_queue : option handle;
  param_config_ret : Z;
  set_pin_ret : Z;
  task_create_ret : Z;
  created_task : option handle
}.

Definition with_queue (q : option handle) (d : uart_device) : uart_device :=
  {| uart_num_ := uart_num_ d;
     baud_rate_ := baud_rate_ d;
     tx_pin_ := tx_pin_ d;
     rx_pin_ := rx_pin_ d;
     uart_queue_ := q;
     uart_task_handle_ := uart_task_handle_ d;
     is_initialized_ := is_initialized_ d |}.

Definition with_task (t : option handle) (d : uart_device) : uart_device :=
  {| uart_num_ := uart_num_ d;
     baud_rate_ := baud_rate_ d;
     tx_pin_ := tx_pin_ d;
     rx_pin_ := rx_pin_ d;
     uart_queue_ := uart_queue_ d;
     uart_task_handle_ := t;
     is_initialized_ := is_initialized_ d |}.

Definition with_initialized (b : bool) (d : uart_device) : uart_device :=
  {| uart_num_ := uart_num_ d;
     baud_rate_ := baud_rate_ d;
     tx_pin_ := tx_pin_ d;
     rx_pin_ := rx_pin_ d;
     uart_queue_ := uart_queue_ d;
     uart_task_handle_ := uart_task_handle_ d;
     is_initialized_ := b |}.

(** [uart_device::init()] *)
Definition init (a : init_answers) (d : uart_device)
  : Z * uart_device * list driver_call :=
  if is_initialized_ d then (0, d, [])
  else
    let d := with_queue (installed_queue a) d in
    let install := uart_driver_install (uart_num_ d) in
    let config := uart_param_config (uart_num_ d) (baud_rate_ d) in
    let set_pin := uart_set_pin (uart_num_ d) (tx_pin_ d) (rx_pin_ d) in
    let delete := uart_driver_delete (uart_num_ d) in
    if negb (install_ret a =? ESP_OK) then (-1, d, [install])
    else if negb (param_config_ret a =? ESP_OK)
    then (-1, d, [install; config; delete])
    else if negb (set_pin_ret a =? ESP_OK)
    then (-1, d, [install; config; set_pin; delete])
    else
      let d := with_task (created_task a) d in
      if negb (task_create_ret a =? pdPASS)
      then (-1, d, [install; config; set_pin; xTaskCreate; delete])
      else (0, with_initialized true d, [install; config; set_pin; xTaskCreate]).

(** [uart_device::deinit()]; [delete_ret] is what [uart_driver_delete]
    returns if it is called. *)
Definition deinit (delete_ret : Z) (d : uart_device)
  : Z * uart_device * list driver_call :=
  if negb (is_initialized_ d) then (0, d, [])
  else
    let task_calls :=
      match uart_task_handle_ d with
      | Some task => [vTaskDelete task]
      | None => []
      end in
    let d := with_task None d in
    if negb (delete_ret =? ESP_OK)
    then (-1, d, task_calls ++ [uart_driver_delete (uart_num_ d)])
    else (0, with_initialized false (with_queue None d),
          task_calls ++ [uart_driver_delete (uart_num_ d)]).

(** [uart_device::suspend()] *)
Definition suspend (d : uart_device) : Z * list driver_call :=
  if negb (is_initialized_ d) then (0, [])
  else
    match uart_task_handle_ d with
    | Some task => (0, [vTaskSuspend task])
    | None => (0, [])
    end.

(** [uart_device::resume()] *)
Definition resume (d : uart_device) : Z * list driver_call :=
  if negb (is_initialized_ d) then (0, [])
  else
    match uart_task_handle_ d with
    | Some task => (0, [vTaskResume task])
    | None => (0, [])
    end.

(** [uart_device::send_data(const std::vector<uint8_t>&)]; [written] is
    what [uart_write_bytes] returns if it is called. *)
Definition send_data (written : Z) (data : list Z) (d : uart_device)
  : Z * list driver_call :=
  if negb (is_initialized_ d) || bool_decide (data = [])
  then (-1, [])
  else (written, [uart_write_bytes (uart_num_ d) data]).

(** [uart_device::send_data(const std::string&)]: the bytes of the
    string, through the overload above. *)
Definition send_data_string (written : Z) (data : string) (d : uart_device)
  : Z * list driver_call :=
  send_data written
    (map (fun c => Z.of_nat (Ascii.nat_of_ascii c)) (String.list_ascii_of_string data)) d.

(** The installs and the deletions of the driver among the calls. *)
Definition installs (cs : list driver_call) : nat :=
  length (List.filter (fun c => match c with
                                | uart_driver_install _ => true
                                | _ => false
                                end) cs).

Definition deletions (cs : list driver_call) : nat :=
  length (List.filter (fun c => match c with
                                | uart_driver_delete _ => true
                                | _ => false
                                end) cs).

End UartDevice.

(* ===================================================================== *)
(** * The network module (network/src/network_module.cpp) *)
(* ===================================================================== *)

Module Network.

Import EventBus.

Definition ESP_OK : Z := 0.
Definition pdPASS : Z := 1.

(** Task handles and callbacks: the address of the object, null (an
    empty [std::function]) is [None]. *)
Definition handle := nat.
Definition callback := nat.

(** The member variables of [class network_module]. *)
Record network_module : Type := mk_network_module {
  ssid_ : string;
  password_ : string;
  server_host_ : string;
  server_port_ : Z;
  sock_ : Z;
  wifi_connected_ : bool;
  tcp_connected_ : bool;
  task_handle_ : option handle;
  data_callback_ : option callback
}.

(** The member initialisers of [network_module::network_module()]. *)
Definition new : network_module :=
  {| ssid_ := EmptyString;
     password_ := EmptyString;
     server_host_ := EmptyString;
     server_port_ := 0;
     sock_ := -1;
     wifi_connected_ := false;
     tcp_connected_ := false;
     task_handle_ := None;
     data_callback_ := None |}.

(** The calls the module makes on the socket layer, the scheduler, the
    WiFi driver and the event bus. *)
Inductive sys_call : Type :=
  | sys_socket
  | sys_fcntl_getfl (fd : Z)
  | sys_fcntl_setfl (fd : Z) (nonblocking : bool)
  | sys_setsockopt_rcvtimeo (fd : Z) (seconds : Z)
  | sys_connect (fd : Z) (host : string) (port : Z)
  | sys_select (fd : Z) (timeout_seconds : Z)
  | sys_getsockopt_error (fd : Z)
  | sys_close (fd : Z)
  | sys_send (fd : Z) (bytes : list Z)
  | xTaskCreate
  | vTaskDelay_ms (ms : Z)
  | vTaskDelete_self
  | esp_wifi_connect
  | esp_wifi_disconnect
  | esp_wifi_stop
  | esp_wifi_deinit
  | esp_event_handler_unregister_ip
  | esp_event_handler_unregister_wifi
  | xEventGroupSetBits_connected
  | xEventGroupClearBits_connected
  | xEventGroupSetBits_fail
  | event_bus_publish (t : event_type).

Definition with_server (host : string) (port : Z) (n : network_module)
  : network_module :=
  {| ssid_ := ssid_ n;
     password_ := password_ n;
     server_host_ := host;
     server_port_ := port;
     sock_ := sock_ n;
     wifi_connected_ := wifi_connected_ n;
     tcp_connected_ := tcp_connected_ n;
     task_handle_ := task_handle_ n;
     data_callback_ := data_callback_ n |}.

Definition with_sock (fd : Z) (n : network_module) : network_module :=
  {| ssid_ := ssid_ n;
     password_ := password_ n;
     server_host_ := server_host_ n;
     server_port_ := server_port_ n;
     sock_ := fd;
     wifi_connected_ := wifi_connected_ n;
     tcp_connected_ := tcp_connected_ n;
     task_handle_ := task_handle_ n;
     data_callback_ := data_callback_ n |}.

Definition with_wifi_connected (b : bool) (n : network_module)
  : network_module :=
  {| ssid_ := ssid_ n;
     password_ := password_ n;
     server_host_ := server_host_ n;
     server_port_ := server_port_ n;
     sock_ := sock_ n;
     wifi_connected_ := b;
     tcp_connected_ := tcp_connected_ n;
     task_handle_ := task_handle_ n;
     data_callback_ := data_callback_ n |}.

Definition with_tcp_connected (b : bool) (n : network_module)
  : network_module :=
  {| ssid_ := ssid_ n;
     password_ := password_ n;
     server_host_ := server_host_ n;
     server_port_ := server_port_ n;
     sock_ := sock_ n;
     wifi_connected_ := wifi_connected_ n;
     tcp_connected_ := b;
     task_handle_ := task_handle_ n;
     data_callback_ := data_callback_ n |}.

Definition with_task_handle (t : option handle) (n : network_module)
  : network_module :=
  {| ssid_ := ssid_ n;
     password_ := password_ n;
     server_host_ := server_host_ n;
     server_port_ := server_port_ n;
     sock_ := sock_ n;
     wifi_connected_ := wifi_connected_ n;
     tcp_connected_ := tcp_connected_ n;
     task_handle_ := t;
     data_callback_ := data_callback_ n |}.

Definition with_data_callback (c : option callback) (n : network_module)
  : network_module :=
  {| ssid_ := ssid_ n;
     password_ := password_ n;
     server_host_ := server_host_ n;
     server_port_ := server_port_ n;
     sock_ := sock_ n;
     wifi_connected_ := wifi_connected_ n;
     tcp_connected_ := tcp_connected_ n;
     task_handle_ := task_handle_ n;
     data_callback_ := c |}.

(** [network_module::disconnect_tcp()] *)
Definition disconnect_tcp (n : network_module)
  : network_module * list sys_call :=
  if negb (tcp_connected_ n) then (n, [])
  else
    let n := with_tcp_connected false n in
    let closing := if sock_ n >=? 0 then [sys_close (sock_ n)] else [] in
    let n := if sock_ n >=? 0 then with_sock (-1) n else n in
    let waiting :=
      match task_handle_ n with
      | Some _ => [vTaskDelay_ms 100]
      | None => []
      end in
    (with_data_callback None n, closing ++ waiting).

(** What the socket layer and the scheduler answer during one
    [connect_tcp]: the return values, whether [errno] is [EINPROGRESS]
    after [connect], the error [getsockopt] stores, and what
    [xTaskCreate] leaves in the handle it is given. *)
Record connect_answers : Type := mk_connect_answers {
  socket_ret : Z;
  connect_ret : Z;
  errno_is_EINPROGRESS : bool;
  select_ret : Z;
  getsockopt_ret : Z;
  so_error : Z;
  task_create_ret : Z;
  created_task : option handle
}.

(** [network_module::connect_tcp(host, port)] *)
Definition connect_tcp (a : connect_answers) (host : string) (port : Z)
    (n : network_module) : bool * network_module * list sys_call :=
  if tcp_connected_ n then (true, n, [])
  else if negb (wifi_connected_ n) then (false, n, [])
  else
    let n := with_server host port n in
    let n := with_sock (socket_ret a) n in
    if sock_ n <? 0 then (false, n, [sys_socket])
    else
      let fd := sock_ n in
      let opening :=
        [sys_socket; sys_fcntl_getfl fd; sys_fcntl_setfl fd true;
         sys_setsockopt_rcvtimeo fd (60 * 10); sys_connect fd host port] in
      if negb (connect_ret a =? 0) && negb (errno_is_EINPROGRESS a)
      then (false, with_sock (-1) n, opening ++ [sys_close fd])
      else
        let in_progress :=
          negb (connect_ret a =? 0) && errno_is_EINPROGRESS a in
        if in_progress && (select_ret a <=? 0)
        then (false, with_sock (-1) n,
              opening ++ [sys_select fd 5; sys_close fd])
        else if in_progress
                && ((getsockopt_ret a <? 0) || negb (so_error a =? 0))
        then (false, with_sock (-1) n,
              opening ++ [sys_select fd 5; sys_getsockopt_error fd; sys_close fd])
        else
          let waiting :=
            if in_progress
            then [sys_select fd 5; sys_getsockopt_error fd]
            else [] in
          let established :=
            opening ++ waiting
            ++ [sys_fcntl_getfl fd; sys_fcntl_setfl fd false] in
          let n := with_tcp_connected true n in
          match task_handle_ n with
          | None =>
              let n := with_task_handle (created_task a) n in
              if negb (task_create_ret a =? pdPASS)
              then
                let '(n, closing) := disconnect_tcp n in
                (false, n, established ++ [xTaskCreate] ++ closing)
              else (true, n, established ++ [xTaskCreate])
          | Some _ => (true, n, established)
          end.

(** [network_module::send_data(data)]; [sent] is what [send] returns if
    it is called. *)
Definition send_data (sent : Z) (data : list Z) (n : network_module)
  : bool * list sys_call :=
  if negb (tcp_connected_ n) || (sock_ n <? 0) then (false, [])
  else if sent <? 0 then (false, [sys_send (sock_ n) data])
  else (true, [sys_send (sock_ n) data]).

(** [network_module::set_data_callback(callback)] *)
Definition set_data_callback (c : option callback) (n : network_module)
  : network_module :=
  with_data_callback c n.

(** [network_module::is_wifi_connected()] and
    [network_module::is_tcp_connected()] *)
Definition is_wifi_connected (n : network_module) : bool := wifi_connected_ n.
Definition is_tcp_connected (n : network_module) : bool := tcp_connected_ n.

(** [network_module::loop()] *)
Definition loop (n : network_module) : network_module := n.

(** Calls wrapped in [ESP_ERROR_CHECK], with what each returns: the
    calls made, and whether all returned [ESP_OK]; the first that does
    not aborts the program. *)
Fixpoint error_checked (calls : list (sys_call * Z)) : list sys_call * bool :=
  match calls with
  | [] => ([], true)
  | (c, ret) :: rest =>
      if ret =? ESP_OK
      then let '(made, ok) := error_checked rest in (c :: made, ok)
      else ([c], false)
  end.

(** What the WiFi driver and the event loop answer during one
    [disconnect_wifi]. *)
Record wifi_answers : Type := mk_wifi_answers {
  wifi_disconnect_ret : Z;
  wifi_stop_ret : Z;
  wifi_deinit_ret : Z;
  unregister_ip_ret : Z;
  unregister_wifi_ret : Z
}.

(** [network_module::disconnect_wifi()]; the module afterwards is [None]
    when an [ESP_ERROR_CHECK] aborted the program. *)
Definition disconnect_wifi (a : wifi_answers) (n : network_module)
  : option network_module * list sys_call :=
  if negb (wifi_connected_ n) then (Some n, [])
  else
    let '(n, closing) := disconnect_tcp n in
    let '(stopping, ok) :=
      error_checked
        [(esp_wifi_disconnect, wifi_disconnect_ret a);
         (esp_wifi_stop, wifi_stop_ret a);
         (esp_wifi_deinit, wifi_deinit_ret a);
         (esp_event_handler_unregister_ip, unregister_ip_ret a);
         (esp_event_handler_unregister_wifi, unregister_wifi_ret a)] in
    if ok
    then (Some (with_wifi_connected false n), closing ++ stopping)
    else (None, closing ++ stopping).

(** [network_module::on_event(event)] *)
Definition on_event (a : wifi_answers) (ev : event_data) (n : network_module)
  : option network_module * list sys_call :=
  match type ev with
  | enter_deep_sleep =>
      let '(n, closing) := disconnect_tcp n in
      let '(result, stopping) := disconnect_wifi a n in
      (result, closing ++ stopping)
  | _ => (Some n, [])
  end.

(** The events [wifi_event_handler] tells apart. *)
Inductive wifi_event : Type :=
  | WIFI_EVENT_STA_START
  | WIFI_EVENT_STA_DISCONNECTED
  | WIFI_EVENT_STA_CONNECTED
  | WIFI_EVENT_other
  | IP_EVENT_STA_GOT_IP
  | IP_EVENT_STA_LOST_IP
  | IP_EVENT_other.

(** [network_module::wifi_event_handler(...)], on the instance [n]. *)
Definition wifi_event_handler (e : wifi_event) (n : network_module)
  : network_module * list sys_call :=
  match e with
  | WIFI_EVENT_STA_START => (n, [esp_wifi_connect])
  | WIFI_EVENT_STA_DISCONNECTED =>
      (with_wifi_connected false n,
       [esp_wifi_connect; xEventGroupClearBits_connected;
        xEventGroupSetBits_fail; event_bus_publish network_disconnected])
  | IP_EVENT_STA_GOT_IP =>
      (with_wifi_connected true n,
       [xEventGroupSetBits_connected; event_bus_publish network_connected])
  | _ => (n, [])
  end.

(** The end of [tcp_receive_task]: after a failed or empty [recv] the
    task disconnects; in every case it clears the handle before it
    deletes itself. *)
Definition tcp_receive_task_exit (recv_failed : bool) (n : network_module)
  : network_module * list sys_call :=
  let '(n, closing) := if recv_failed then disconnect_tcp n else (n, []) in
  (with_task_handle None n, closing ++ [vTaskDelete_self]).

(** What can happen to a module after construction.  A [disconnect_wifi]
    or an [on_event] whose [ESP_ERROR_CHECK] aborts ends the run. *)
Inductive step : Type :=
  | do_connect_tcp (a : connect_answers) (host : string) (port : Z)
  | do_disconnect_tcp
  | do_send_data (sent : Z) (data : list Z)
  | do_set_data_callback (c : option callback)
  | do_disconnect_wifi (a : wifi_answers)
  | do_on_event (a : wifi_answers) (ev : event_data)
  | do_wifi_event (e : wifi_event)
  | do_tcp_receive_task_exit (recv_failed : bool)
  | do_loop.

Definition run_step (s : step) (n : network_module) : option network_module :=
  match s with
  | do_connect_tcp a host port => Some (connect_tcp a host port n).1.2
  | do_disconnect_tcp => Some (disconnect_tcp n).1
  | do_send_data _ _ => Some n
  | do_set_data_callback c => Some (set_data_callback c n)
  | do_disconnect_wifi a => (disconnect_wifi a n).1
  | do_on_event a ev => (on_event a ev n).1
  | do_wifi_event e => Some (wifi_event_handler e n).1
  | do_tcp_receive_task_exit recv_failed =>
      Some (tcp_receive_task_exit recv_failed n).1
  | do_loop => Some (loop n)
  end.

Fixpoint run_steps (ss : list step) (n : network_module)
  : option network_module :=
  match ss with
  | [] => Some n
  | s :: ss' =>
      match run_step s n with
      | Some n' => run_steps ss' n'
      | None => None
      end
  end.

(** The sockets a sequence of calls closes. *)
Definition closed_sockets (cs : list sys_call) : list Z :=
  omap (fun c => match c with sys_close fd => Some fd | _ => None end) cs.

End Network.

(* ===================================================================== *)
(** * Properties of the power controller *)
(* ===================================================================== *)

Module PmuProps.

Import Pmu.

Lemma unlock_unlocked now p : is_locked_ p = false -> unlock now p = p.
Proof. unfold unlock. intros ->. reflexivity. Qed.

Lemma unlock_locked now p :
  is_locked_ p = true ->
  unlock now p = mk_pmu false now (idle_timeout_ p) (is_suspended_ p).
Proof. unfold unlock. intros ->. reflexivity. Qed.

(** [loop()] touches nothing but the suspended flag. *)
Lemma loop_keeps now p :
  is_locked_ (fst (loop now p)) = is_locked_ p /\
  last_unlock_time_ (fst (loop now p)) = last_unlock_time_ p /\
  idle_timeout_ (fst (loop now p)) = idle_timeout_ p.
Proof.
  unfold loop.
  destruct (is_locked_ p || is_suspended_ p); [easy|].
  destruct (idle_timeout_ p <=? _); [|easy].
  destruct (negb (is_suspended_ p)); easy.
Qed.

(** Between an [unlock()] and the next [lock()] the idle window does not
    move: further [unlock()] calls and [loop()] polls keep the lock flag,
    the window start and the timeout. *)
Lemma run_calls_keeps cs : forall p,
  is_locked_ p = false ->
  is_locked_ (fst (run_calls cs p)) = false /\
  last_unlock_time_ (fst (run_calls cs p)) = last_unlock_time_ p /\
  idle_timeout_ (fst (run_calls cs p)) = idle_timeout_ p.
Proof.
  induction cs as [|c cs IH]; intros p Hp; [easy|].
  cbn [run_calls].
  destruct (run_call c p) as [p1 out1] eqn:E1.
  assert (H1 : is_locked_ p1 = false /\
               last_unlock_time_ p1 = last_unlock_time_ p /\
               idle_timeout_ p1 = idle_timeout_ p).
  { destruct c as [now|now]; cbn [run_call] in E1.
    - injection E1 as <- _. rewrite (unlock_unlocked _ _ Hp). easy.
    - pose proof (loop_keeps now p) as K. rewrite E1 in K. cbn [fst] in K.
      destruct K as (K1 & K2 & K3). rewrite K1. easy. }
  destruct H1 as (L1 & L2 & L3).
  specialize (IH p1 L1).
  destruct (run_calls cs p1) as [p2 out2]. cbn [fst] in *.
  destruct IH as (I1 & I2 & I3). rewrite I1, I2, I3, L2, L3. easy.
Qed.

(** A whole number [T] of seconds has elapsed once the truncated count of
    elapsed seconds reaches [T]. *)
Lemma elapsed_seconds_reached T d :
  0 <= d -> T <= duration_cast_seconds d -> T * ticks_per_second <= d.
Proof.
  unfold duration_cast_seconds, ticks_per_second. intros Hd HT.
  rewrite Z.quot_div_nonneg in HT by lia.
  pose proof (Z.mul_div_le d 1000000000 ltac:(lia)) as Hm.
  assert (0 <= d / 1000000000) by (apply Z.div_pos; lia).
  lia.
Qed.

(** The poll that suspends finds the timeout elapsed. *)
Lemma suspends_at_elapsed now p :
  suspends_at now p ->
  is_locked_ p = false /\
  idle_timeout_ p <= duration_cast_seconds (now - last_unlock_time_ p).
Proof.
  unfold suspends_at, loop. intros (Hs & Hs' & Hc). rewrite Hs in *.
  destruct (is_locked_ p); cbn in *; [discriminate|].
  split; [reflexivity|].
  destruct (idle_timeout_ p <=? _) eqn:E; cbn in *; [|discriminate].
  apply Z.leb_le in E. exact E.
Qed.

(** C3 (as amended): with idle timeout [T] seconds, after an [unlock()]
    at time [t0] that finds the controller locked, and with no [lock()]
    in between (only further [unlock()] and [loop()] calls), a [loop()]
    that suspends (sets the suspended flag and calls [suspend_all()])
    runs at a time [>= t0 + T], never strictly before; and a [loop()] on
    a locked or already suspended controller changes nothing and calls
    nothing.  Times are readings of the steady clock, so [t0 <= t]. *)
Theorem suspend_only_after_idle_timeout
    (p : pmu) (t0 : time_point) (cs : list idle_call) (t : time_point)
    (q : pmu) (now : time_point) :
  (is_locked_ p = true ->
   t0 <= t ->
   suspends_at t (fst (run_calls cs (unlock t0 p))) ->
   t0 + idle_timeout_ p * ticks_per_second <= t) /\
  (is_locked_ q || is_suspended_ q = true -> loop now q = (q, [])).
Proof.
  split.
  - intros Hl Ht Hs.
    apply suspends_at_elapsed in Hs. destruct Hs as [_ Hs].
    rewrite (unlock_locked _ _ Hl) in Hs.
    destruct (run_calls_keeps cs (mk_pmu false t0 (idle_timeout_ p) (is_suspended_ p))
                eq_refl) as (_ & K2 & K3).
    rewrite K2, K3 in Hs. cbn [last_unlock_time_ idle_timeout_] in Hs.
    apply elapsed_seconds_reached in Hs; lia.
  - intros H. unfold loop. rewrite H. reflexivity.
Qed.

(** A run with a 10 s timeout: locked at start, unlocked at 8 s, polled
    at 9 s and 17 s without suspending, suspended by the poll at 18 s. *)
Lemma suspend_only_after_idle_timeout_witness :
  let p := mk_pmu true 0 10 false in
  let cs := [call_loop 9000000000; call_unlock 12000000000;
             call_loop 17000000000] in
  snd (run_calls cs (unlock 8000000000 p)) = [] /\
  suspends_at 18000000000 (fst (run_calls cs (unlock 8000000000 p))) /\
  8000000000 + idle_timeout_ p * ticks_per_second <= 18000000000 /\
  loop 5 p = (p, []).
Proof.
  intros p cs.
  pose proof (suspend_only_after_idle_timeout p 8000000000 cs 18000000000 p 5)
    as [H1 H2].
  assert (Hs : suspends_at 18000000000 (fst (run_calls cs (unlock 8000000000 p)))).
  { repeat split; reflexivity. }
  split; [reflexivity|]. split; [exact Hs|]. split.
  - apply H1; [reflexivity|lia|exact Hs].
  - apply H2. reflexivity.
Defined.

(** C3 as stated fails: a controller built at time 0 with a 10 s timeout
    is unlocked from the start, so an [unlock()] at 8 s does not restart
    the idle window, and the [loop()] at 10 s suspends, 8 s before
    [t0 + T] = 18 s. *)
Lemma suspend_before_unlock_plus_timeout :
  let p := new 30 0 10 in
  let t0 := 8000000000 in
  let t := 10000000000 in
  idle_timeout_ p = 10 /\
  suspends_at t (unlock t0 p) /\
  t < t0 + idle_timeout_ p * ticks_per_second.
Proof. cbv. repeat split; reflexivity. Qed.

(** C7 (as amended): every [unlock()] leaves [is_locked()] false and the
    timeout and the suspended flag as they were; it records the time of
    the call as the idle-window start when it finds the controller
    locked, and keeps the recorded start otherwise; a second [unlock()]
    changes nothing. *)
Theorem unlock_effect (now now' : time_point) (p : pmu) :
  is_locked (unlock now p) = false /\
  last_unlock_time_ (unlock now p)
    = (if is_locked p then now else last_unlock_time_ p) /\
  idle_timeout_ (unlock now p) = idle_timeout_ p /\
  is_suspended_ (unlock now p) = is_suspended_ p /\
  unlock now' (unlock now p) = unlock now p.
Proof.
  unfold is_locked, unlock.
  destruct (is_locked_ p) eqn:E; cbn; rewrite ?E; repeat split; reflexivity.
Qed.

(** C7 as stated fails: the controller built at time 0 is unlocked, and
    an [unlock()] at 5 s leaves the idle-window start at 0. *)
Lemma unlock_when_unlocked_keeps_window :
  let p := new 30 0 10 in
  is_locked p = false /\
  last_unlock_time_ (unlock 5000000000 p) = 0 /\
  last_unlock_time_ (unlock 5000000000 p) <> 5000000000.
Proof. cbv. repeat split; discriminate. Qed.

(** C10: built with [idle_timeout_seconds = 0] the controller gets the
    configured default timeout, and [set_idle_timeout(s)] with [s <= 0]
    sets the timeout to that default (and nothing else). *)
Theorem zero_or_nonpositive_timeout_is_default
    (PMU_DEFAULT_IDLE_TIMEOUT : Z) (now : time_point) (s : Z) (p : pmu) :
  s <= 0 ->
  get_idle_timeout (new PMU_DEFAULT_IDLE_TIMEOUT now 0)
    = PMU_DEFAULT_IDLE_TIMEOUT /\
  get_idle_timeout (set_idle_timeout PMU_DEFAULT_IDLE_TIMEOUT s p)
    = PMU_DEFAULT_IDLE_TIMEOUT /\
  set_idle_timeout PMU_DEFAULT_IDLE_TIMEOUT s p
    = mk_pmu (is_locked_ p) (last_unlock_time_ p) PMU_DEFAULT_IDLE_TIMEOUT
             (is_suspended_ p).
Proof.
  intros Hs. unfold get_idle_timeout, new, set_idle_timeout.
  apply Z.leb_le in Hs. rewrite Hs. cbn. repeat split; reflexivity.
Qed.

Lemma zero_or_nonpositive_timeout_is_default_witness :
  get_idle_timeout (new 30 0 0) = 30 /\
  get_idle_timeout (set_idle_timeout 30 (-5) (mk_pmu true 7 12 false)) = 30 /\
  set_idle_timeout 30 (-5) (mk_pmu true 7 12 false) = mk_pmu true 7 30 false.
Proof.
  apply (zero_or_nonpositive_timeout_is_default 30 0 (-5) (mk_pmu true 7 12 false)).
  lia.
Defined.

End PmuProps.

(* ===================================================================== *)
(** * Properties of the device registry *)
(* ===================================================================== *)

Module DeviceManagerProps.

Import DeviceManager.

Lemma strcmp_zero (a b : string) : (strcmp a b =? 0) = true <-> a = b.
Proof.
  unfold strcmp. split.
  - intros H. apply String.compare_eq_iff.
    destruct (String.compare a b); [reflexivity|discriminate|discriminate].
  - intros <-. pose proof (String.compare_antisym a a) as H.
    destruct (String.compare a a); [reflexivity|discriminate|discriminate].
Qed.

(** The duplicate scan finds a device exactly when the name is taken. *)
Lemma name_scan (d : device) (devices_ : list device) :
  find_if_found (fun existing => strcmp (name existing) (name d) =? 0) devices_
    = true
  <-> In (name d) (map name devices_).
Proof.
  unfold find_if_found. rewrite existsb_exists, in_map_iff.
  split; intros (x & H1 & H2).
  - apply strcmp_zero in H2. eauto.
  - exists x. split; [assumption|]. apply strcmp_zero. assumption.
Qed.

Lemma register_device_taken (d : device) (devices_ : list device) :
  In (name d) (map name devices_) ->
  register_device (Some d) devices_ = devices_.
Proof.
  intros H. apply name_scan in H. unfold register_device. rewrite H. reflexivity.
Qed.

Lemma register_device_fresh (d : device) (devices_ : list device) :
  ~ In (name d) (map name devices_) ->
  register_device (Some d) devices_ = devices_ ++ [d].
Proof.
  intros H. unfold register_device.
  destruct (find_if_found _ devices_) eqn:E; [|reflexivity].
  apply name_scan in E. contradiction.
Qed.

Lemma NoDup_snoc {A} (l : list A) (x : A) :
  List.NoDup l -> ~ In x l -> List.NoDup (l ++ [x]).
Proof.
  intros Hl Hx. induction Hl as [|y l Hy Hl IH]; cbn.
  - constructor; [intros []|constructor].
  - constructor.
    + rewrite in_app_iff. cbn. intros [H|[H|[]]]; [contradiction|].
      subst. apply Hx. left. reflexivity.
    + apply IH. intros H. apply Hx. right. assumption.
Qed.

(** One registration keeps the names pairwise distinct. *)
Lemma register_device_NoDup (dev : option device) (devices_ : list device) :
  List.NoDup (map name devices_) ->
  List.NoDup (map name (register_device dev devices_)).
Proof.
  intros H. destruct dev as [d|]; [|exact H].
  destruct (in_dec String.string_dec (name d) (map name devices_)) as [Hin|Hout].
  - rewrite register_device_taken by assumption. exact H.
  - rewrite register_device_fresh by assumption.
    rewrite map_app. cbn. apply NoDup_snoc; assumption.
Qed.

Lemma register_all_NoDup (devs : list (option device)) : forall devices_,
  List.NoDup (map name devices_) ->
  List.NoDup (map name (register_all devs devices_)).
Proof.
  unfold register_all.
  induction devs as [|dev devs IH]; intros devices_ H; cbn; [exact H|].
  apply IH, register_device_NoDup, H.
Qed.

(** C4: after any sequence of [register_device()] calls on an empty
    registry no two registered devices have the same name; a call with a
    null device, or with a device whose name is already registered,
    leaves the registry as it is, and any other call appends the device. *)
Theorem registered_names_unique
    (devs : list (option device)) (devices_ : list device) (d : device) :
  List.NoDup (map name (register_all devs [])) /\
  register_device None devices_ = devices_ /\
  (In (name d) (map name devices_) ->
   register_device (Some d) devices_ = devices_) /\
  (~ In (name d) (map name devices_) ->
   register_device (Some d) devices_ = devices_ ++ [d]).
Proof.
  split; [|split; [|split]].
  - apply register_all_NoDup. constructor.
  - reflexivity.
  - apply register_device_taken.
  - apply register_device_fresh.
Qed.

Lemma registered_names_unique_witness :
  let uart := mk_device 1 "uart_device" in
  let batt := mk_device 2 "battery_device" in
  let uart' := mk_device 3 "uart_device" in
  List.NoDup (map name (register_all [Some uart; None; Some batt; Some uart'] [])) /\
  register_all [Some uart; None; Some batt; Some uart'] [] = [uart; batt] /\
  register_device (Some uart') [uart; batt] = [uart; batt] /\
  register_device (Some batt) [uart] = [uart; batt].
Proof.
  intros uart batt uart'.
  split; [|split; [|split]].
  - apply (registered_names_unique [Some uart; None; Some batt; Some uart'] [] uart).
  - reflexivity.
  - apply (registered_names_unique [] [uart; batt] uart').
    cbn. left. reflexivity.
  - apply (registered_names_unique [] [uart] batt).
    cbn. intros [H|[]]. discriminate H.
Defined.

End DeviceManagerProps.

(* ===================================================================== *)
(** * Properties of the event bus *)
(* ===================================================================== *)

Module EventBusProps.

Import EventBus.

Lemma expired_false released wp :
  expired released wp = false <-> control wp ∉ released.
Proof. unfold expired. apply bool_decide_eq_false. Qed.

Lemma weak_lock_Some released wp sp :
  weak_lock released wp = Some sp -> sp = wp /\ control wp ∉ released.
Proof.
  unfold weak_lock. destruct (expired released wp) eqn:E; [discriminate|].
  intros [= <-]. split; [reflexivity|]. apply expired_false, E.
Qed.

Lemma erase_expired_In released (v : list weak_ptr) wp :
  In wp (erase_remove_if (expired released) v) <->
  In wp v /\ control wp ∉ released.
Proof.
  unfold erase_remove_if. rewrite filter_In, negb_true_iff, expired_false.
  reflexivity.
Qed.

Section WithListeners.

Variable on_event :
  listener -> event_data -> gset control_block -> gset control_block.

(** The delivery loop returns: it calls through owners only, in the
    order of the vector, and releases are only added. *)
Lemma notify_returns ev v : forall released,
  exists released' invoked,
    notify on_event ev v released = Some (released', invoked) /\
    released ⊆ released' /\
    sublist invoked v /\
    (forall sp, In sp invoked -> control sp ∉ released).
Proof.
  induction v as [|wp rest IH]; intros released; cbn [notify].
  - exists released, []. split; [reflexivity|]. split; [reflexivity|].
    split; [constructor|]. intros sp [].
  - cbv zeta. destruct (weak_lock released wp) as [p|] eqn:E.
    + apply weak_lock_Some in E. destruct E as [-> E]. cbn [call_on_event].
      destruct (IH (released ∪ on_event (get wp) ev released))
        as (r' & inv & H1 & H2 & H3 & H4).
      rewrite H1. exists r', (wp :: inv). split; [reflexivity|].
      split; [set_solver|]. split; [constructor; exact H3|].
      intros sp [<-|Hin]; [exact E|]. apply H4 in Hin. set_solver.
    + destruct (IH released) as (r' & inv & H1 & H2 & H3 & H4).
      exists r', inv. split; [exact H1|]. split; [exact H2|].
      split; [constructor; exact H3|exact H4].
Qed.

(** [publish] returns, and what it returns. *)
Lemma publish_returns ev (listeners_ : listeners_map) released :
  let live := erase_remove_if (expired released) <$> listeners_ !! type ev in
  exists released' invoked,
    publish on_event ev listeners_ released
    = Some (match live with
            | Some v => <[type ev := v]> listeners_
            | None => listeners_
            end, released', invoked) /\
    released ⊆ released' /\
    sublist invoked (default [] live) /\
    (listeners_ !! type ev = None -> released' = released).
Proof.
  unfold publish. destruct (listeners_ !! type ev) as [v|]; cbn.
  - destruct (notify_returns ev (erase_remove_if (expired released) v) released)
      as (r' & inv & H1 & H2 & H3 & _).
    rewrite H1. exists r', inv. split; [reflexivity|]. split; [exact H2|].
    split; [exact H3|discriminate].
  - exists released, []. split; [reflexivity|]. split; [reflexivity|].
    split; [constructor|reflexivity].
Qed.

End WithListeners.

Lemma sublist_In {A} (l1 l2 : list A) x : sublist l1 l2 -> In x l1 -> In x l2.
Proof.
  intros S H. apply list_elem_of_In. apply list_elem_of_In in H.
  eapply sublist_subseteq; eassumption.
Qed.

(** Every call of [publish] goes through a subscription of the event's
    type whose control block has an owner when [publish] starts. *)
Lemma publish_never_invokes_released_aux
    (on_event : listener -> event_data -> gset control_block -> gset control_block)
    (ev : event_data) (listeners_ : listeners_map)
    (released : gset control_block) :
  exists r,
    publish on_event ev listeners_ released = Some r /\
    forall sp, In sp (snd r) ->
      (control sp ∉ released) /\ In sp (default [] (listeners_ !! type ev)).
Proof.
  destruct (publish_returns on_event ev listeners_ released)
    as (r' & inv & E & _ & Hs & _).
  eexists. split; [exact E|]. cbn [snd]. intros sp Hin.
  apply (sublist_In _ _ _ Hs) in Hin.
  destruct (listeners_ !! type ev) as [v|]; cbn in Hin; [|destruct Hin].
  apply erase_expired_In in Hin. cbn. tauto.
Qed.

(** C6: [publish] completes for every table, event and state of
    ownership, whatever the listeners it invokes release: no call goes
    through a null pointer.  Every call it makes goes through a
    subscription of the event's type whose control block still had an
    owner when [publish] started, so a subscription whose owner was
    released before is not delivered to, even when the same object has
    another owner that lives.  The vector it leaves in the table for the
    event's type is the old one without the expired subscriptions, the
    other vectors are as they were, and for a type with no entry it
    leaves everything as it is and invokes nobody. *)
Theorem publish_never_invokes_released
    (on_event : listener -> event_data -> gset control_block -> gset control_block)
    (ev : event_data) (listeners_ : listeners_map)
    (released : gset control_block) :
  exists listeners_' released' invoked,
    publish on_event ev listeners_ released
    = Some (listeners_', released', invoked) /\
    (forall sp, In sp invoked ->
       (control sp ∉ released) /\ In sp (default [] (listeners_ !! type ev))) /\
    listeners_' !! type ev
    = erase_remove_if (expired released) <$> listeners_ !! type ev /\
    (forall wp, In wp (default [] (listeners_' !! type ev)) ->
       control wp ∉ released) /\
    (forall t, t <> type ev -> listeners_' !! t = listeners_ !! t) /\
    released ⊆ released' /\
    (listeners_ !! type ev = None ->
     listeners_' = listeners_ /\ released' = released /\ invoked = []).
Proof.
  destruct (publish_returns on_event ev listeners_ released)
    as (r' & inv & E & Hr & Hs & Hn).
  eexists _, r', inv. split; [exact E|].
  destruct (listeners_ !! type ev) as [v|] eqn:L; cbn in *.
  - split.
    { intros sp Hin. apply (sublist_In _ _ _ Hs), erase_expired_In in Hin. tauto. }
    split; [apply lookup_insert_eq|].
    split.
    { rewrite lookup_insert_eq. cbn. intros wp Hin.
      apply erase_expired_In in Hin. tauto. }
    split; [intros t Ht; apply lookup_insert_ne; congruence|].
    split; [exact Hr|discriminate].
  - apply sublist_nil_r in Hs. subst inv.
    split; [intros sp []|]. split; [exact L|].
    split; [intros wp Hin; rewrite L in Hin; destruct Hin|].
    split; [reflexivity|].
    split; [exact Hr|]. intros _. rewrite Hn by reflexivity. auto.
Qed.

(** Four subscriptions to [battery_low].  The listener at address 1
    subscribed through the control block 10, which is released, and has
    another owner, 11, that lives; the listener at 2, when invoked,
    releases the owner 30 of the listener at 3. *)
Lemma publish_never_invokes_released_witness :
  let on_event : listener -> event_data -> gset control_block -> gset control_block :=
    fun l _ _ => if bool_decide (l = 2%nat) then {[30%nat]} else ∅ in
  let p1 := mk_shared_ptr 10%nat 1%nat in
  let p2 := mk_shared_ptr 20%nat 2%nat in
  let p3 := mk_shared_ptr 30%nat 3%nat in
  let p4 := mk_shared_ptr 40%nat 4%nat in
  let listeners_ : listeners_map := {[battery_low := [p1; p2; p3; p4]]} in
  let released : gset control_block := {[10%nat]} in
  exists listeners_' released' invoked,
    publish on_event (event battery_low) listeners_ released
    = Some (listeners_', released', invoked) /\
    (forall sp, In sp invoked -> control sp ∉ released) /\
    listeners_' !! battery_low = Some [p2; p3; p4] /\
    invoked = [p2; p4] /\
    publish on_event (event battery_normal) listeners_ released
    = Some (listeners_, released, []).
Proof.
  intros on_event p1 p2 p3 p4 listeners_ released.
  destruct (publish_never_invokes_released on_event (event battery_low)
              listeners_ released) as (l' & r' & inv & E & H1 & H2 & _).
  destruct (publish_never_invokes_released on_event (event battery_normal)
              listeners_ released) as (l2 & r2 & inv2 & E2 & _ & _ & _ & _ & _ & H3).
  exists l', r', inv. split; [exact E|].
  split; [intros sp Hin; apply H1, Hin|].
  split; [etransitivity; [exact H2|vm_compute; reflexivity]|].
  split.
  - assert (E' := E). vm_compute in E'. injection E' as _ _ <-. reflexivity.
  - destruct H3 as (-> & -> & ->); [vm_compute; reflexivity|exact E2].
Defined.

End EventBusProps.

(* ===================================================================== *)
(** * Properties of binary32 numbers *)
(* ===================================================================== *)

Module F32Props.

(** The order on positive finite numbers: by exponent, then mantissa. *)
Lemma compare_finite_pos (m1 : positive) (e1 : Z) (m2 : positive) (e2 : Z) :
  SFcompare (S754_finite false m1 e1) (S754_finite false m2 e2)
    = Some (match e1 ?= e2 with
            | Eq => (m1 ?= m2)%positive
            | Lt => Lt
            | Gt => Gt
            end).
Proof. reflexivity. Qed.

Lemma ltb_finite_pos (m1 : positive) (e1 : Z) (m2 : positive) (e2 : Z) :
  SFltb (S754_finite false m1 e1) (S754_finite false m2 e2) = true <->
  e1 < e2 \/ (e1 = e2 /\ Z.pos m1 < Z.pos m2).
Proof.
  unfold SFltb. rewrite compare_finite_pos.
  destruct (Z.compare_spec e1 e2) as [->|H|H].
  - destruct (Pos.compare_spec m1 m2) as [->|Hm|Hm]; split; try discriminate;
      try lia; auto.
  - split; [intros _; left; exact H|reflexivity].
  - split; [discriminate|lia].
Qed.

Lemma ltb_finite_pos_false (m1 : positive) (e1 : Z) (m2 : positive) (e2 : Z) :
  e2 < e1 \/ (e1 = e2 /\ Z.pos m2 <= Z.pos m1) ->
  SFltb (S754_finite false m1 e1) (S754_finite false m2 e2) = false.
Proof.
  intros H.
  destruct (SFltb (S754_finite false m1 e1) (S754_finite false m2 e2)) eqn:E;
    [|reflexivity].
  apply ltb_finite_pos in E. lia.
Qed.

Lemma leb_finite_pos (m1 : positive) (e1 : Z) (m2 : positive) (e2 : Z) :
  SFleb (S754_finite false m1 e1) (S754_finite false m2 e2) = true <->
  e1 < e2 \/ (e1 = e2 /\ Z.pos m1 <= Z.pos m2).
Proof.
  unfold SFleb. rewrite compare_finite_pos.
  destruct (Z.compare_spec e1 e2) as [->|H|H].
  - destruct (Pos.compare_spec m1 m2) as [->|Hm|Hm]; split; try discriminate;
      try lia; auto.
  - split; [intros _; left; exact H|reflexivity].
  - split; [discriminate|lia].
Qed.

(** ** Rounding

    The operations of [SpecFloat] round through [binary_round_aux]:
    the mantissa is shifted right to 24 digits, rounded to nearest even
    on the bits shifted out, and shifted once more if the rounding
    carried. *)

(** [digits2_pos p] is the number of binary digits of [p]. *)
Lemma digits2_pos_bounds (p : positive) :
  2 ^ (Z.pos (digits2_pos p) - 1) <= Z.pos p < 2 ^ Z.pos (digits2_pos p).
Proof.
  induction p as [p IH|p IH|]; cbn [digits2_pos].
  - rewrite Pos2Z.inj_succ. change (Z.pos p~1) with (2 * Z.pos p + 1).
    replace (Z.succ (Z.pos (digits2_pos p)) - 1)
      with (Z.succ (Z.pos (digits2_pos p) - 1)) by lia.
    rewrite !Z.pow_succ_r by lia.
    generalize dependent (2 ^ (Z.pos (digits2_pos p) - 1)).
    generalize dependent (2 ^ Z.pos (digits2_pos p)). intros; lia.
  - rewrite Pos2Z.inj_succ. change (Z.pos p~0) with (2 * Z.pos p).
    replace (Z.succ (Z.pos (digits2_pos p)) - 1)
      with (Z.succ (Z.pos (digits2_pos p) - 1)) by lia.
    rewrite !Z.pow_succ_r by lia.
    generalize dependent (2 ^ (Z.pos (digits2_pos p) - 1)).
    generalize dependent (2 ^ Z.pos (digits2_pos p)). intros; lia.
  - cbn. lia.
Qed.

Lemma digits2_pos_unique (p : positive) (k : Z) :
  2 ^ (k - 1) <= Z.pos p < 2 ^ k -> Z.pos (digits2_pos p) = k.
Proof.
  intros [H1 H2]. pose proof (digits2_pos_bounds p) as [B1 B2].
  set (d := Z.pos (digits2_pos p)) in *.
  assert (Hd : 0 < d) by (subst d; lia).
  destruct (Z.lt_trichotomy d k) as [Hlt|[Heq|Hgt]]; [|exact Heq|].
  - exfalso.
    assert (2 ^ d <= 2 ^ (k - 1)) by (apply Z.pow_le_mono_r; lia). lia.
  - exfalso.
    assert (k < 0 \/ 0 <= k) as [Hk|Hk] by lia.
    + rewrite (Z.pow_neg_r 2 k Hk) in H2. lia.
    + assert (2 ^ k <= 2 ^ (d - 1)) by (apply Z.pow_le_mono_r; lia). lia.
Qed.

(** Shifting the mantissa right by [n] places divides it by [2 ^ n]. *)
Lemma shr_1_m (mrs : shr_record) :
  0 <= shr_m mrs -> shr_m (shr_1 mrs) = shr_m mrs / 2 /\ 0 <= shr_m (shr_1 mrs).
Proof.
  destruct mrs as [m r s]. cbn [shr_m]. intros Hm.
  destruct m as [|p|p]; [cbn; split; [reflexivity|lia]| |lia].
  destruct p as [p|p|]; cbn [shr_1 shr_m].
  - change (Z.pos p~1) with (2 * Z.pos p + 1). split; [|lia].
    apply Z.div_unique with (r := 1); lia.
  - change (Z.pos p~0) with (2 * Z.pos p). split; [|lia].
    apply Z.div_unique with (r := 0); lia.
  - split; [reflexivity|lia].
Qed.

Lemma iter_pos_shr_1 (n : positive) : forall mrs : shr_record,
  0 <= shr_m mrs ->
  shr_m (SpecFloat.iter_pos shr_1 n mrs) = shr_m mrs / 2 ^ Z.pos n /\
  0 <= shr_m (SpecFloat.iter_pos shr_1 n mrs).
Proof.
  induction n as [n IH|n IH|]; intros mrs Hm; cbn [SpecFloat.iter_pos].
  - destruct (shr_1_m mrs Hm) as [E1 P1].
    destruct (IH _ P1) as [E2 P2]. destruct (IH _ P2) as [E3 P3].
    split; [|exact P3].
    rewrite E3, E2, E1, !Z.div_div by lia.
    f_equal. change (Z.pos n~1) with (2 * Z.pos n + 1).
    replace (2 * Z.pos n + 1) with (1 + Z.pos n + Z.pos n) by lia.
    rewrite !Z.pow_add_r by lia. lia.
  - destruct (IH _ Hm) as [E2 P2]. destruct (IH _ P2) as [E3 P3].
    split; [|exact P3].
    rewrite E3, E2, !Z.div_div by lia.
    f_equal. change (Z.pos n~0) with (2 * Z.pos n).
    replace (2 * Z.pos n) with (Z.pos n + Z.pos n) by lia.
    rewrite !Z.pow_add_r by lia. lia.
  - destruct (shr_1_m mrs Hm) as [E1 P1]. split; [|exact P1].
    rewrite E1. reflexivity.
Qed.

Lemma shr_spec (mrs : shr_record) (e n : Z) :
  0 <= shr_m mrs -> 0 <= n ->
  shr_m (fst (shr mrs e n)) = shr_m mrs / 2 ^ n /\ snd (shr mrs e n) = e + n.
Proof.
  intros Hm Hn. destruct n as [|p|p]; [| |lia]; cbn [shr fst snd].
  - rewrite Z.pow_0_r, Z.div_1_r. split; [reflexivity|lia].
  - split; [|reflexivity]. apply iter_pos_shr_1, Hm.
Qed.

Lemma shr_m_record_of_loc (m : Z) (l : location) :
  shr_m (shr_record_of_loc m l) = m.
Proof. destruct l as [|[ | | ]]; reflexivity. Qed.

(** Rounding to nearest even keeps the mantissa or adds one to it. *)
Lemma round_nearest_even_bounds (m : Z) (l : location) :
  m <= round_nearest_even m l <= m + 1.
Proof.
  destruct l as [|[ | | ]]; cbn [round_nearest_even]; try lia.
  destruct (Z.even m); lia.
Qed.

(** Above the subnormal range a number of magnitude [2 ^ e] has its last
    place at [e - 24]. *)
Lemma fexp_normal (e : Z) : -125 <= e -> fexp F32.prec F32.emax e = e - 24.
Proof. unfold fexp, SpecFloat.emin, F32.prec, F32.emax. lia. Qed.

(** Rounding a positive mantissa of [n + 24] digits to [float]: the
    result is finite, positive and normal, and lies within one unit in
    the last place of the number rounded. *)
Lemma binary_round_aux_spec (mx : positive) (ex : Z) (lx : location) (n : Z) :
  Z.pos (digits2_pos mx) = n + 24 ->
  0 <= n -> -149 <= ex + n -> ex + n + 1 <= 104 ->
  exists (m' : positive) (e' : Z),
    binary_round_aux F32.prec F32.emax false (Z.pos mx) ex lx
      = S754_finite false m' e' /\
    2 ^ 23 <= Z.pos m' < 2 ^ 24 /\
    ex + n <= e' <= ex + n + 1 /\
    (Z.pos mx / 2 ^ n) * 2 ^ n <= Z.pos m' * 2 ^ (e' - ex)
      <= (Z.pos mx / 2 ^ n + 1) * 2 ^ n.
Proof.
  intros Hd Hn Hlo Hhi.
  unfold binary_round_aux.
  assert (S1 : shr_fexp F32.prec F32.emax (Z.pos mx) ex lx
               = shr (shr_record_of_loc (Z.pos mx) lx) ex n).
  { unfold shr_fexp. f_equal. cbn [Zdigits2]. rewrite Hd, fexp_normal; lia. }
  rewrite S1.
  pose proof (shr_spec (shr_record_of_loc (Z.pos mx) lx) ex n) as H1.
  rewrite shr_m_record_of_loc in H1. specialize (H1 ltac:(lia) Hn).
  destruct (shr (shr_record_of_loc (Z.pos mx) lx) ex n) as [mrs1 e1].
  cbn [fst snd] in H1. destruct H1 as [M1 E1].
  pose proof (round_nearest_even_bounds (shr_m mrs1) (loc_of_shr_record mrs1)) as Hr.
  set (r := round_nearest_even (shr_m mrs1) (loc_of_shr_record mrs1)) in *.
  pose proof (digits2_pos_bounds mx) as B. rewrite Hd in B.
  replace (n + 24 - 1) with (n + 23) in B by lia.
  rewrite !Z.pow_add_r in B by lia.
  assert (P : 0 < 2 ^ n) by (apply Z.pow_pos_nonneg; lia).
  assert (HM1 : 2 ^ 23 <= shr_m mrs1 < 2 ^ 24).
  { rewrite M1. split.
    - apply Z.div_le_lower_bound; lia.
    - apply Z.div_lt_upper_bound; lia. }
  rewrite <- M1.
  destruct (Z.eq_dec r (2 ^ 24)) as [Hr24|Hr24].
  - rewrite Hr24.
    assert (S2 : shr_fexp F32.prec F32.emax (2 ^ 24) e1 loc_Exact
                 = shr (shr_record_of_loc (2 ^ 24) loc_Exact) e1 1).
    { unfold shr_fexp. f_equal.
      change (Zdigits2 (2 ^ 24)) with 25. rewrite fexp_normal; lia. }
    rewrite S2. cbn [shr shr_record_of_loc SpecFloat.iter_pos].
    change (shr_1 {| shr_m := 2 ^ 24; shr_r := false; shr_s := false |})
      with {| shr_m := 8388608; shr_r := false; shr_s := false |}.
    cbn [shr_m].
    replace (e1 + 1 <=? F32.emax - F32.prec) with true
      by (symmetry; apply Z.leb_le; unfold F32.emax, F32.prec; lia).
    exists 8388608%positive, (e1 + 1).
    split; [reflexivity|]. split; [lia|]. split; [lia|].
    replace (e1 + 1 - ex) with (1 + n) by lia.
    rewrite Z.pow_add_r by lia. change (2 ^ 1) with 2.
    assert (shr_m mrs1 = 2 ^ 24 - 1) as -> by lia. lia.
  - assert (Hr' : 2 ^ 23 <= r < 2 ^ 24) by lia.
    destruct r as [|rp|rp] eqn:Er; [lia| |lia].
    assert (Hdr : Z.pos (digits2_pos rp) = 24).
    { apply digits2_pos_unique. exact Hr'. }
    assert (S2 : shr_fexp F32.prec F32.emax (Z.pos rp) e1 loc_Exact
                 = (shr_record_of_loc (Z.pos rp) loc_Exact, e1)).
    { unfold shr_fexp. cbn [Zdigits2]. rewrite Hdr, fexp_normal by lia.
      replace (24 + e1 - 24 - e1) with 0 by lia. reflexivity. }
    rewrite S2. cbn [shr_record_of_loc shr_m].
    replace (e1 <=? F32.emax - F32.prec) with true
      by (symmetry; apply Z.leb_le; unfold F32.emax, F32.prec; lia).
    exists rp, e1.
    split; [reflexivity|]. split; [exact Hr'|]. split; [lia|].
    replace (e1 - ex) with n by lia. nia.
Qed.

(** The same in value form: [U] is the unit in the last place of the
    result, counted like the values in units of [2 ^ -64]. *)
Lemma binary_round_aux_value (mx : positive) (ex : Z) (lx : location) (n : Z) :
  Z.pos (digits2_pos mx) = n + 24 ->
  0 <= n -> -64 <= ex -> ex + n + 1 <= 104 ->
  exists (m' : positive) (e' U : Z),
    binary_round_aux F32.prec F32.emax false (Z.pos mx) ex lx
      = S754_finite false m' e' /\
    2 ^ 23 <= Z.pos m' < 2 ^ 24 /\
    ex + n <= e' <= ex + n + 1 /\
    2 ^ (ex + 64) <= U /\
    2 ^ 23 * U <= F32.units (Z.pos mx) ex /\
    F32.units (Z.pos mx) ex - U < F32.units (Z.pos m') e'
      <= F32.units (Z.pos mx) ex + U.
Proof.
  intros Hd Hn Hlo Hhi.
  destruct (binary_round_aux_spec mx ex lx n Hd Hn ltac:(lia) Hhi)
    as (m' & e' & Hr & Hm & He & Hv).
  exists m', e', (2 ^ n * 2 ^ (ex + 64)).
  split; [exact Hr|]. split; [exact Hm|]. split; [exact He|].
  unfold F32.units.
  replace (e' + 64) with ((e' - ex) + (ex + 64)) by lia.
  rewrite (Z.pow_add_r 2 (e' - ex) (ex + 64)) by lia.
  rewrite (Z.mul_assoc (Z.pos m')).
  pose proof (digits2_pos_bounds mx) as B. rewrite Hd in B.
  replace (n + 24 - 1) with (n + 23) in B by lia.
  rewrite (Z.pow_add_r 2 n 23), (Z.pow_add_r 2 n 24) in B by lia.
  assert (PA : 0 < 2 ^ n) by (apply Z.pow_pos_nonneg; lia).
  assert (PG : 0 < 2 ^ (ex + 64)) by (apply Z.pow_pos_nonneg; lia).
  pose proof (Z.div_mod (Z.pos mx) (2 ^ n) ltac:(lia)) as Hdm.
  pose proof (Z.mod_pos_bound (Z.pos mx) (2 ^ n) PA) as Hmod.
  set (A := 2 ^ n) in *. set (G := 2 ^ (ex + 64)) in *.
  set (W := Z.pos m' * 2 ^ (e' - ex)) in *.
  set (m1 := Z.pos mx / A) in *. set (rem := Z.pos mx mod A) in *.
  set (X := Z.pos mx) in *.
  change (2 ^ 23) with 8388608 in *. change (2 ^ 24) with 16777216 in *.
  clearbody A G W m1 rem X. clear Hr Hm.
  assert (H1 : X - A < W) by lia.
  assert (H2 : W <= X + A) by lia.
  split; [nia|]. split.
  - replace (8388608 * (A * G)) with (8388608 * A * G) by ring.
    apply Zmult_le_compat_r; lia.
  - split.
    + replace (X * G - A * G) with ((X - A) * G) by ring.
      apply Zmult_lt_compat_r; lia.
    + replace (X * G + A * G) with ((X + A) * G) by ring.
      apply Zmult_le_compat_r; lia.
Qed.

(** A mantissa of exactly 24 digits is not rounded. *)
Lemma binary_round_aux_exact (mx : positive) (ex : Z) :
  Z.pos (digits2_pos mx) = 24 -> -149 <= ex <= 104 ->
  binary_round_aux F32.prec F32.emax false (Z.pos mx) ex loc_Exact
    = S754_finite false mx ex.
Proof.
  intros Hd He. unfold binary_round_aux.
  assert (S : shr_fexp F32.prec F32.emax (Z.pos mx) ex loc_Exact
              = (shr_record_of_loc (Z.pos mx) loc_Exact, ex)).
  { unfold shr_fexp. cbn [Zdigits2]. rewrite Hd, fexp_normal by lia.
    replace (24 + ex - 24 - ex) with 0 by lia. reflexivity. }
  rewrite S. cbn [shr_record_of_loc shr_m loc_of_shr_record round_nearest_even].
  rewrite S. cbn [shr_record_of_loc shr_m].
  replace (ex <=? F32.emax - F32.prec) with true
    by (symmetry; apply Z.leb_le; unfold F32.emax, F32.prec; lia).
  reflexivity.
Qed.

(** Appending [d] zero bits multiplies by [2 ^ d]. *)
Lemma shift_pos_pow (d p : positive) :
  Z.pos (Pos.iter xO p d) = Z.pos p * 2 ^ Z.pos d.
Proof.
  change (Pos.iter xO p d) with (Zpower.shift_pos d p).
  rewrite Zpower.shift_pos_correct, Z.pow_pos_fold. lia.
Qed.

(** A positive integer of at most 24 digits, times a power of two in
    range, is a [float]: normalising it changes the representation, not
    the value. *)
Lemma binary_normalize_exact (D ex : Z) :
  1 <= D < 2 ^ 24 -> -40 <= ex <= 104 ->
  exists (md : positive) (ed : Z),
    binary_normalize F32.prec F32.emax D ex false = S754_finite false md ed /\
    2 ^ 23 <= Z.pos md < 2 ^ 24 /\
    ex - 23 <= ed <= ex /\
    F32.units (Z.pos md) ed = F32.units D ex.
Proof.
  intros HD He.
  destruct D as [|Dp|Dp]; [lia| |lia].
  cbn [binary_normalize]. unfold binary_round.
  pose proof (digits2_pos_bounds Dp) as B.
  set (k := Z.pos (digits2_pos Dp)) in *.
  assert (Hk : 1 <= k <= 24).
  { split; [subst k; lia|].
    destruct (Z_le_gt_dec k 24) as [H|H]; [exact H|exfalso].
    assert (2 ^ 24 <= 2 ^ (k - 1)) by (apply Z.pow_le_mono_r; lia). lia. }
  rewrite fexp_normal by lia.
  unfold shl_align.
  destruct (k + ex - 24 - ex) as [|d|d] eqn:Ed.
  - assert (Hk24 : k = 24) by lia.
    rewrite binary_round_aux_exact by (fold k; lia).
    rewrite Hk24 in B. change (2 ^ (24 - 1)) with (2 ^ 23) in B.
    exists Dp, ex. split; [reflexivity|]. split; [lia|]. split; [lia|reflexivity].
  - lia.
  - assert (Hd : Z.pos d = 24 - k) by lia.
    assert (Hm : Z.pos (Pos.iter xO Dp d) = Z.pos Dp * 2 ^ (24 - k)).
    { rewrite shift_pos_pow, Hd. reflexivity. }
    assert (P1 : 2 ^ (24 - k) * 2 ^ (k - 1) = 2 ^ 23).
    { rewrite <- Z.pow_add_r by lia. f_equal. lia. }
    assert (P2 : 2 ^ (24 - k) * 2 ^ k = 2 ^ 24).
    { rewrite <- Z.pow_add_r by lia. f_equal. lia. }
    assert (P0 : 0 < 2 ^ (24 - k)) by (apply Z.pow_pos_nonneg; lia).
    assert (Hb : 2 ^ 23 <= Z.pos (Pos.iter xO Dp d) < 2 ^ 24).
    { rewrite Hm. nia. }
    rewrite binary_round_aux_exact.
    + exists (Pos.iter xO Dp d), (k + ex - 24).
      split; [reflexivity|]. split; [exact Hb|]. split; [lia|].
      unfold F32.units. rewrite Hm.
      replace (ex + 64) with ((24 - k) + (k + ex - 24 + 64)) by lia.
      rewrite (Z.pow_add_r 2 (24 - k)) by lia. ring.
    + apply digits2_pos_unique. exact Hb.
    + lia.
Qed.

(** The product of two positive normal numbers, away from underflow and
    overflow: the exact product, rounded within one unit in the last
    place. *)
Lemma mul_value (mx : positive) (ex : Z) (my : positive) (ey : Z) :
  2 ^ 23 <= Z.pos mx < 2 ^ 24 -> 2 ^ 23 <= Z.pos my < 2 ^ 24 ->
  -64 <= ex + ey -> ex + ey <= 79 ->
  exists (m' : positive) (e' U : Z),
    SFmul F32.prec F32.emax (S754_finite false mx ex) (S754_finite false my ey)
      = S754_finite false m' e' /\
    2 ^ 23 <= Z.pos m' < 2 ^ 24 /\
    ex + ey + 23 <= e' <= ex + ey + 25 /\
    2 ^ 23 * U <= F32.units (Z.pos mx * Z.pos my) (ex + ey) /\
    F32.units (Z.pos mx * Z.pos my) (ex + ey) - U < F32.units (Z.pos m') e'
      <= F32.units (Z.pos mx * Z.pos my) (ex + ey) + U.
Proof.
  intros Hx Hy Hlo Hhi. cbn [SFmul xorb].
  change (2 ^ 23) with 8388608 in *. change (2 ^ 24) with 16777216 in *.
  assert (HP : 2 ^ 46 <= Z.pos (mx * my) < 2 ^ 48).
  { rewrite Pos2Z.inj_mul. change (2 ^ 46) with (8388608 * 8388608).
    change (2 ^ 48) with (16777216 * 16777216). nia. }
  assert (Hn : exists n, Z.pos (digits2_pos (mx * my)) = n + 24 /\ 23 <= n <= 24).
  { destruct (Z_lt_ge_dec (Z.pos (mx * my)) (2 ^ 47)) as [H|H].
    - exists 23. split; [|lia]. apply digits2_pos_unique.
      change (23 + 24 - 1) with 46. change (23 + 24) with 47. lia.
    - exists 24. split; [|lia]. apply digits2_pos_unique.
      change (24 + 24 - 1) with 47. change (24 + 24) with 48. lia. }
  destruct Hn as (n & Hd & Hn).
  destruct (binary_round_aux_value (mx * my) (ex + ey) loc_Exact n Hd
              ltac:(lia) Hlo ltac:(lia))
    as (m' & e' & U & Hr & Hm & He & HU1 & HU2 & HU3).
  exists m', e', U. rewrite <- Pos2Z.inj_mul.
  split; [exact Hr|]. split; [exact Hm|]. split; [lia|]. split; assumption.
Qed.

(** The quotient of two positive normal numbers, away from underflow and
    overflow: [Q] is the exact quotient rounded down to the working
    precision, and the result is [Q] rounded within one unit in the last
    place. *)
Lemma div_value (mx : positive) (ex : Z) (my : positive) (ey : Z) :
  2 ^ 23 <= Z.pos mx < 2 ^ 24 -> 2 ^ 23 <= Z.pos my < 2 ^ 24 ->
  -40 <= ex - ey -> ex - ey <= 100 ->
  exists (m' : positive) (e' U Q : Z),
    SFdiv F32.prec F32.emax (S754_finite false mx ex) (S754_finite false my ey)
      = S754_finite false m' e' /\
    2 ^ 23 <= Z.pos m' < 2 ^ 24 /\
    ex - ey - 24 <= e' <= ex - ey - 22 /\
    Q * Z.pos my <= F32.units (Z.pos mx) (ex - ey) < (Q + U) * Z.pos my /\
    2 ^ 23 * U <= Q /\
    Q - U < F32.units (Z.pos m') e' <= Q + U.
Proof.
  intros Hx Hy Hlo Hhi. cbn [SFdiv xorb]. unfold SFdiv_core_binary.
  cbn [Zdigits2].
  rewrite (digits2_pos_unique mx 24 Hx), (digits2_pos_unique my 24 Hy).
  rewrite fexp_normal by lia.
  replace (Z.min (24 + ex - (24 + ey) - 24) (ex - ey)) with (ex - ey - 24) by lia.
  replace (ex - ey - (ex - ey - 24)) with 24 by lia.
  rewrite Z.shiftl_mul_pow2 by lia.
  pose proof (Z_div_mod (Z.pos mx * 2 ^ 24) (Z.pos my) ltac:(lia)) as Hdm.
  destruct (Z.div_eucl (Z.pos mx * 2 ^ 24) (Z.pos my)) as [q r].
  destruct Hdm as [Hq Hr].
  change (2 ^ 23) with 8388608 in *. change (2 ^ 24) with 16777216 in *.
  assert (Hqb : 2 ^ 23 <= q < 2 ^ 25).
  { change (2 ^ 23) with 8388608. change (2 ^ 25) with 33554432. nia. }
  destruct q as [|qp|qp]; [lia| |lia].
  assert (Hn : exists n, Z.pos (digits2_pos qp) = n + 24 /\ 0 <= n <= 1).
  { destruct (Z_lt_ge_dec (Z.pos qp) (2 ^ 24)) as [H|H].
    - exists 0. split; [|lia]. apply digits2_pos_unique.
      change (0 + 24 - 1) with 23. change (0 + 24) with 24. lia.
    - exists 1. split; [|lia]. apply digits2_pos_unique.
      change (1 + 24 - 1) with 24. change (1 + 24) with 25. lia. }
  destruct Hn as (n & Hd & Hn).
  destruct (binary_round_aux_value qp (ex - ey - 24)
              (new_location (Z.pos my) r) n Hd
              ltac:(lia) ltac:(lia) ltac:(lia))
    as (m' & e' & U & Hres & Hm & He & HU1 & HU2 & HU3).
  exists m', e', U, (F32.units (Z.pos qp) (ex - ey - 24)).
  split; [exact Hres|]. split; [exact Hm|]. split; [lia|].
  split; [|split; assumption].
  unfold F32.units in *.
  replace (ex - ey + 64) with (24 + (ex - ey - 24 + 64)) by lia.
  rewrite (Z.pow_add_r 2 24) by lia. change (2 ^ 24) with 16777216.
  assert (PG : 0 < 2 ^ (ex - ey - 24 + 64)) by (apply Z.pow_pos_nonneg; lia).
  set (G := 2 ^ (ex - ey - 24 + 64)) in *. clearbody G.
  split.
  - replace (Z.pos mx * (16777216 * G)) with (Z.pos mx * 16777216 * G) by ring.
    replace (Z.pos qp * G * Z.pos my) with (Z.pos qp * Z.pos my * G) by ring.
    apply Zmult_le_compat_r; lia.
  - apply Z.lt_le_trans with ((Z.pos qp * G + G) * Z.pos my).
    + replace (Z.pos mx * (16777216 * G)) with (Z.pos mx * 16777216 * G) by ring.
      replace ((Z.pos qp * G + G) * Z.pos my)
        with ((Z.pos qp + 1) * Z.pos my * G) by ring.
      apply Zmult_lt_compat_r; lia.
    + apply Zmult_le_compat_r; lia.
Qed.

(** ** Conversion to an integer *)

(** The integer part of a positive number below [2 ^ 24]. *)
Lemma truncate_units (m : positive) (e : Z) :
  -64 <= e <= 0 ->
  exists z : Z,
    F32.truncate (S754_finite false m e) = Some z /\
    0 <= z /\
    z * 2 ^ 64 <= F32.units (Z.pos m) e < (z + 1) * 2 ^ 64.
Proof.
  intros He. exists (Z.pos m / 2 ^ (- e)).
  cbn [F32.truncate cond_Zopp]. rewrite Z.shiftl_div_pow2 by lia.
  split; [reflexivity|].
  assert (PA : 0 < 2 ^ (- e)) by (apply Z.pow_pos_nonneg; lia).
  assert (PG : 0 < 2 ^ (e + 64)) by (apply Z.pow_pos_nonneg; lia).
  split; [apply Z.div_pos; lia|].
  unfold F32.units.
  replace (2 ^ 64) with (2 ^ (- e) * 2 ^ (e + 64))
    by (rewrite <- Z.pow_add_r by lia; f_equal; lia).
  pose proof (Z.div_mod (Z.pos m) (2 ^ (- e)) ltac:(lia)) as Hdm.
  pose proof (Z.mod_pos_bound (Z.pos m) (2 ^ (- e)) PA) as Hmod.
  set (A := 2 ^ (- e)) in *. set (G := 2 ^ (e + 64)) in *.
  set (z := Z.pos m / A) in *. set (r := Z.pos m mod A) in *.
  clearbody A G z r.
  split.
  - replace (z * (A * G)) with (z * A * G) by ring.
    apply Zmult_le_compat_r; lia.
  - replace ((z + 1) * (A * G)) with ((z + 1) * A * G) by ring.
    apply Zmult_lt_compat_r; lia.
Qed.

End F32Props.

(* ===================================================================== *)
(** * Properties of the battery monitor *)
(* ===================================================================== *)

Module BatteryProps.

Import EventBus Battery.

(** ** The battery state *)

(** The state computed by a tick is never [error], and never [full]
    either: a percentage of 100 is above 80, so the [high] branch, which
    is tested first, takes it. *)
Lemma next_battery_state_cases (c : bool) (percentage crit low : Z) :
  next_battery_state c percentage crit low <> battery_state.error /\
  next_battery_state c percentage crit low <> battery_state.full.
Proof.
  unfold next_battery_state.
  destruct c; [split; discriminate|].
  destruct (percentage <=? crit); [split; discriminate|].
  destruct (percentage <=? low); [split; discriminate|].
  destruct (percentage >? 80) eqn:E1; [split; discriminate|].
  destruct (percentage >=? 100) eqn:E2; [|split; discriminate].
  exfalso. rewrite Z.gtb_ltb in E1. rewrite Z.geb_leb in E2.
  apply Z.ltb_ge in E1. apply Z.leb_le in E2. lia.
Qed.

Section WithTarget.

Variable invalid_cast : F32.float -> Z.

Lemma step_keeps_not_error (i : input) (m : battery_manager) :
  current_state_ m <> battery_state.error ->
  current_state_ (step invalid_cast i m) <> battery_state.error.
Proof.
  intros H. destruct i as [[r|]|present ev|p|p]; cbn.
  - unfold update_battery_state.
    destruct (check_temperature _ _) as [calls twa]. cbn.
    apply next_battery_state_cases.
  - exact H.
  - unfold on_event. destruct (type ev); exact H.
  - unfold set_low_battery_threshold.
    destruct ((p <? 5) || (p >? 50)); exact H.
  - unfold set_critical_battery_threshold.
    destruct ((p <? 1) || (p >? 20)); exact H.
Qed.

Lemma run_keeps_not_error (inputs : list input) : forall m,
  current_state_ m <> battery_state.error ->
  current_state_ (run invalid_cast inputs m) <> battery_state.error.
Proof.
  unfold run. induction inputs as [|i inputs IH]; intros m H; cbn; [exact H|].
  apply IH, step_keeps_not_error, H.
Qed.

End WithTarget.

(** C9: starting from the constructed manager (state [normal]), after any
    sequence of ticks, received events and threshold settings,
    [get_battery_state()] is one of charging, critical, low, high, full
    and normal, and never [error]. *)
Theorem battery_state_never_error
    (invalid_cast : F32.float -> Z) (low critical : Z) (inputs : list input) :
  get_battery_state (run invalid_cast inputs (new low critical))
    <> battery_state.error /\
  In (get_battery_state (run invalid_cast inputs (new low critical)))
     [battery_state.charging; battery_state.critical; battery_state.low;
      battery_state.high; battery_state.full; battery_state.normal].
Proof.
  unfold get_battery_state.
  assert (H : current_state_ (run invalid_cast inputs (new low critical))
              <> battery_state.error).
  { apply run_keeps_not_error. discriminate. }
  split; [exact H|].
  destruct (current_state_ _); cbn; tauto.
Qed.

(** ** One tick *)

Section Tick.

Variable invalid_cast : F32.float -> Z.

(** The state-change events are not calls of the thermal guard, and the
    calls of the thermal guard publish no state-change event. *)
Lemma thermal_calls_state_change (prev cur : battery_state.t) :
  thermal_calls (state_change_calls prev cur) = [].
Proof.
  unfold state_change_calls.
  destruct (bool_decide (prev <> cur)); [|reflexivity].
  destruct cur; reflexivity.
Qed.

Lemma check_temperature_thermal (t : F32.float) (a : bool) :
  thermal_calls (fst (check_temperature t a)) = fst (check_temperature t a) /\
  state_events (fst (check_temperature t a)) = [].
Proof.
  unfold check_temperature.
  destruct (F32.gt t BATTERY_TEMP_CRITICAL).
  - destruct a; split; reflexivity.
  - destruct (F32.lt t BATTERY_TEMP_WARNING && a); split; reflexivity.
Qed.

Lemma thermal_calls_app (l1 l2 : list call) :
  thermal_calls (l1 ++ l2) = thermal_calls l1 ++ thermal_calls l2.
Proof. apply List.filter_app. Qed.

Lemma state_events_app (l1 l2 : list call) :
  state_events (l1 ++ l2) = state_events l1 ++ state_events l2.
Proof.
  unfold state_events, published. rewrite omap_app. apply List.filter_app.
Qed.

(** What a tick with a device present computes. *)
Lemma update_battery_state_Some (r : reading) (m : battery_manager) :
  let o := update_battery_state invalid_cast (Some r) m in
  current_state_ (fst o)
    = next_battery_state (is_charging r)
        (calculate_percentage invalid_cast (voltage r))
        (critical_battery_threshold_ m) (low_battery_threshold_ m) /\
  low_battery_threshold_ (fst o) = low_battery_threshold_ m /\
  critical_battery_threshold_ (fst o) = critical_battery_threshold_ m /\
  temp_warning_active_ (fst o)
    = snd (check_temperature (temperature r) (temp_warning_active_ m)) /\
  snd o = fst (check_temperature (temperature r) (temp_warning_active_ m))
          ++ state_change_calls (current_state_ m) (current_state_ (fst o)).
Proof.
  unfold update_battery_state.
  destruct (check_temperature _ _) as [calls twa]. cbn. tauto.
Qed.

Lemma update_thermal_calls (r : reading) (m : battery_manager) :
  thermal_calls (snd (update_battery_state invalid_cast (Some r) m))
    = fst (check_temperature (temperature r) (temp_warning_active_ m)).
Proof.
  destruct (update_battery_state_Some r m) as (_ & _ & _ & _ & ->).
  rewrite thermal_calls_app, thermal_calls_state_change, app_nil_r.
  apply check_temperature_thermal.
Qed.

Lemma update_state_events (r : reading) (m : battery_manager) :
  state_events (snd (update_battery_state invalid_cast (Some r) m))
    = state_events
        (state_change_calls (current_state_ m)
           (current_state_ (fst (update_battery_state invalid_cast (Some r) m)))).
Proof.
  destruct (update_battery_state_Some r m) as (_ & _ & _ & _ & ->).
  rewrite state_events_app.
  destruct (check_temperature_thermal (temperature r) (temp_warning_active_ m))
    as [_ ->].
  reflexivity.
Qed.

End Tick.

(** ** The threshold walk of C1 *)

(** A tick on a sample that is not charging, by its percentage. *)
Lemma tick_not_charging (invalid_cast : F32.float -> Z)
    (r : reading) (m : battery_manager) (p : Z) :
  calculate_percentage invalid_cast (voltage r) = p ->
  is_charging r = false ->
  exists m' calls,
    update_battery_state invalid_cast (Some r) m = (m', calls) /\
    current_state_ m'
      = next_battery_state false p
          (critical_battery_threshold_ m) (low_battery_threshold_ m) /\
    low_battery_threshold_ m' = low_battery_threshold_ m /\
    critical_battery_threshold_ m' = critical_battery_threshold_ m /\
    state_events calls
      = state_events (state_change_calls (current_state_ m) (current_state_ m')).
Proof.
  intros Hp Hc.
  pose proof (update_state_events invalid_cast r m) as E.
  destruct (update_battery_state_Some invalid_cast r m) as (S & L & K & _).
  destruct (update_battery_state invalid_cast (Some r) m) as [m' calls].
  cbn [fst snd] in *. rewrite Hp, Hc in S.
  exists m', calls. tauto.
Qed.

(** C1, what the code does: with thresholds low = 20 and critical = 10 and
    five samples, none charging, whose voltages give the percentages
    5, 15, 25, 85 and 100, the states after the ticks are critical, low,
    normal, high and again high (not full), and the state-change events
    are battery_critical, battery_low, battery_normal, battery_normal and
    none for the last tick, which repeats the state. *)
Theorem percentage_walk_states
    (invalid_cast : F32.float -> Z) (r1 r2 r3 r4 r5 : reading) :
  map (fun r => calculate_percentage invalid_cast (voltage r)) [r1; r2; r3; r4; r5]
    = [5; 15; 25; 85; 100] ->
  map is_charging [r1; r2; r3; r4; r5] = [false; false; false; false; false] ->
  let out := ticks invalid_cast (map Some [r1; r2; r3; r4; r5]) (new 20 10) in
  map (fun o => get_battery_state (fst o)) out
    = [battery_state.critical; battery_state.low; battery_state.normal;
       battery_state.high; battery_state.high] /\
  map (fun o => state_events (snd o)) out
    = [[battery_critical]; [battery_low]; [battery_normal]; [battery_normal]; []].
Proof.
  intros Hp Hc. cbn [map] in Hp, Hc.
  injection Hp as P1 P2 P3 P4 P5. injection Hc as C1 C2 C3 C4 C5.
  cbn [map ticks]. unfold get_battery_state.
  destruct (tick_not_charging invalid_cast r1 (new 20 10) 5 P1 C1)
    as (m1 & c1 & -> & S1 & L1 & K1 & E1).
  cbn [fst snd] in *.
  destruct (tick_not_charging invalid_cast r2 m1 15 P2 C2)
    as (m2 & c2 & -> & S2 & L2 & K2 & E2).
  cbn [fst snd] in *.
  destruct (tick_not_charging invalid_cast r3 m2 25 P3 C3)
    as (m3 & c3 & -> & S3 & L3 & K3 & E3).
  cbn [fst snd] in *.
  destruct (tick_not_charging invalid_cast r4 m3 85 P4 C4)
    as (m4 & c4 & -> & S4 & L4 & K4 & E4).
  cbn [fst snd] in *.
  destruct (tick_not_charging invalid_cast r5 m4 100 P5 C5)
    as (m5 & c5 & -> & S5 & L5 & K5 & E5).
  cbn [fst snd] in *.
  rewrite L4, L3, L2, L1, K4, K3, K2, K1 in S5.
  rewrite L3, L2, L1, K3, K2, K1 in S4.
  rewrite L2, L1, K2, K1 in S3.
  rewrite L1, K1 in S2.
  cbn in S1, S2, S3, S4, S5.
  rewrite E1, E2, E3, E4, E5, S1, S2, S3, S4, S5.
  split; reflexivity.
Qed.

Lemma percentage_walk_states_witness :
  let rs := map walk_sample [307; 319; 331; 403; 420] in
  let out := ticks (fun _ => 0) (map Some rs) (new 20 10) in
  map (fun r => calculate_percentage (fun _ => 0) (voltage r)) rs
    = [5; 15; 25; 85; 100] /\
  map (fun o => get_battery_state (fst o)) out
    = [battery_state.critical; battery_state.low; battery_state.normal;
       battery_state.high; battery_state.high] /\
  map (fun o => state_events (snd o)) out
    = [[battery_critical]; [battery_low]; [battery_normal]; [battery_normal]; []].
Proof.
  split; [vm_compute; reflexivity|].
  apply (percentage_walk_states (fun _ => 0)
           (walk_sample 307) (walk_sample 319) (walk_sample 331)
           (walk_sample 403) (walk_sample 420)).
  - vm_compute. reflexivity.
  - reflexivity.
Defined.

(** ** The thermal guard *)

(** 45.0f and 55.0f as binary32 numbers. *)
Lemma BATTERY_TEMP_WARNING_bits :
  BATTERY_TEMP_WARNING = S754_finite false 11796480 (-18).
Proof. reflexivity. Qed.

Lemma BATTERY_TEMP_CRITICAL_bits :
  BATTERY_TEMP_CRITICAL = S754_finite false 14417920 (-18).
Proof. reflexivity. Qed.

(** A temperature below the warning threshold is not above the critical
    one. *)
Lemma below_warning_not_above_critical (t : F32.float) :
  F32.lt t BATTERY_TEMP_WARNING = true ->
  F32.gt t BATTERY_TEMP_CRITICAL = false.
Proof.
  unfold F32.lt, F32.gt.
  rewrite BATTERY_TEMP_WARNING_bits, BATTERY_TEMP_CRITICAL_bits.
  destruct t as [s|s| |s m e].
  - destruct s; reflexivity.
  - destruct s; [reflexivity|discriminate].
  - discriminate.
  - destruct s; [reflexivity|].
    intros H. apply F32Props.ltb_finite_pos in H.
    apply F32Props.ltb_finite_pos_false. lia.
Qed.

Section Thermal.

Variable invalid_cast : F32.float -> Z.

(** The guard trips: armed, and the temperature above critical. *)
Lemma check_temperature_trip (t : F32.float) :
  F32.gt t BATTERY_TEMP_CRITICAL = true ->
  check_temperature t false
    = ([device_disable_charging; bus_publish (event battery_temp_high)], true).
Proof. unfold check_temperature. intros ->. reflexivity. Qed.

(** The guard has tripped and the temperature is not below the warning
    threshold: charging is disabled again when the temperature is above
    critical, and nothing else happens. *)
Lemma check_temperature_hold (t : F32.float) :
  F32.lt t BATTERY_TEMP_WARNING = false ->
  check_temperature t true
    = (if F32.gt t BATTERY_TEMP_CRITICAL then [device_disable_charging] else [],
       true).
Proof.
  unfold check_temperature. intros ->.
  destruct (F32.gt t BATTERY_TEMP_CRITICAL); reflexivity.
Qed.

(** The guard resets: tripped, and the temperature below warning. *)
Lemma check_temperature_reset (t : F32.float) :
  F32.lt t BATTERY_TEMP_WARNING = true ->
  check_temperature t true
    = ([device_enable_charging; bus_publish (event battery_temp_normal)], false).
Proof.
  intros H. unfold check_temperature.
  rewrite (below_warning_not_above_critical t H), H. reflexivity.
Qed.

(** No state-change call is a call of the thermal guard. *)
Lemma state_change_calls_not_thermal (prev cur : battery_state.t) (c : call) :
  is_thermal_call c = true -> ~ In c (state_change_calls prev cur).
Proof.
  intros Hc Hin.
  assert (H : In c (thermal_calls (state_change_calls prev cur))).
  { unfold thermal_calls. apply filter_In. split; assumption. }
  rewrite thermal_calls_state_change in H. exact H.
Qed.

(** The calls of the tick that trips the guard. *)
Lemma trip_calls (r : reading) (m : battery_manager) :
  temp_warning_active_ m = false ->
  F32.gt (temperature r) BATTERY_TEMP_CRITICAL = true ->
  exists rest,
    snd (update_battery_state invalid_cast (Some r) m)
      = device_disable_charging :: bus_publish (event battery_temp_high) :: rest /\
    ~ In device_disable_charging rest /\
    ~ In (bus_publish (event battery_temp_high)) rest.
Proof.
  intros Ha Ht.
  destruct (update_battery_state_Some invalid_cast r m) as (_ & _ & _ & _ & ->).
  rewrite Ha, (check_temperature_trip _ Ht). cbn [fst app].
  eexists. split; [reflexivity|].
  split; apply state_change_calls_not_thermal; reflexivity.
Qed.

End Thermal.

(** Counting a call in a list of calls. *)
Lemma count_call_cons (c x : call) (cs : list call) :
  count_call c (x :: cs)
    = ((if bool_decide (x = c) then 1 else 0) + count_call c cs)%nat.
Proof.
  unfold count_call. cbn [List.filter].
  destruct (bool_decide (x = c)); reflexivity.
Qed.

Lemma count_call_app (c : call) (l1 l2 : list call) :
  count_call c (l1 ++ l2) = (count_call c l1 + count_call c l2)%nat.
Proof. unfold count_call. rewrite List.filter_app. apply length_app. Qed.

Lemma count_call_not_In (c : call) (cs : list call) :
  ~ In c cs -> count_call c cs = 0%nat.
Proof.
  induction cs as [|x cs IH]; intros H; [reflexivity|].
  rewrite count_call_cons, IH.
  - rewrite bool_decide_eq_false_2; [reflexivity|].
    intros ->. apply H. left. reflexivity.
  - intros Hin. apply H. right. exact Hin.
Qed.

(** In a list that starts with [a], then [b], and has no further [a],
    [a] comes before [b] and [b] does not come before [a]. *)
Lemma occurs_before_head (a b : call) (rest : list call) :
  a <> b -> ~ In a rest ->
  occurs_before a b (a :: b :: rest) /\
  ~ occurs_before b a (a :: b :: rest).
Proof.
  intros Hab Ha. split.
  - exists [], [], rest. reflexivity.
  - intros (l1 & l2 & l3 & H).
    destruct l1 as [|x l1]; cbn in H.
    + injection H as H _. contradiction.
    + injection H as _ H.
      assert (Hin : In a (b :: rest)).
      { rewrite H. apply in_or_app. right. right.
        apply in_or_app. right. left. reflexivity. }
      destruct Hin as [Hin|Hin]; [congruence|contradiction].
Qed.

(** C5 (as amended): in the tick that trips the thermal guard, the
    manager calls [disable_charging()] on the device first and publishes
    battery_temp_high after it, each exactly once; the event is never
    published before charging is disabled. *)
Theorem thermal_trip_disables_before_publishing
    (invalid_cast : F32.float -> Z) (r : reading) (m : battery_manager) :
  temp_warning_active_ m = false ->
  F32.gt (temperature r) BATTERY_TEMP_CRITICAL = true ->
  let calls := snd (update_battery_state invalid_cast (Some r) m) in
  occurs_before device_disable_charging
                (bus_publish (event battery_temp_high)) calls /\
  ~ occurs_before (bus_publish (event battery_temp_high))
                  device_disable_charging calls /\
  count_call device_disable_charging calls = 1%nat /\
  count_call (bus_publish (event battery_temp_high)) calls = 1%nat.
Proof.
  intros Ha Ht calls. subst calls.
  destruct (trip_calls invalid_cast r m Ha Ht) as (rest & -> & H1 & H2).
  destruct (occurs_before_head device_disable_charging
              (bus_publish (event battery_temp_high)) rest
              ltac:(discriminate) H1) as [B1 B2].
  split; [exact B1|]. split; [exact B2|].
  rewrite !count_call_cons, (count_call_not_In _ _ H1), (count_call_not_In _ _ H2).
  split; reflexivity.
Qed.

Lemma thermal_trip_disables_before_publishing_witness :
  let calls := snd (update_battery_state (fun _ => 0) (Some (sample_at 60)) (new 20 10)) in
  calls = [device_disable_charging; bus_publish (event battery_temp_high)] /\
  occurs_before device_disable_charging
                (bus_publish (event battery_temp_high)) calls /\
  ~ occurs_before (bus_publish (event battery_temp_high))
                  device_disable_charging calls /\
  count_call device_disable_charging calls = 1%nat /\
  count_call (bus_publish (event battery_temp_high)) calls = 1%nat.
Proof.
  split; [vm_compute; reflexivity|].
  apply (thermal_trip_disables_before_publishing (fun _ => 0) (sample_at 60) (new 20 10)).
  - reflexivity.
  - vm_compute. reflexivity.
Defined.

(** C5 as stated fails: in the tick at 60 C on a freshly constructed
    manager the calls are [disable_charging()] and then the publication
    of battery_temp_high; the event is not published before charging is
    disabled. *)
Lemma temp_high_not_published_before_disable :
  let calls := snd (update_battery_state (fun _ => 0) (Some (sample_at 60)) (new 20 10)) in
  calls = [device_disable_charging; bus_publish (event battery_temp_high)] /\
  ~ occurs_before (bus_publish (event battery_temp_high))
                  device_disable_charging calls.
Proof.
  split; [vm_compute; reflexivity|].
  change (snd (update_battery_state (fun _ => 0) (Some (sample_at 60)) (new 20 10)))
    with [device_disable_charging; bus_publish (event battery_temp_high)].
  apply occurs_before_head; [discriminate|intros []].
Qed.

(** ** A thermal excursion *)

Section Excursion.

Variable invalid_cast : F32.float -> Z.

Lemma ticks_app (rs1 rs2 : list (option reading)) : forall m,
  ticks invalid_cast (rs1 ++ rs2) m
    = ticks invalid_cast rs1 m
      ++ ticks invalid_cast rs2 (after_ticks invalid_cast rs1 m).
Proof.
  induction rs1 as [|r rs1 IH]; intros m; [reflexivity|].
  cbn [app ticks after_ticks]. rewrite IH. reflexivity.
Qed.

Lemma after_ticks_app (rs1 rs2 : list (option reading)) : forall m,
  after_ticks invalid_cast (rs1 ++ rs2) m
    = after_ticks invalid_cast rs2 (after_ticks invalid_cast rs1 m).
Proof.
  induction rs1 as [|r rs1 IH]; intros m; [reflexivity|].
  cbn [app after_ticks]. apply IH.
Qed.

(** While the temperature stays at or above the warning threshold, a
    tripped guard stays tripped and only repeats the disabling. *)
Lemma hold_ticks (rs : list reading) : forall m,
  temp_warning_active_ m = true ->
  Forall (fun r => F32.lt (temperature r) BATTERY_TEMP_WARNING = false) rs ->
  map (fun o => thermal_calls (snd o)) (ticks invalid_cast (map Some rs) m)
    = map hold_calls rs /\
  temp_warning_active_ (after_ticks invalid_cast (map Some rs) m) = true.
Proof.
  induction rs as [|r rs IH]; intros m Ha Hrs; [split; [reflexivity|exact Ha]|].
  apply Forall_cons_1 in Hrs. destruct Hrs as [Hr Hrs].
  cbn [map ticks after_ticks].
  destruct (update_battery_state_Some invalid_cast r m) as (_ & _ & _ & Hw & _).
  rewrite Ha, (check_temperature_hold _ Hr) in Hw. cbn [snd] in Hw.
  specialize (IH _ Hw Hrs). destruct IH as [IH1 IH2].
  split; [|exact IH2].
  rewrite IH1, update_thermal_calls, Ha, (check_temperature_hold _ Hr).
  reflexivity.
Qed.

(** The calls of the guard, tick by tick, over one excursion: the tick
    that trips it, the ticks at or above the warning threshold, and the
    tick below the warning threshold that ends it. *)
Lemma excursion_thermal_calls (m : battery_manager)
    (r0 : reading) (rs : list reading) (r_end : reading) :
  temp_warning_active_ m = false ->
  F32.gt (temperature r0) BATTERY_TEMP_CRITICAL = true ->
  Forall (fun r => F32.lt (temperature r) BATTERY_TEMP_WARNING = false) rs ->
  F32.lt (temperature r_end) BATTERY_TEMP_WARNING = true ->
  let out := ticks invalid_cast (map Some (r0 :: rs ++ [r_end])) m in
  map (fun o => thermal_calls (snd o)) out
    = [device_disable_charging; bus_publish (event battery_temp_high)]
      :: map hold_calls rs
      ++ [[device_enable_charging; bus_publish (event battery_temp_normal)]] /\
  temp_warning_active_
    (after_ticks invalid_cast (map Some (r0 :: rs ++ [r_end])) m) = false.
Proof.
  intros Ha H0 Hrs Hend out. subst out.
  cbn [map ticks after_ticks].
  destruct (update_battery_state_Some invalid_cast r0 m) as (_ & _ & _ & Hw & _).
  rewrite Ha, (check_temperature_trip _ H0) in Hw. cbn [snd] in Hw.
  rewrite update_thermal_calls, Ha, (check_temperature_trip _ H0). cbn [fst].
  set (m1 := (update_battery_state invalid_cast (Some r0) m).1) in *.
  rewrite map_app, ticks_app, after_ticks_app. cbn [map ticks after_ticks].
  destruct (hold_ticks rs m1 Hw Hrs) as [T1 T2].
  set (m2 := after_ticks invalid_cast (map Some rs) m1) in *.
  destruct (update_battery_state_Some invalid_cast r_end m2) as (_ & _ & _ & Hw2 & _).
  rewrite T2, (check_temperature_reset _ Hend) in Hw2. cbn [snd] in Hw2.
  split.
  - rewrite map_app, T1. cbn [map].
    rewrite update_thermal_calls, T2, (check_temperature_reset _ Hend).
    reflexivity.
  - exact Hw2.
Qed.

End Excursion.

(** Counting a guard call over a run is counting it in the guard's calls. *)
Lemma count_call_thermal (c : call) (cs : list call) :
  is_thermal_call c = true ->
  count_call c cs = count_call c (thermal_calls cs).
Proof.
  intros Hc. unfold count_call, thermal_calls.
  induction cs as [|x cs IH]; [reflexivity|].
  cbn [List.filter].
  destruct (bool_decide (x = c)) eqn:E.
  - apply bool_decide_eq_true_1 in E. subst x. rewrite Hc.
    cbn [List.filter length]. rewrite bool_decide_eq_true_2 by reflexivity.
    cbn [length]. f_equal. exact IH.
  - destruct (is_thermal_call x); [|exact IH].
    cbn [List.filter]. rewrite E. exact IH.
Qed.

Lemma thermal_calls_all (out : list (battery_manager * list call)) :
  thermal_calls (all_calls out)
    = concat (map (fun o => thermal_calls (snd o)) out).
Proof.
  unfold all_calls. induction out as [|o out IH]; [reflexivity|].
  cbn [map concat]. rewrite thermal_calls_app, IH. reflexivity.
Qed.

Lemma count_call_hold (c : call) (rs : list reading) :
  count_call c (concat (map hold_calls rs))
    = if bool_decide (c = device_disable_charging)
      then length (List.filter
                     (fun r => F32.gt (temperature r) BATTERY_TEMP_CRITICAL) rs)
      else 0%nat.
Proof.
  induction rs as [|r rs IH].
  - destruct (bool_decide _); reflexivity.
  - cbn [map concat List.filter]. rewrite count_call_app, IH.
    unfold hold_calls.
    destruct (F32.gt (temperature r) BATTERY_TEMP_CRITICAL).
    + rewrite count_call_cons. cbn [count_call List.filter length].
      rewrite (bool_decide_ext (device_disable_charging = c)
                 (c = device_disable_charging)) by (split; congruence).
      destruct (bool_decide (c = device_disable_charging)); reflexivity.
    + reflexivity.
Qed.

(** C2 (as amended): over one excursion (a tick above the critical
    threshold on an armed guard, then ticks that stay at or above the
    warning threshold, then a tick below the warning threshold), the
    guard's calls are, tick by tick: [disable_charging()] and the
    battery_temp_high event in the first tick; [disable_charging()] alone
    in every later tick that is still above critical and nothing in the
    others; [enable_charging()] and the battery_temp_normal event in the
    last tick.  So battery_temp_high, [enable_charging()] and
    battery_temp_normal each occur exactly once, and [disable_charging()]
    once per tick above critical; afterwards the guard is armed again. *)
Theorem thermal_excursion
    (invalid_cast : F32.float -> Z) (m : battery_manager)
    (r0 : reading) (rs : list reading) (r_end : reading) :
  temp_warning_active_ m = false ->
  F32.gt (temperature r0) BATTERY_TEMP_CRITICAL = true ->
  Forall (fun r => F32.lt (temperature r) BATTERY_TEMP_WARNING = false) rs ->
  F32.lt (temperature r_end) BATTERY_TEMP_WARNING = true ->
  let out := ticks invalid_cast (map Some (r0 :: rs ++ [r_end])) m in
  map (fun o => thermal_calls (snd o)) out
    = [device_disable_charging; bus_publish (event battery_temp_high)]
      :: map hold_calls rs
      ++ [[device_enable_charging; bus_publish (event battery_temp_normal)]] /\
  count_call (bus_publish (event battery_temp_high)) (all_calls out) = 1%nat /\
  count_call (bus_publish (event battery_temp_normal)) (all_calls out) = 1%nat /\
  count_call device_enable_charging (all_calls out) = 1%nat /\
  count_call device_disable_charging (all_calls out)
    = S (length (List.filter
                   (fun r => F32.gt (temperature r) BATTERY_TEMP_CRITICAL) rs)) /\
  temp_warning_active_
    (after_ticks invalid_cast (map Some (r0 :: rs ++ [r_end])) m) = false.
Proof.
  intros Ha H0 Hrs Hend out.
  destruct (excursion_thermal_calls invalid_cast m r0 rs r_end Ha H0 Hrs Hend)
    as [Hc Hf].
  fold out in Hc.
  split; [exact Hc|].
  rewrite !(count_call_thermal _ (all_calls out)) by reflexivity.
  rewrite thermal_calls_all, Hc.
  cbn [concat]. rewrite concat_app. cbn [concat app].
  rewrite !count_call_cons, !count_call_app, !count_call_hold, !count_call_cons.
  repeat match goal with
         | |- context [bool_decide (?a = ?b)] =>
             first [ rewrite (bool_decide_eq_false_2 (a = b)) by discriminate
                   | rewrite (bool_decide_eq_true_2 (a = b)) by reflexivity ]
         end.
  unfold count_call. cbn [List.filter length].
  repeat split; try exact Hf; lia.
Qed.

(** An excursion of four ticks on a freshly constructed manager: 60 C,
    60 C, 50 C and 40 C. *)
Lemma thermal_excursion_witness :
  let out := ticks (fun _ => 0)
               (map Some (sample_at 60 :: [sample_at 60; sample_at 50] ++ [sample_at 40]))
               (new 20 10) in
  map (fun o => thermal_calls (snd o)) out
    = [[device_disable_charging; bus_publish (event battery_temp_high)];
       [device_disable_charging];
       [];
       [device_enable_charging; bus_publish (event battery_temp_normal)]] /\
  count_call (bus_publish (event battery_temp_high)) (all_calls out) = 1%nat /\
  count_call (bus_publish (event battery_temp_normal)) (all_calls out) = 1%nat /\
  count_call device_enable_charging (all_calls out) = 1%nat /\
  count_call device_disable_charging (all_calls out) = 2%nat /\
  temp_warning_active_
    (after_ticks (fun _ => 0)
       (map Some (sample_at 60 :: [sample_at 60; sample_at 50] ++ [sample_at 40]))
       (new 20 10)) = false.
Proof.
  apply (thermal_excursion (fun _ => 0) (new 20 10)
           (sample_at 60) [sample_at 60; sample_at 50] (sample_at 40)).
  - reflexivity.
  - vm_compute. reflexivity.
  - repeat constructor.
  - vm_compute. reflexivity.
Defined.

(** C2 as stated fails: in the excursion 60 C, 60 C, 40 C on a freshly
    constructed manager, the second tick, still above critical, calls
    [disable_charging()] again; charging is disabled twice, not once. *)
Lemma charging_disabled_again_while_hot :
  let out := ticks (fun _ => 0)
               (map Some [sample_at 60; sample_at 60; sample_at 40])
               (new 20 10) in
  map snd out
    = [[device_disable_charging; bus_publish (event battery_temp_high)];
       [device_disable_charging];
       [device_enable_charging; bus_publish (event battery_temp_normal)]] /\
  count_call device_disable_charging (all_calls out) = 2%nat.
Proof. vm_compute. split; reflexivity. Qed.

(** ** The charge percentage *)

(** The constants of [calculate_percentage] as binary32 numbers: 3.0f,
    4.2f (the [float] nearest to 4.2, a little below it), 100.0f, and the
    difference 4.2f - 3.0f, which is exact. *)
Lemma BATTERY_MIN_VOLTAGE_bits :
  BATTERY_MIN_VOLTAGE = S754_finite false 12582912 (-22).
Proof. reflexivity. Qed.

Lemma BATTERY_MAX_VOLTAGE_bits :
  BATTERY_MAX_VOLTAGE = S754_finite false 8808038 (-21).
Proof. reflexivity. Qed.

Lemma hundred_bits : F32.of_int 100 = S754_finite false 13107200 (-17).
Proof. reflexivity. Qed.

Lemma voltage_span_bits :
  F32.sub BATTERY_MAX_VOLTAGE BATTERY_MIN_VOLTAGE
    = S754_finite false 10066328 (-23).
Proof. reflexivity. Qed.

(** The voltages strictly between the bounds: the numbers above 3.0f with
    exponent -22, and the numbers below 4.2f with exponent -21. *)
Lemma between_bounds (v : F32.float) :
  valid_binary F32.prec F32.emax v = true ->
  v <> S754_nan ->
  F32.le v BATTERY_MIN_VOLTAGE = false ->
  F32.ge v BATTERY_MAX_VOLTAGE = false ->
  exists (m : positive) (e : Z),
    v = S754_finite false m e /\
    ((e = -22 /\ 12582912 < Z.pos m < 16777216) \/
     (e = -21 /\ 8388608 <= Z.pos m < 8808038)).
Proof.
  unfold F32.le, F32.ge.
  rewrite BATTERY_MIN_VOLTAGE_bits, BATTERY_MAX_VOLTAGE_bits.
  intros Hv Hn Hlo Hhi.
  destruct v as [s|s| |s m e].
  - destruct s; discriminate Hlo.
  - destruct s; [discriminate Hlo|discriminate Hhi].
  - contradiction.
  - destruct s; [discriminate Hlo|].
    exists m, e. split; [reflexivity|].
    assert (L : ~ (e < -22 \/ (e = -22 /\ Z.pos m <= 12582912))).
    { intros H. apply F32Props.leb_finite_pos in H. congruence. }
    assert (H : ~ (-21 < e \/ (-21 = e /\ 8808038 <= Z.pos m))).
    { intros H. apply F32Props.leb_finite_pos in H. congruence. }
    cbn [valid_binary] in Hv. unfold bounded, canonical_mantissa in Hv.
    apply andb_prop in Hv. destruct Hv as [Hc _].
    apply Z.eqb_eq in Hc.
    assert (He : e = -22 \/ e = -21) by lia.
    rewrite F32Props.fexp_normal in Hc by lia.
    pose proof (F32Props.digits2_pos_bounds m) as B.
    replace (Z.pos (digits2_pos m)) with 24 in B by lia.
    change (2 ^ (24 - 1)) with 8388608 in B. change (2 ^ 24) with 16777216 in B.
    lia.
Qed.

(** Multiplying by 100.0f and dividing by the span, on the values. *)
Lemma units_times_hundred (a e : Z) :
  -47 <= e ->
  F32.units (a * 13107200) (e + -17) = 100 * F32.units a e.
Proof.
  intros He. unfold F32.units.
  replace (e + 64) with (17 + (e + -17 + 64)) by lia.
  rewrite (Z.pow_add_r 2 17) by lia. change (2 ^ 17) with 131072. ring.
Qed.

Lemma units_over_span (a e : Z) :
  -64 <= e ->
  F32.units a (e - -23) = 8388608 * F32.units a e.
Proof.
  intros He. unfold F32.units.
  replace (e - -23 + 64) with (23 + (e + 64)) by lia.
  rewrite (Z.pow_add_r 2 23) by lia. change (2 ^ 23) with 8388608. ring.
Qed.

(** The middle branch of [calculate_percentage], for a voltage that is
    [D] units of [2 ^ -22] volt above 3.0f: the exact linear map gives
    [200 * D / 10066328]; the code's result [p] is at most 99, at most
    [2 ^ -14] above the exact value and less than [1 + 2 ^ -14] below. *)
Lemma percentage_of_excess (invalid_cast : F32.float -> Z) (D : Z) :
  1 <= D <= 5033162 ->
  exists p : Z,
    F32.to_int invalid_cast
      (F32.div (F32.mul (binary_normalize F32.prec F32.emax D (-22) false)
                        (F32.of_int 100))
               (F32.sub BATTERY_MAX_VOLTAGE BATTERY_MIN_VOLTAGE)) = p /\
    0 <= p <= 99 /\
    p * 10066328 * 16384 <= 200 * D * 16384 + 10066328 /\
    200 * D * 16384 < (p + 1) * 10066328 * 16384 + 10066328.
Proof.
  intros HD.
  destruct (F32Props.binary_normalize_exact D (-22)) as (md & ed & -> & Hmd & Hed & Vd);
    [change (2 ^ 24) with 16777216; lia|lia|].
  unfold F32.units at 2 in Vd. change (2 ^ (-22 + 64)) with 4398046511104 in Vd.
  rewrite hundred_bits, voltage_span_bits. unfold F32.mul, F32.div.
  destruct (F32Props.mul_value md ed 13107200 (-17) Hmd) as
    (mp & ep & Up & -> & Hmp & Hep & Up1 & Vp);
    [change (2 ^ 23) with 8388608; change (2 ^ 24) with 16777216; lia|lia|lia|].
  change (Z.pos 13107200) with 13107200 in *.
  rewrite units_times_hundred in Up1, Vp by lia.
  destruct (F32Props.div_value mp ep 10066328 (-23) Hmp) as
    (mq & eq & Uq & Q & -> & Hmq & Heq & VQ & Uq1 & Vq);
    [change (2 ^ 23) with 8388608; change (2 ^ 24) with 16777216; lia|lia|lia|].
  rewrite units_over_span in VQ by lia.
  destruct (F32Props.truncate_units mq eq) as (z & Hz & Hz0 & Vz); [lia|].
  change (2 ^ 64) with 18446744073709551616 in Vz.
  change (2 ^ 23) with 8388608 in *.
  set (sd := F32.units (Z.pos md) ed) in *.
  set (sp := F32.units (Z.pos mp) ep) in *.
  set (sq := F32.units (Z.pos mq) eq) in *.
  clearbody sd sp sq.
  assert (Hp : 0 <= z <= 99 /\
               z * 10066328 * 16384 <= 200 * D * 16384 + 10066328 /\
               200 * D * 16384 < (z + 1) * 10066328 * 16384 + 10066328).
  { clear Hz Hmd Hmp Hmq Hed Hep Heq. subst sd. lia. }
  exists z. split; [|exact Hp].
  unfold F32.to_int. rewrite Hz.
  replace ((F32.INT_MIN <=? z) && (z <=? F32.INT_MAX)) with true; [reflexivity|].
  symmetry. apply andb_true_intro. unfold F32.INT_MIN, F32.INT_MAX.
  split; apply Z.leb_le; lia.
Qed.

(** The exact linear map at a voltage [D] units of [2 ^ -22] volt above
    3.0f is [200 * D / 10066328]. *)
Lemma linear_map_exponent_22 (m : positive) :
  (linear_map (F32.to_Q (S754_finite false m (-22)))
   == (200 * (Z.pos m - 12582912)) # 10066328)%Q.
Proof.
  unfold linear_map.
  change (F32.to_Q BATTERY_MAX_VOLTAGE) with (8808038 # 2097152)%Q.
  change (F32.to_Q BATTERY_MIN_VOLTAGE) with (12582912 # 4194304)%Q.
  unfold F32.to_Q. cbn [cond_Zopp].
  change (2 ^ Z.max (-22) 0) with 1%Z.
  change (Z.to_pos (2 ^ Z.max (- -22) 0)) with 4194304%positive.
  change ((8808038 # 2097152) - (12582912 # 4194304))%Q
    with (10555309948928 # 8796093022208)%Q.
  unfold Qeq, Qdiv, Qmult, Qminus, Qplus, Qopp, Qinv, inject_Z.
  cbn [Qnum Qden]. lia.
Qed.

Lemma linear_map_exponent_21 (m : positive) :
  (linear_map (F32.to_Q (S754_finite false m (-21)))
   == (200 * (2 * Z.pos m - 12582912)) # 10066328)%Q.
Proof.
  unfold linear_map.
  change (F32.to_Q BATTERY_MAX_VOLTAGE) with (8808038 # 2097152)%Q.
  change (F32.to_Q BATTERY_MIN_VOLTAGE) with (12582912 # 4194304)%Q.
  unfold F32.to_Q. cbn [cond_Zopp].
  change (2 ^ Z.max (-21) 0) with 1%Z.
  change (Z.to_pos (2 ^ Z.max (- -21) 0)) with 2097152%positive.
  change ((8808038 # 2097152) - (12582912 # 4194304))%Q
    with (10555309948928 # 8796093022208)%Q.
  unfold Qeq, Qdiv, Qmult, Qminus, Qplus, Qopp, Qinv, inject_Z.
  cbn [Qnum Qden]. lia.
Qed.

(** The integer bounds of [percentage_of_excess], read as rationals. *)
Lemma excess_bounds_Q (p D : Z) :
  p * 10066328 * 16384 <= 200 * D * 16384 + 10066328 ->
  200 * D * 16384 < (p + 1) * 10066328 * 16384 + 10066328 ->
  (inject_Z p <= ((200 * D) # 10066328) + rounding_tolerance)%Q /\
  (((200 * D) # 10066328) - 1 - rounding_tolerance < inject_Z p)%Q.
Proof.
  intros H1 H2.
  unfold rounding_tolerance, Qle, Qlt, Qminus, Qplus, Qopp, inject_Z.
  cbn [Qnum Qden]. split; lia.
Qed.

(** A voltage strictly between the bounds takes the middle branch, on an
    excess [D] over 3.0f that the subtraction computes exactly. *)
Lemma calculate_percentage_between (invalid_cast : F32.float -> Z) (v : F32.float) :
  valid_binary F32.prec F32.emax v = true ->
  v <> S754_nan ->
  F32.le v BATTERY_MIN_VOLTAGE = false ->
  F32.ge v BATTERY_MAX_VOLTAGE = false ->
  exists D : Z,
    1 <= D <= 5033162 /\
    (linear_map (F32.to_Q v) == (200 * D) # 10066328)%Q /\
    calculate_percentage invalid_cast v
      = F32.to_int invalid_cast
          (F32.div (F32.mul (binary_normalize F32.prec F32.emax D (-22) false)
                            (F32.of_int 100))
                   (F32.sub BATTERY_MAX_VOLTAGE BATTERY_MIN_VOLTAGE)).
Proof.
  intros Hv Hn Hlo Hhi.
  unfold calculate_percentage. rewrite Hlo, Hhi.
  destruct (between_bounds v Hv Hn Hlo Hhi) as (m & e & -> & [[-> Hm]|[-> Hm]]).
  - exists (Z.pos m - 12582912).
    split; [lia|]. split; [apply linear_map_exponent_22|].
    reflexivity.
  - exists (2 * Z.pos m - 12582912).
    split; [lia|]. split; [apply linear_map_exponent_21|].
    reflexivity.
Qed.

(** At or above the full bound a voltage is not at or below the empty
    one. *)
Lemma full_not_empty (v : F32.float) :
  F32.ge v BATTERY_MAX_VOLTAGE = true ->
  F32.le v BATTERY_MIN_VOLTAGE = false.
Proof.
  unfold F32.le, F32.ge.
  rewrite BATTERY_MIN_VOLTAGE_bits, BATTERY_MAX_VOLTAGE_bits.
  destruct v as [s|s| |s m e].
  - discriminate.
  - destruct s; [discriminate|reflexivity].
  - discriminate.
  - destruct s; [discriminate|].
    intros H. apply F32Props.leb_finite_pos in H.
    destruct (SFleb (S754_finite false m e) (S754_finite false 12582912 (-22)))
      eqn:E; [|reflexivity].
    apply F32Props.leb_finite_pos in E. lia.
Qed.

(** ** The linear map and its clamping, in exact arithmetic *)

Lemma to_Q_MIN : F32.to_Q BATTERY_MIN_VOLTAGE = (12582912 # 4194304)%Q.
Proof. reflexivity. Qed.

Lemma to_Q_MAX : F32.to_Q BATTERY_MAX_VOLTAGE = (8808038 # 2097152)%Q.
Proof. reflexivity. Qed.

Lemma linear_map_unfold (y : Q) :
  linear_map y
    = ((y - (12582912 # 4194304)) * 100
       * (8796093022208 # 10555309948928))%Q.
Proof. reflexivity. Qed.

Lemma linear_map_at_most_empty (y : Q) :
  (y <= F32.to_Q BATTERY_MIN_VOLTAGE)%Q -> (linear_map y <= 0)%Q.
Proof. rewrite to_Q_MIN, linear_map_unfold. intros H. lra. Qed.

Lemma linear_map_at_least_full (y : Q) :
  (F32.to_Q BATTERY_MAX_VOLTAGE <= y)%Q -> (100 <= linear_map y)%Q.
Proof. rewrite to_Q_MAX, linear_map_unfold. intros H. lra. Qed.

Lemma clamped_below (y : Q) :
  (linear_map y <= 0)%Q -> (clamped_linear_map y == 0)%Q.
Proof.
  intros H. unfold clamped_linear_map.
  rewrite Q.min_r by lra. rewrite Q.max_l by exact H. reflexivity.
Qed.

Lemma clamped_above (y : Q) :
  (100 <= linear_map y)%Q -> (clamped_linear_map y == 100)%Q.
Proof.
  intros H. unfold clamped_linear_map.
  rewrite Q.min_l by exact H. rewrite Q.max_r by lra. reflexivity.
Qed.

Lemma clamped_inside (y : Q) :
  (0 <= linear_map y <= 100)%Q -> (clamped_linear_map y == linear_map y)%Q.
Proof.
  intros [H1 H2]. unfold clamped_linear_map.
  rewrite Q.min_r by exact H2. rewrite Q.max_r by exact H1. reflexivity.
Qed.

(** A value of type [float] has at most 24 digits, and exactly 24 unless
    it is subnormal. *)
Lemma valid_mantissa (s : bool) (m : positive) (e : Z) :
  valid_binary F32.prec F32.emax (S754_finite s m e) = true ->
  Z.pos m < 2 ^ 24 /\ (-149 < e -> 2 ^ 23 <= Z.pos m).
Proof.
  cbn [valid_binary]. unfold bounded, canonical_mantissa. intros H.
  apply andb_prop in H. destruct H as [H _]. apply Z.eqb_eq in H.
  unfold fexp, SpecFloat.emin, F32.prec, F32.emax in H.
  pose proof (F32Props.digits2_pos_bounds m) as B.
  set (d := Z.pos (digits2_pos m)) in *.
  assert (Hd : 1 <= d) by (subst d; lia).
  split.
  - assert (2 ^ d <= 2 ^ 24) by (apply Z.pow_le_mono_r; lia). lia.
  - intros He. replace d with 24 in B by lia.
    change (2 ^ (24 - 1)) with (2 ^ 23) in B. lia.
Qed.

(** The comparisons of [calculate_percentage] agree with the order of the
    exact values. *)
Lemma to_Q_at_most_empty (v : F32.float) :
  valid_binary F32.prec F32.emax v = true ->
  F32.le v BATTERY_MIN_VOLTAGE = true ->
  (F32.to_Q v <= F32.to_Q BATTERY_MIN_VOLTAGE)%Q.
Proof.
  intros Hv. rewrite to_Q_MIN. unfold F32.le.
  rewrite BATTERY_MIN_VOLTAGE_bits.
  destruct v as [s|s| |s m e]; try (intros _; cbn [F32.to_Q]; lra).
  intros H. unfold F32.to_Q, Qle. cbn [Qnum Qden].
  assert (P1 : 0 < 2 ^ Z.max e 0) by (apply Z.pow_pos_nonneg; lia).
  assert (P2 : 0 < 2 ^ Z.max (- e) 0) by (apply Z.pow_pos_nonneg; lia).
  rewrite Z2Pos.id by exact P2.
  destruct s; cbn [cond_Zopp]; [nia|].
  apply F32Props.leb_finite_pos in H.
  destruct (valid_mantissa false m e Hv) as [Hm _].
  change (2 ^ 24) with 16777216 in Hm.
  rewrite (Z.max_r e 0), (Z.max_l (- e) 0) by lia.
  change (2 ^ 0) with 1.
  destruct H as [H|[-> H]].
  - assert (2 ^ 23 <= 2 ^ (- e)) by (apply Z.pow_le_mono_r; lia).
    change (2 ^ 23) with 8388608 in *. lia.
  - change (2 ^ (- -22)) with 4194304. lia.
Qed.

Lemma to_Q_at_least_full (v : F32.float) :
  valid_binary F32.prec F32.emax v = true ->
  F32.is_finite v = true ->
  F32.ge v BATTERY_MAX_VOLTAGE = true ->
  (F32.to_Q BATTERY_MAX_VOLTAGE <= F32.to_Q v)%Q.
Proof.
  intros Hv Hf. rewrite to_Q_MAX. unfold F32.ge.
  rewrite BATTERY_MAX_VOLTAGE_bits.
  destruct v as [s|s| |s m e]; try discriminate.
  destruct s; [discriminate|].
  intros H. apply F32Props.leb_finite_pos in H.
  unfold F32.to_Q, Qle. cbn [Qnum Qden cond_Zopp].
  assert (P2 : 0 < 2 ^ Z.max (- e) 0) by (apply Z.pow_pos_nonneg; lia).
  rewrite Z2Pos.id by exact P2.
  destruct (valid_mantissa false m e Hv) as [_ Hm].
  specialize (Hm ltac:(lia)). change (2 ^ 23) with 8388608 in Hm.
  destruct (Z_le_gt_dec e 0) as [He|He].
  - rewrite (Z.max_r e 0), (Z.max_l (- e) 0) by lia. change (2 ^ 0) with 1.
    destruct H as [H|[<- H]].
    + assert (2 ^ (- e) <= 2 ^ 20) by (apply Z.pow_le_mono_r; lia).
      change (2 ^ 20) with 1048576 in *.
      assert (0 < 2 ^ (- e)) by (apply Z.pow_pos_nonneg; lia). nia.
    + change (2 ^ (- -21)) with 2097152. lia.
  - rewrite (Z.max_l e 0), (Z.max_r (- e) 0) by lia. change (2 ^ 0) with 1.
    assert (0 < 2 ^ e) by (apply Z.pow_pos_nonneg; lia). nia.
Qed.

(** C8 (as amended): for every voltage [v] (a binary32 number, not a
    NaN), [calculate_percentage v] is an integer from 0 to 100; it is 0
    when [v] is at or below the empty bound 3.0f and 100 when [v] is at
    or above the full bound 4.2f; strictly between the bounds it is the
    linear map of [v] between them (3.0f to 0, 4.2f to 100) evaluated in
    single precision and truncated toward zero to an integer: at most
    99, at most [2 ^ -14] above the exact linear map and less than
    [1 + 2 ^ -14] below it.  So for every finite [v] the result is the
    clamped linear map of [v] up to truncation and rounding. *)
Theorem calculate_percentage_linear
    (invalid_cast : F32.float -> Z) (v : F32.float) :
  valid_binary F32.prec F32.emax v = true ->
  v <> S754_nan ->
  let p := calculate_percentage invalid_cast v in
  (0 <= p <= 100)%Z /\
  (F32.le v BATTERY_MIN_VOLTAGE = true -> p = 0%Z) /\
  (F32.ge v BATTERY_MAX_VOLTAGE = true -> p = 100%Z) /\
  (F32.le v BATTERY_MIN_VOLTAGE = false ->
   F32.ge v BATTERY_MAX_VOLTAGE = false ->
   (p <= 99)%Z /\
   (inject_Z p <= linear_map (F32.to_Q v) + rounding_tolerance)%Q /\
   (linear_map (F32.to_Q v) - 1 - rounding_tolerance < inject_Z p)%Q) /\
  (F32.is_finite v = true ->
   (inject_Z p <= clamped_linear_map (F32.to_Q v) + rounding_tolerance)%Q /\
   (clamped_linear_map (F32.to_Q v) - 1 - rounding_tolerance < inject_Z p)%Q).
Proof.
  intros Hv Hn p.
  destruct (F32.le v BATTERY_MIN_VOLTAGE) eqn:Hlo.
  - assert (Hp : p = 0%Z).
    { subst p. unfold calculate_percentage. rewrite Hlo. reflexivity. }
    rewrite Hp. split; [lia|]. split; [reflexivity|]. split; [|split].
    + intros H. apply full_not_empty in H. congruence.
    + discriminate.
    + intros _.
      rewrite (clamped_below _ (linear_map_at_most_empty _
                                  (to_Q_at_most_empty v Hv Hlo))).
      unfold rounding_tolerance. change (inject_Z 0) with 0%Q. split; lra.
  - destruct (F32.ge v BATTERY_MAX_VOLTAGE) eqn:Hhi.
    + assert (Hp : p = 100%Z).
      { subst p. unfold calculate_percentage. rewrite Hlo, Hhi. reflexivity. }
      rewrite Hp. split; [lia|]. split; [discriminate|].
      split; [reflexivity|]. split; [discriminate|].
      intros Hf.
      rewrite (clamped_above _ (linear_map_at_least_full _
                                  (to_Q_at_least_full v Hv Hf Hhi))).
      unfold rounding_tolerance. change (inject_Z 100) with 100%Q. split; lra.
    + destruct (calculate_percentage_between invalid_cast v Hv Hn Hlo Hhi)
        as (D & HD & HL & Hc).
      destruct (percentage_of_excess invalid_cast D HD) as (z & Hz & Hz1 & Hz2 & Hz3).
      assert (Hp : p = z) by (subst p; rewrite Hc; exact Hz).
      rewrite Hp. split; [lia|]. split; [discriminate|]. split; [discriminate|].
      assert (Hin : (0 <= linear_map (F32.to_Q v) <= 100)%Q).
      { rewrite HL. unfold Qle. cbn [Qnum Qden]. split; lia. }
      split.
      * intros _ _. split; [lia|].
        rewrite HL. apply excess_bounds_Q; assumption.
      * intros _. rewrite (clamped_inside _ Hin), HL.
        apply excess_bounds_Q; assumption.
Qed.

Lemma calculate_percentage_linear_witness :
  let v := F32.of_decimal 35 10 in
  let p := calculate_percentage (fun _ => 0%Z) v in
  p = 41%Z /\
  0 <= p <= 100 /\
  (inject_Z p <= linear_map (F32.to_Q v) + rounding_tolerance)%Q /\
  (linear_map (F32.to_Q v) - 1 - rounding_tolerance < inject_Z p)%Q /\
  calculate_percentage (fun _ => 0%Z) (F32.of_int 2) = 0 /\
  calculate_percentage (fun _ => 0%Z) (F32.of_int 5) = 100.
Proof.
  intros v p.
  destruct (calculate_percentage_linear (fun _ => 0%Z) v) as (H1 & _ & _ & H4 & _);
    [reflexivity|discriminate|].
  destruct (H4 ltac:(reflexivity) ltac:(reflexivity)) as (_ & H5 & H6).
  destruct (calculate_percentage_linear (fun _ => 0%Z) (F32.of_int 2))
    as (_ & L & _ & _); [reflexivity|discriminate|].
  destruct (calculate_percentage_linear (fun _ => 0%Z) (F32.of_int 5))
    as (_ & _ & G & _); [reflexivity|discriminate|].
  split; [reflexivity|]. split; [exact H1|]. split; [exact H5|].
  split; [exact H6|]. split; [apply L; reflexivity|apply G; reflexivity].
Defined.

(** C8 as stated fails: at 3.5 V the linear map between 3.0f and 4.2f
    gives 52428800/1258291 = 41.66..., inside the range from 0 to 100,
    and [calculate_percentage] returns 41. *)
Lemma percentage_at_3_5_volts_is_truncated :
  let v := F32.of_decimal 35 10 in
  calculate_percentage (fun _ => 0%Z) v = 41 /\
  (linear_map (F32.to_Q v) == 52428800 # 1258291)%Q /\
  (clamped_linear_map (F32.to_Q v) == 52428800 # 1258291)%Q /\
  ~ (inject_Z (calculate_percentage (fun _ => 0%Z) v)
     == clamped_linear_map (F32.to_Q v))%Q.
Proof.
  split; [reflexivity|].
  split; [vm_compute; reflexivity|]. split; [vm_compute; reflexivity|].
  vm_compute. discriminate.
Qed.

End BatteryProps.

(* ===================================================================== *)
(** * The power controller over its whole life *)
(* ===================================================================== *)

Module PmuLifecycle.

Import Pmu.

Lemma alternates_app s cs1 cs2 :
  alternates s (cs1 ++ cs2)
  = alternates s cs1 && alternates (suspended_after s cs1) cs2.
Proof.
  revert s. induction cs1 as [|c cs1 IH]; intros s; cbn; [reflexivity|].
  unfold suspended_after in *. cbn.
  destruct c; rewrite IH, andb_assoc; reflexivity.
Qed.

Lemma suspended_after_app s cs1 cs2 :
  suspended_after s (cs1 ++ cs2) = suspended_after (suspended_after s cs1) cs2.
Proof. unfold suspended_after. apply fold_left_app. Qed.

Lemma count_suspend_app cs1 cs2 :
  count_suspend (cs1 ++ cs2) = (count_suspend cs1 + count_suspend cs2)%nat.
Proof. unfold count_suspend. rewrite List.filter_app, length_app. reflexivity. Qed.

Lemma count_resume_app cs1 cs2 :
  count_resume (cs1 ++ cs2) = (count_resume cs1 + count_resume cs2)%nat.
Proof. unfold count_resume. rewrite List.filter_app, length_app. reflexivity. Qed.

(** One call: the broadcasts it makes fit the suspended flag before and
    after, and a locked controller stays awake. *)
Lemma run_client_call_step D c p :
  awake_when_locked p ->
  let '(p', out) := run_client_call D c p in
  awake_when_locked p' /\
  alternates (is_suspended_ p) out = true /\
  suspended_after (is_suspended_ p) out = is_suspended_ p' /\
  (count_suspend out + (if is_suspended_ p then 1 else 0)
   = count_resume out + (if is_suspended_ p' then 1 else 0))%nat.
Proof.
  unfold awake_when_locked. intros H.
  destruct p as [l t T s]. cbn in H.
  destruct c as [|now|now|x]; cbn.
  - unfold lock; cbn. destruct l; cbn.
    + rewrite (H eq_refl). cbn. auto.
    + destruct s; cbn; auto.
  - unfold unlock; cbn. destruct l; cbn.
    + rewrite (H eq_refl). cbn. repeat split; congruence.
    + destruct s; cbn; repeat split; congruence.
  - unfold loop; cbn. destruct l; cbn.
    + rewrite (H eq_refl). cbn. auto.
    + destruct s; cbn; [repeat split; congruence|].
      destruct (T <=? _); cbn; repeat split; congruence.
  - unfold set_idle_timeout; cbn.
    destruct (x <=? 0); cbn; destruct s; cbn; repeat split; auto.
Qed.

Lemma run_client_calls_steps D cs : forall p,
  awake_when_locked p ->
  let '(p', out) := run_client_calls D cs p in
  awake_when_locked p' /\
  alternates (is_suspended_ p) out = true /\
  suspended_after (is_suspended_ p) out = is_suspended_ p' /\
  (count_suspend out + (if is_suspended_ p then 1 else 0)
   = count_resume out + (if is_suspended_ p' then 1 else 0))%nat.
Proof.
  induction cs as [|c cs IH]; intros p Hp; cbn [run_client_calls].
  - split; [exact Hp|]. split; [reflexivity|]. split; reflexivity.
  - pose proof (run_client_call_step D c p Hp) as S1.
    destruct (run_client_call D c p) as [p1 out1].
    destruct S1 as (A1 & B1 & C1 & D1).
    specialize (IH p1 A1).
    destruct (run_client_calls D cs p1) as [p2 out2].
    destruct IH as (A2 & B2 & C2 & D2).
    split; [exact A2|].
    rewrite alternates_app, suspended_after_app, count_suspend_app,
      count_resume_app, C1, B1, B2, C2.
    split; [reflexivity|]. split; [reflexivity|]. lia.
Qed.

Lemma new_awake D now T : awake_when_locked (new D now T).
Proof. unfold awake_when_locked. cbn. discriminate. Qed.

(** X1: whatever a client calls on a controller after building it
    ([lock()], [unlock()], [loop()] and [set_idle_timeout()], in any
    order and at any times), the controller is never locked and
    suspended at once. *)
Theorem never_locked_and_suspended
    (PMU_DEFAULT_IDLE_TIMEOUT : Z) (now : time_point) (idle_timeout_seconds : Z)
    (cs : list client_call) :
  let p := fst (run_client_calls PMU_DEFAULT_IDLE_TIMEOUT cs
                  (new PMU_DEFAULT_IDLE_TIMEOUT now idle_timeout_seconds)) in
  is_locked_ p && is_suspended_ p = false.
Proof.
  pose proof (run_client_calls_steps PMU_DEFAULT_IDLE_TIMEOUT cs _
                (new_awake PMU_DEFAULT_IDLE_TIMEOUT now idle_timeout_seconds)) as H.
  destruct (run_client_calls _ cs _) as [p out]. cbn.
  destruct H as (H & _). unfold awake_when_locked in H.
  destruct (is_locked_ p); [rewrite H; reflexivity|reflexivity].
Qed.

(** X2: whatever a client calls on a controller after building it, the
    broadcasts the controller asks of the device manager alternate,
    starting with [suspend_all()]: it never suspends devices that are
    suspended nor resumes devices that are running; and its suspended
    flag says what the last broadcast left. *)
Theorem suspend_resume_alternate
    (PMU_DEFAULT_IDLE_TIMEOUT : Z) (now : time_point) (idle_timeout_seconds : Z)
    (cs : list client_call) :
  let r := run_client_calls PMU_DEFAULT_IDLE_TIMEOUT cs
             (new PMU_DEFAULT_IDLE_TIMEOUT now idle_timeout_seconds) in
  alternates false (snd r) = true /\
  is_suspended_ (fst r) = suspended_after false (snd r).
Proof.
  pose proof (run_client_calls_steps PMU_DEFAULT_IDLE_TIMEOUT cs _
                (new_awake PMU_DEFAULT_IDLE_TIMEOUT now idle_timeout_seconds)) as H.
  destruct (run_client_calls _ cs _) as [p out]. cbn in *.
  destruct H as (_ & H1 & H2 & _). split; [exact H1|]. symmetry. exact H2.
Qed.

(** X3: over the whole life of a controller, destructor included, the
    broadcasts alternate and end with the devices running: every
    [suspend_all()] is followed by a [resume_all()], the last one by the
    destructor's if by no [lock()]. *)
Theorem lifetime_resumes_what_it_suspended
    (PMU_DEFAULT_IDLE_TIMEOUT : Z) (now : time_point) (idle_timeout_seconds : Z)
    (cs : list client_call) :
  let out := lifetime PMU_DEFAULT_IDLE_TIMEOUT now idle_timeout_seconds cs in
  alternates false out = true /\
  suspended_after false out = false /\
  count_resume out = count_suspend out.
Proof.
  unfold lifetime.
  pose proof (run_client_calls_steps PMU_DEFAULT_IDLE_TIMEOUT cs _
                (new_awake PMU_DEFAULT_IDLE_TIMEOUT now idle_timeout_seconds)) as H.
  destruct (run_client_calls _ cs _) as [p out]. cbn in H.
  destruct H as (_ & H1 & H2 & H3). cbn zeta.
  rewrite alternates_app, suspended_after_app, count_resume_app,
    count_suspend_app, H1, H2.
  unfold destroy. destruct (is_suspended_ p); cbn; repeat split; lia.
Qed.

Lemma seconds_elapsed_reached T d :
  T * ticks_per_second <= d -> T <= duration_cast_seconds d.
Proof.
  unfold duration_cast_seconds, ticks_per_second. intros H.
  destruct (Z_le_gt_dec 0 d) as [Hd|Hd].
  - rewrite Z.quot_div_nonneg by lia. apply Z.div_le_lower_bound; lia.
  - replace d with (- (- d)) by lia. rewrite Z.quot_opp_l by lia.
    rewrite Z.quot_div_nonneg by lia.
    assert (- d / 1000000000 <= - T); [|lia].
    apply Z.div_le_upper_bound; lia.
Qed.

(** X4: on an unlocked, running controller, a [loop()] at a time [now]
    not before the recorded unlock time suspends (sets the flag and
    calls [suspend_all()]) exactly when [idle_timeout_] whole seconds
    have passed since that time; a [loop()] before that changes nothing
    and calls nothing. *)
Theorem loop_suspends_exactly_after_idle_timeout (now : time_point) (p : pmu) :
  is_locked_ p = false ->
  is_suspended_ p = false ->
  last_unlock_time_ p <= now ->
  (suspends_at now p <->
   last_unlock_time_ p + idle_timeout_ p * ticks_per_second <= now) /\
  (now < last_unlock_time_ p + idle_timeout_ p * ticks_per_second ->
   loop now p = (p, [])).
Proof.
  intros Hl Hs Hnow.
  assert (E : (idle_timeout_ p <=? duration_cast_seconds (now - last_unlock_time_ p)) = true
              <-> last_unlock_time_ p + idle_timeout_ p * ticks_per_second <= now).
  { rewrite Z.leb_le. split; intros H.
    - apply PmuProps.elapsed_seconds_reached in H; lia.
    - apply seconds_elapsed_reached. lia. }
  unfold suspends_at, loop. rewrite Hl, Hs. cbn.
  destruct (idle_timeout_ p <=? _) eqn:L; cbn.
  - split; [|intros H; apply proj1 in E; specialize (E eq_refl); lia].
    split; [intros _; apply E; reflexivity|]. intros _. auto.
  - split; [|reflexivity].
    split; [intros (_ & H & _); congruence|].
    intros H. apply E in H. discriminate.
Qed.

Lemma loop_suspends_exactly_after_idle_timeout_witness :
  let p := mk_pmu false 2000000000 10 false in
  suspends_at 12000000000 p /\
  loop 11999999999 p = (p, []).
Proof.
  intros p.
  destruct (loop_suspends_exactly_after_idle_timeout 12000000000 p) as [H1 _];
    [reflexivity|reflexivity|vm_compute; discriminate|].
  destruct (loop_suspends_exactly_after_idle_timeout 11999999999 p) as [_ H2];
    [reflexivity|reflexivity|vm_compute; discriminate|].
  split.
  - apply H1. vm_compute. discriminate.
  - apply H2. vm_compute. reflexivity.
Defined.

End PmuLifecycle.

Module DeepSleep.

(** X5: [enter_deep_sleep(sleep_time_ms)] publishes the
    [enter_deep_sleep] event, waits 100 ms, arms the wake-up timer when
    [sleep_time_ms] is not 0 and starts the sleep, in this order.  The
    timer is armed with [sleep_time_ms * 1000] microseconds computed in
    [uint32_t]: exactly the time asked for up to 4294967 ms, and for any
    longer time a wrapped one, shorter than asked by a multiple of
    [2 ^ 32] microseconds. *)
Theorem deep_sleep_timer_wraps (sleep_time_ms : Z) :
  0 <= sleep_time_ms < 2 ^ 32 ->
  (sleep_time_ms = 0 ->
   Pmu.enter_deep_sleep sleep_time_ms
   = [Pmu.event_bus_publish enter_deep_sleep; Pmu.vTaskDelay_ms 100;
      Pmu.esp_deep_sleep_start]) /\
  (0 < sleep_time_ms ->
   exists time_in_us,
     Pmu.enter_deep_sleep sleep_time_ms
     = [Pmu.event_bus_publish enter_deep_sleep; Pmu.vTaskDelay_ms 100;
        Pmu.esp_sleep_enable_timer_wakeup time_in_us; Pmu.esp_deep_sleep_start] /\
     0 <= time_in_us < 2 ^ 32 /\
     (sleep_time_ms <= 4294967 -> time_in_us = sleep_time_ms * 1000) /\
     (4294967 < sleep_time_ms ->
      time_in_us + 2 ^ 32 <= sleep_time_ms * 1000 /\
      (sleep_time_ms * 1000 - time_in_us) mod 2 ^ 32 = 0)).
Proof.
  intros H. split.
  - intros ->. reflexivity.
  - intros Hp. exists (Pmu.uint32_mul sleep_time_ms 1000).
    unfold Pmu.enter_deep_sleep.
    replace (sleep_time_ms >? 0) with true by (symmetry; apply Z.gtb_lt; lia).
    split; [reflexivity|].
    unfold Pmu.uint32_mul.
    change (2 ^ 32) with 4294967296 in *.
    pose proof (Z.mod_pos_bound (sleep_time_ms * 1000) 4294967296 ltac:(lia)) as B.
    split; [exact B|]. split.
    + intros Hs. apply Z.mod_small. lia.
    + intros Hs.
      pose proof (Z.div_mod (sleep_time_ms * 1000) 4294967296 ltac:(lia)) as E.
      assert (1 <= sleep_time_ms * 1000 / 4294967296)
        by (apply Z.div_le_lower_bound; lia).
      split; [lia|].
      replace (sleep_time_ms * 1000 - (sleep_time_ms * 1000) mod 4294967296)
        with ((sleep_time_ms * 1000 / 4294967296) * 4294967296) by lia.
      apply Z.mod_mul. lia.
Qed.

Lemma deep_sleep_timer_wraps_witness :
  exists time_in_us,
    Pmu.enter_deep_sleep 5000000
    = [Pmu.event_bus_publish enter_deep_sleep; Pmu.vTaskDelay_ms 100;
       Pmu.esp_sleep_enable_timer_wakeup time_in_us; Pmu.esp_deep_sleep_start] /\
    time_in_us + 2 ^ 32 <= 5000000 * 1000 /\
    time_in_us = 705032704.
Proof.
  destruct (deep_sleep_timer_wraps 5000000) as [_ H]; [lia|].
  destruct (H ltac:(lia)) as (us & E & _ & _ & W).
  exists us. split; [exact E|]. split; [apply W; lia|].
  injection E as E. symmetry. exact E.
Defined.

End DeepSleep.

(* ===================================================================== *)
(** * Looking devices up by name *)
(* ===================================================================== *)

Module RegistryLookup.

Import DeviceManager.

Lemma name_eqb (a b : string) : String.eqb a b = true <-> a = b.
Proof. apply String.eqb_eq. Qed.

(** The lookup fails exactly for the names that are not registered. *)
Lemma get_device_by_name_None (n : string) (devices_ : list device) :
  get_device_by_name n devices_ = None <-> ~ In n (map name devices_).
Proof.
  unfold get_device_by_name. induction devices_ as [|d ds IH]; cbn.
  - tauto.
  - destruct (String.eqb n (name d)) eqn:E.
    + apply name_eqb in E. split; [discriminate|]. intros H. exfalso. auto.
    + assert (n <> name d) by (intros H; apply name_eqb in H; congruence).
      rewrite IH. split; [intros H1 [H2|H2]; [congruence|tauto]|tauto].
Qed.

Lemma get_device_by_name_app (n : string) (l1 l2 : list device) :
  get_device_by_name n (l1 ++ l2)
  = match get_device_by_name n l1 with
    | Some d => Some d
    | None => get_device_by_name n l2
    end.
Proof.
  unfold get_device_by_name. induction l1 as [|d l1 IH]; cbn; [reflexivity|].
  destruct (String.eqb n (name d)); [reflexivity|exact IH].
Qed.

(** What the lookup returns is registered under the name asked for. *)
Lemma get_device_by_name_Some (n : string) (devices_ : list device) d :
  get_device_by_name n devices_ = Some d -> In d devices_ /\ name d = n.
Proof.
  unfold get_device_by_name. intros H. apply find_some in H.
  destruct H as [H1 H2]. apply name_eqb in H2. auto.
Qed.

(** Under pairwise distinct names the lookup finds every registered
    device. *)
Lemma get_device_by_name_In (devices_ : list device) d :
  List.NoDup (map name devices_) ->
  In d devices_ ->
  get_device_by_name (name d) devices_ = Some d.
Proof.
  unfold get_device_by_name. induction devices_ as [|x ds IH]; cbn; [tauto|].
  intros Hn Hin. apply List.NoDup_cons_iff in Hn. destruct Hn as [Hx Hn].
  destruct Hin as [->|Hin].
  - rewrite String.eqb_refl. reflexivity.
  - destruct (String.eqb (name d) (name x)) eqn:E.
    + apply name_eqb in E. exfalso. apply Hx. rewrite <- E.
      apply in_map. exact Hin.
    + apply IH; assumption.
Qed.

(** X6: after [register_device(d)], [get_device_by_name(n)] returns what
    it returned before when that was a device (so for a name that was
    taken the first registration wins), and otherwise [d] when [n] is
    the name of [d], and null for any other name. *)
Theorem lookup_after_register (n : string) (d : device) (devices_ : list device) :
  get_device_by_name n (register_device (Some d) devices_)
  = match get_device_by_name n devices_ with
    | Some first => Some first
    | None => if String.eqb n (name d) then Some d else None
    end.
Proof.
  destruct (in_dec String.string_dec (name d) (map name devices_)) as [Hin|Hout].
  - rewrite DeviceManagerProps.register_device_taken by assumption.
    destruct (get_device_by_name n devices_) eqn:E; [reflexivity|].
    destruct (String.eqb n (name d)) eqn:En; [|reflexivity].
    apply name_eqb in En. subst n.
    apply get_device_by_name_None in E. contradiction.
  - rewrite DeviceManagerProps.register_device_fresh by assumption.
    rewrite get_device_by_name_app. cbn.
    destruct (String.eqb n (name d)); reflexivity.
Qed.

(** X7: in a registry built by [register_device()] calls,
    [get_device_by_name(n)] returns [d] exactly when [d] is registered
    and named [n], and null exactly when no registered device is named
    [n]. *)
Theorem lookup_finds_exactly_the_registered
    (devs : list (option device)) (n : string) (d : device) :
  let devices_ := register_all devs [] in
  (get_device_by_name n devices_ = Some d <-> In d devices_ /\ name d = n) /\
  (get_device_by_name n devices_ = None <-> ~ In n (map name devices_)).
Proof.
  intros devices_. split; [|apply get_device_by_name_None].
  split; [apply get_device_by_name_Some|].
  intros [Hin <-]. apply get_device_by_name_In; [|exact Hin].
  apply DeviceManagerProps.register_all_NoDup. constructor.
Qed.

End RegistryLookup.

(* ===================================================================== *)
(** * The broadcasts of the device registry *)
(* ===================================================================== *)

Module RegistryBroadcasts.

Import DeviceManager.

(** The broadcast loop calls the devices of the registry, in order. *)
Lemma for_each_device_calls {world} (method : device -> world -> Z * world)
    (devices_ : list device) : forall w,
  map fst (for_each_device world method devices_ w).2 = devices_.
Proof.
  induction devices_ as [|dev rest IH]; intros w; cbn; [reflexivity|].
  destruct (method dev w) as [ret w1]. specialize (IH w1).
  destruct (for_each_device world method rest w1) as [w2 log]. cbn in *.
  rewrite IH. reflexivity.
Qed.

(** A registration keeps what is registered and serves the name offered. *)
Lemma register_device_serves (dev : option device) (devices_ : list device) :
  (forall n, In n (map name devices_) ->
             In n (map name (register_device dev devices_))) /\
  (forall d, dev = Some d -> In (name d) (map name (register_device dev devices_))).
Proof.
  destruct dev as [d|]; [|split; [auto|discriminate]].
  destruct (in_dec String.string_dec (name d) (map name devices_)) as [Hin|Hout].
  - rewrite DeviceManagerProps.register_device_taken by assumption.
    split; [auto|]. intros ? [= <-]. exact Hin.
  - rewrite DeviceManagerProps.register_device_fresh by assumption.
    rewrite map_app. split.
    + intros n H. apply in_or_app. left. exact H.
    + intros ? [= <-]. apply in_or_app. right. left. reflexivity.
Qed.

Lemma register_all_serves (devs : list (option device)) : forall devices_,
  (forall n, In n (map name devices_) ->
             In n (map name (register_all devs devices_))) /\
  (forall d, In (Some d) devs -> In (name d) (map name (register_all devs devices_))).
Proof.
  unfold register_all.
  induction devs as [|dev devs IH]; intros devices_; cbn.
  - split; [auto|intros d []].
  - destruct (IH (register_device dev devices_)) as [I1 I2].
    destruct (register_device_serves dev devices_) as [R1 R2].
    split; [auto|]. intros d [->|H]; [apply I1, R2; reflexivity|apply I2, H].
Qed.

(** X8: on a registry built by [register_device()] calls, each of
    [init_all()], [deinit_all()], [suspend_all()] and [resume_all()]
    calls the method on every registered device once, in registration
    order, whatever the calls return (a failure does not stop the loop);
    no two calls go to devices of the same name, and every device that
    was offered for registration has its name served by one call. *)
Theorem broadcast_reaches_every_registered_device
    {world} (method : device -> world -> Z * world)
    (devs : list (option device)) (w : world) (d : device) :
  let devices_ := register_all devs [] in
  let log := (for_each_device world method devices_ w).2 in
  map fst log = devices_ /\
  List.NoDup (map (fun call => name call.1) log) /\
  (In (Some d) devs ->
   exists ret first, In (first, ret) log /\ name first = name d) /\
  init_all method devices_ w = for_each_device world method devices_ w /\
  deinit_all method devices_ w = for_each_device world method devices_ w /\
  suspend_all method devices_ w = for_each_device world method devices_ w /\
  resume_all method devices_ w = for_each_device world method devices_ w.
Proof.
  intros devices_ log.
  assert (H : map fst log = devices_) by apply for_each_device_calls.
  split; [exact H|]. split; [|split; [|repeat split]].
  - replace (map (fun call : device * Z => name call.1) log)
      with (map name (map fst log)) by (rewrite map_map; reflexivity).
    rewrite H. apply DeviceManagerProps.register_all_NoDup. constructor.
  - intros Hd. destruct (register_all_serves devs []) as [_ S].
    specialize (S d Hd). fold devices_ in S. rewrite <- H in S.
    rewrite map_map in S. apply in_map_iff in S.
    destruct S as ([first ret] & E & Hin). exists ret, first. auto.
Qed.

Lemma broadcast_reaches_every_registered_device_witness :
  let uart := mk_device 1 "uart_device" in
  let batt := mk_device 2 "battery_device" in
  let uart' := mk_device 3 "uart_device" in
  let init := fun (dev : device) (w : list nat) =>
                (if (address dev =? 1)%nat then -1 else 0, w ++ [address dev]) in
  init_all init (register_all [Some uart; Some batt; Some uart'] []) []
  = ([1; 2]%nat, [(uart, -1); (batt, 0)]) /\
  exists ret first,
    In (first, ret)
       (init_all init (register_all [Some uart; Some batt; Some uart'] []) []).2 /\
    name first = name uart'.
Proof.
  intros uart batt uart' init.
  destruct (broadcast_reaches_every_registered_device init
              [Some uart; Some batt; Some uart'] [] uart') as (_ & _ & H & E & _).
  split; [reflexivity|]. rewrite E. apply H.
  right. right. left. reflexivity.
Defined.

End RegistryBroadcasts.

(* ===================================================================== *)
(** * Subscriptions and deliveries on the event bus *)
(* ===================================================================== *)

Module BusSubscriptions.

Import EventBus.

Lemma erase_expired_idem released (v : list weak_ptr) :
  erase_remove_if (expired released) (erase_remove_if (expired released) v)
  = erase_remove_if (expired released) v.
Proof.
  unfold erase_remove_if. induction v as [|x v IH]; cbn; [reflexivity|].
  destruct (negb (expired released x)) eqn:E; cbn; rewrite ?E, IH; reflexivity.
Qed.

Lemma erase_expired_app released (v w : list weak_ptr) :
  erase_remove_if (expired released) (v ++ w)
  = erase_remove_if (expired released) v ++ erase_remove_if (expired released) w.
Proof. unfold erase_remove_if. apply List.filter_app. Qed.

Lemma weak_lock_alive released wp :
  control wp ∉ released -> weak_lock released wp = Some wp.
Proof.
  intros H. unfold weak_lock. apply EventBusProps.expired_false in H.
  rewrite H. reflexivity.
Qed.

(** The scan of [subscribe] finds the object of [l] exactly when a
    subscription of it has an owner. *)
Lemma scan_alive released l (v : list weak_ptr) :
  existsb (fun wp => match weak_lock released wp with
                     | Some sp => shared_ptr_eq sp l
                     | None => false
                     end) v = true
  <-> exists wp, In wp v /\ (control wp ∉ released) /\ get wp = get l.
Proof.
  rewrite existsb_exists. split.
  - intros (wp & Hin & H).
    destruct (weak_lock released wp) as [sp|] eqn:E; [|discriminate].
    apply EventBusProps.weak_lock_Some in E. destruct E as [-> E].
    apply bool_decide_eq_true_1 in H. eauto.
  - intros (wp & Hin & Ho & Hg). exists wp. split; [exact Hin|].
    rewrite weak_lock_alive by exact Ho. apply bool_decide_eq_true_2, Hg.
Qed.

Lemma scan_live released l (v : list weak_ptr) :
  let live := erase_remove_if (expired released) v in
  existsb (fun wp => match weak_lock released wp with
                     | Some sp => shared_ptr_eq sp l
                     | None => false
                     end) live
  = bool_decide (get l ∈ map get live).
Proof.
  intros live. apply eq_true_iff_eq.
  rewrite scan_alive, bool_decide_eq_true, list_elem_of_In, in_map_iff.
  split.
  - intros (wp & Hin & _ & Hg). eauto.
  - intros (wp & Hg & Hin). exists wp. split; [exact Hin|]. split; [|exact Hg].
    apply EventBusProps.erase_expired_In in Hin. tauto.
Qed.

(** The vector [subscribe] leaves for the type. *)
Lemma subscribe_insert released t l (listeners_ : listeners_map) :
  subscribe released t (Some l) listeners_
  = <[t := let live := erase_remove_if (expired released)
                         (default [] (listeners_ !! t)) in
           if bool_decide (get l ∈ map get live) then live else live ++ [l]]>
      listeners_.
Proof.
  unfold subscribe. cbv zeta. rewrite scan_live.
  destruct (bool_decide _); reflexivity.
Qed.

Lemma subscribe_lookup released t l (listeners_ : listeners_map) :
  subscribe released t (Some l) listeners_ !! t
  = Some (let live := erase_remove_if (expired released)
                        (default [] (listeners_ !! t)) in
          if bool_decide (get l ∈ map get live) then live else live ++ [l]).
Proof. rewrite subscribe_insert. apply lookup_insert_eq. Qed.

Lemma subscribe_other released t l (listeners_ : listeners_map) t' :
  t' <> t -> subscribe released t l listeners_ !! t' = listeners_ !! t'.
Proof.
  intros H. destruct l as [l|]; [|reflexivity].
  rewrite subscribe_insert. apply lookup_insert_ne. congruence.
Qed.

(** The vector [unsubscribe] leaves for the type holds neither a
    subscription of the object of [l] nor an expired one. *)
Lemma unsubscribe_lookup released t l (listeners_ : listeners_map) :
  unsubscribe released t (Some l) listeners_ !! t
  = List.filter (fun wp => negb (expired released wp) && negb (shared_ptr_eq wp l))
      <$> listeners_ !! t.
Proof.
  unfold unsubscribe. destruct (listeners_ !! t) as [v|] eqn:E; cbn.
  - rewrite lookup_insert_eq. f_equal. unfold erase_remove_if.
    apply List.filter_ext. intros wp. unfold weak_lock.
    destruct (expired released wp); reflexivity.
  - exact E.
Qed.

Lemma unsubscribe_other released t l (listeners_ : listeners_map) t' :
  t' <> t -> unsubscribe released t l listeners_ !! t' = listeners_ !! t'.
Proof.
  intros H. destruct l as [l|]; [|reflexivity].
  unfold unsubscribe. destruct (listeners_ !! t); [|reflexivity].
  apply lookup_insert_ne. congruence.
Qed.

Lemma subscribed_vector_idem released (l : shared_ptr) (v : list weak_ptr) :
  let live := erase_remove_if (expired released) v in
  let v1 := if bool_decide (get l ∈ map get live) then live else live ++ [l] in
  let live1 := erase_remove_if (expired released) v1 in
  (if bool_decide (get l ∈ map get live1) then live1 else live1 ++ [l]) = v1.
Proof.
  intros live v1 live1.
  assert (Hl : erase_remove_if (expired released) live = live)
    by apply erase_expired_idem.
  subst live1 v1. clearbody live.
  destruct (bool_decide (get l ∈ map get live)) eqn:H.
  - rewrite Hl, H. reflexivity.
  - rewrite erase_expired_app, Hl.
    change (erase_remove_if (expired released) [l])
      with (if negb (expired released l) then [l] else []).
    destruct (expired released l) eqn:E; cbn [negb].
    + rewrite app_nil_r, H. reflexivity.
    + rewrite bool_decide_eq_true_2; [reflexivity|].
      apply list_elem_of_In. rewrite map_app. apply in_or_app. right. left.
      reflexivity.
Qed.

(** X9: subscribing a pointer a second time for the same type, with the
    same control blocks released, leaves the table as the first
    subscription left it. *)
Theorem subscribe_twice_is_once
    (released : gset control_block) (t : event_type) (l : option shared_ptr)
    (listeners_ : listeners_map) :
  subscribe released t l (subscribe released t l listeners_)
  = subscribe released t l listeners_.
Proof.
  destruct l as [l|]; [|reflexivity].
  rewrite (subscribe_insert released t l (subscribe released t (Some l) listeners_)).
  rewrite subscribe_lookup. cbn [default].
  rewrite subscribe_insert, insert_insert_eq. f_equal.
  apply subscribed_vector_idem.
Qed.

(** ** Deliveries *)

Lemma sublist_map {A B} (f : A -> B) (l1 l2 : list A) :
  sublist l1 l2 -> sublist (map f l1) (map f l2).
Proof. induction 1; cbn; constructor; assumption. Qed.

Lemma sublist_ListNoDup {A} (l1 l2 : list A) :
  sublist l1 l2 -> List.NoDup l2 -> List.NoDup l1.
Proof.
  intros S H. apply NoDup_ListNoDup. apply NoDup_ListNoDup in H.
  eapply sublist_NoDup; eassumption.
Qed.

(** The more is released, the fewer subscriptions are left. *)
Lemma erase_expired_mono (released released' : gset control_block)
    (v : list weak_ptr) :
  released ⊆ released' ->
  sublist (erase_remove_if (expired released') v)
          (erase_remove_if (expired released) v).
Proof.
  intros H. unfold erase_remove_if. induction v as [|x v IH]; cbn; [constructor|].
  destruct (expired released' x) eqn:E'; destruct (expired released x) eqn:E; cbn.
  - exact IH.
  - constructor. exact IH.
  - apply EventBusProps.expired_false in E'. apply bool_decide_eq_true_1 in E.
    exfalso. apply E', H, E.
  - constructor. exact IH.
Qed.

Section WithListeners.

Variable on_event :
  listener -> event_data -> gset control_block -> gset control_block.

(** A subscription whose control block keeps an owner is delivered to
    when its turn comes. *)
Lemma notify_invokes ev wp v : forall released r inv,
  (forall l o, control wp ∉ o -> control wp ∉ on_event l ev o) ->
  In wp v -> control wp ∉ released ->
  notify on_event ev v released = Some (r, inv) -> In wp inv.
Proof.
  induction v as [|x rest IH]; intros released r inv Hk Hin Ho; cbn [notify];
    [destruct Hin|].
  cbv zeta. destruct (weak_lock released x) as [p|] eqn:E.
  - apply EventBusProps.weak_lock_Some in E. destruct E as [-> E].
    cbn [call_on_event].
    destruct (notify on_event ev rest (released ∪ on_event (get x) ev released))
      as [[r1 inv1]|] eqn:N; [|discriminate].
    intros [= <- <-]. destruct Hin as [->|Hin]; [left; reflexivity|].
    right. eapply IH; [exact Hk|exact Hin| |exact N].
    intros H. apply elem_of_union in H. destruct H as [H|H]; [contradiction|].
    revert H. apply Hk, Ho.
  - destruct Hin as [->|Hin].
    + rewrite weak_lock_alive in E by exact Ho. discriminate.
    + apply IH; assumption.
Qed.

(** With callbacks that release nothing the delivery loop calls through
    exactly the subscriptions of the vector that have an owner. *)
Lemma notify_passive ev v released :
  (forall l o, on_event l ev o ⊆ o) ->
  notify on_event ev v released
  = Some (released, erase_remove_if (expired released) v).
Proof.
  intros Hp. unfold erase_remove_if.
  induction v as [|wp rest IH]; cbn; [reflexivity|].
  unfold weak_lock. destruct (expired released wp); cbn.
  - exact IH.
  - replace (released ∪ on_event (get wp) ev released) with released.
    + rewrite IH. reflexivity.
    + symmetry. rewrite union_comm_L. apply subseteq_union_1_L, Hp.
Qed.

Lemma publish_passive ev (listeners_ : listeners_map) released :
  (forall l o, on_event l ev o ⊆ o) ->
  snd <$> publish on_event ev listeners_ released
  = Some (erase_remove_if (expired released) (default [] (listeners_ !! type ev))).
Proof.
  intros Hp. unfold publish.
  destruct (listeners_ !! type ev) as [v|]; [|reflexivity].
  rewrite notify_passive by exact Hp. cbn. rewrite erase_expired_idem. reflexivity.
Qed.

End WithListeners.

(** X10: after [subscribe(type, sp)], a [publish] of that type calls
    [on_event] of the object of [sp], as long as the owners of that
    object that lived at the subscription (the one of [sp], and those it
    was subscribed through already) live when [publish] starts and no
    callback releases them.  When the object was subscribed already
    through another owner that lives, [subscribe] adds nothing, and once
    the owners it was subscribed through are released no [publish]
    reaches the object, even while the owner of [sp] lives.  After
    [unsubscribe(type, sp)] no [publish] of that type calls [on_event]
    of the object, whatever is released. *)
Theorem subscribe_unsubscribe_round_trip
    (on_event : listener -> event_data -> gset control_block -> gset control_block)
    (ev : event_data) (sp : shared_ptr) (listeners_ : listeners_map)
    (released released' : gset control_block) :
  let subscribed := default [] (listeners_ !! type ev) in
  (control sp ∉ released ->
   (forall wp, wp = sp \/ In wp subscribed -> get wp = get sp ->
      control wp ∉ released ->
      (control wp ∉ released') /\
      forall l o, control wp ∉ o -> control wp ∉ on_event l ev o) ->
   exists r,
     publish on_event ev
       (subscribe released (type ev) (Some sp) listeners_) released' = Some r /\
     In (get sp) (map get (snd r))) /\
  ((exists wp, In wp subscribed /\ get wp = get sp /\ control wp ∉ released) ->
   (forall wp, In wp subscribed -> get wp = get sp -> control wp ∈ released') ->
   subscribe released (type ev) (Some sp) listeners_ !! type ev
   = Some (erase_remove_if (expired released) subscribed) /\
   exists r,
     publish on_event ev
       (subscribe released (type ev) (Some sp) listeners_) released' = Some r /\
     ~ In (get sp) (map get (snd r))) /\
  (exists r,
     publish on_event ev
       (unsubscribe released (type ev) (Some sp) listeners_) released' = Some r /\
     ~ In (get sp) (map get (snd r))).
Proof.
  intros subscribed.
  set (live := erase_remove_if (expired released) subscribed).
  assert (S : subscribe released (type ev) (Some sp) listeners_ !! type ev
              = Some (if bool_decide (get sp ∈ map get live)
                      then live else live ++ [sp]))
    by apply subscribe_lookup.
  split; [|split].
  - intros Ho Hk. unfold publish. rewrite S.
    cbv beta iota zeta.
    set (v := if bool_decide _ then _ else _) in *.
    assert (Hv : exists wp, In wp v /\ get wp = get sp /\
                            (wp = sp \/ In wp subscribed) /\ control wp ∉ released).
    { subst v. case_bool_decide as H.
      - apply list_elem_of_In, in_map_iff in H. destruct H as (wp & Hg & Hin).
        exists wp. split; [exact Hin|]. split; [exact Hg|].
        apply EventBusProps.erase_expired_In in Hin. tauto.
      - exists sp. split; [apply in_or_app; right; left; reflexivity|]. auto. }
    destruct Hv as (wp & Hin & Hg & Hw & Hr).
    destruct (Hk wp Hw Hg Hr) as [Hr' Hc].
    destruct (EventBusProps.notify_returns on_event ev
                (erase_remove_if (expired released') v) released')
      as (r1 & inv1 & N & _).
    eexists. split; [rewrite N; reflexivity|]. cbn [snd].
    apply in_map_iff. exists wp. split; [exact Hg|].
    eapply notify_invokes; [exact Hc| |exact Hr'|exact N].
    apply EventBusProps.erase_expired_In. auto.
  - intros (wp & Hin & Hg & Hr) Hd.
    assert (Hf : bool_decide (get sp ∈ map get live) = true).
    { apply bool_decide_eq_true_2, list_elem_of_In, in_map_iff. exists wp.
      split; [exact Hg|]. apply EventBusProps.erase_expired_In. auto. }
    rewrite Hf in S. split; [exact S|].
    destruct (EventBusProps.publish_never_invokes_released_aux on_event ev
                (subscribe released (type ev) (Some sp) listeners_) released')
      as (r' & E & Hi).
    eexists. split; [exact E|]. cbn [snd]. intros H.
    apply in_map_iff in H. destruct H as (x & Hx & Hxin).
    apply Hi in Hxin. destruct Hxin as [Hxa Hxin].
    rewrite S in Hxin. cbn in Hxin.
    apply EventBusProps.erase_expired_In in Hxin.
    apply Hxa, Hd; tauto.
  - destruct (EventBusProps.publish_never_invokes_released_aux on_event ev
                (unsubscribe released (type ev) (Some sp) listeners_) released')
      as (r' & E & Hi).
    eexists. split; [exact E|]. cbn [snd]. intros H.
    apply in_map_iff in H. destruct H as (x & Hx & Hxin).
    apply Hi in Hxin. destruct Hxin as [_ Hxin].
    rewrite unsubscribe_lookup in Hxin.
    destruct (listeners_ !! type ev) as [w|]; [|destruct Hxin].
    cbn in Hxin. apply filter_In in Hxin. destruct Hxin as [_ Hxin].
    apply andb_true_iff in Hxin. destruct Hxin as [_ Hxin].
    apply negb_true_iff, bool_decide_eq_false in Hxin. contradiction.
Qed.

Lemma subscribe_unsubscribe_round_trip_witness :
  let on_event : listener -> event_data -> gset control_block -> gset control_block :=
    fun _ _ _ => ∅ in
  let a := mk_shared_ptr 10%nat 1%nat in
  let b := mk_shared_ptr 11%nat 1%nat in
  let c := mk_shared_ptr 20%nat 2%nat in
  let listeners_ : listeners_map := {[battery_low := [a]]} in
  (exists r, publish on_event (event battery_low)
               (subscribe ∅ battery_low (Some c) listeners_) {[10%nat]} = Some r /\
             In 2%nat (map get (snd r))) /\
  (subscribe ∅ battery_low (Some b) listeners_ !! battery_low = Some [a] /\
   exists r, publish on_event (event battery_low)
               (subscribe ∅ battery_low (Some b) listeners_) {[10%nat]} = Some r /\
             ~ In 1%nat (map get (snd r))) /\
  (exists r, publish on_event (event battery_low)
               (unsubscribe ∅ battery_low (Some b) listeners_) ∅ = Some r /\
             ~ In 1%nat (map get (snd r))).
Proof.
  intros on_event a b c listeners_. split; [|split].
  - destruct (subscribe_unsubscribe_round_trip on_event (event battery_low) c
                listeners_ ∅ {[10%nat]}) as (H & _ & _).
    apply H.
    + vm_compute. intros E. discriminate E.
    + intros wp [->|[<-|[]]] Hg _; [|discriminate Hg].
      split; [vm_compute; intros E; discriminate E|].
      intros l o _. vm_compute. intros E. discriminate E.
  - destruct (subscribe_unsubscribe_round_trip on_event (event battery_low) b
                listeners_ ∅ {[10%nat]}) as (_ & H & _).
    destruct H as [H1 H2].
    + exists a. split; [left; reflexivity|]. split; [reflexivity|].
      vm_compute. intros E. discriminate E.
    + intros wp [<-|[]] _. vm_compute. reflexivity.
    + split; [etransitivity; [exact H1|vm_compute; reflexivity]|exact H2].
  - destruct (subscribe_unsubscribe_round_trip on_event (event battery_low) b
                listeners_ ∅ ∅) as (_ & _ & H).
    exact H.
Defined.

(** X11: [subscribe] and [unsubscribe] for one type leave the vector of
    every other type as it is, so a [publish] of another type makes the
    same calls as before; and [publish] changes no vector but the one
    of the event's type. *)
Theorem other_event_types_are_untouched
    (on_event : listener -> event_data -> gset control_block -> gset control_block)
    (ev : event_data) (t : event_type) (l : option shared_ptr)
    (listeners_ : listeners_map) (released released' : gset control_block) :
  type ev <> t ->
  subscribe released t l listeners_ !! type ev = listeners_ !! type ev /\
  unsubscribe released t l listeners_ !! type ev = listeners_ !! type ev /\
  (exists r,
     publish on_event ev listeners_ released' = Some r /\
     snd <$> publish on_event ev (subscribe released t l listeners_) released'
     = Some (snd r) /\
     snd <$> publish on_event ev (unsubscribe released t l listeners_) released'
     = Some (snd r) /\
     forall t', t' <> type ev -> r.1.1 !! t' = listeners_ !! t').
Proof.
  intros Hne.
  pose proof (subscribe_other released t l listeners_ (type ev) Hne) as S.
  pose proof (unsubscribe_other released t l listeners_ (type ev) Hne) as U.
  split; [exact S|]. split; [exact U|].
  unfold publish. rewrite S, U.
  destruct (listeners_ !! type ev) as [v|] eqn:E.
  - destruct (EventBusProps.notify_returns on_event ev
                (erase_remove_if (expired released') v) released')
      as (r1 & inv1 & N & _).
    rewrite N. eexists. split; [reflexivity|]. cbn.
    split; [reflexivity|]. split; [reflexivity|].
    intros t' Ht. apply lookup_insert_ne. congruence.
  - eexists. split; [reflexivity|]. cbn. auto.
Qed.

Lemma other_event_types_are_untouched_witness :
  let on_event : listener -> event_data -> gset control_block -> gset control_block :=
    fun _ _ _ => ∅ in
  let a := mk_shared_ptr 10%nat 1%nat in
  let b := mk_shared_ptr 20%nat 2%nat in
  let listeners_ : listeners_map :=
    {[network_connected := [a; b]; enter_deep_sleep := [a; b]]} in
  snd <$> publish on_event (event network_connected)
            (unsubscribe ∅ enter_deep_sleep (Some b) listeners_) ∅
  = Some [a; b].
Proof.
  intros on_event a b listeners_.
  destruct (other_event_types_are_untouched on_event (event network_connected)
              enter_deep_sleep (Some b) listeners_ ∅ ∅)
    as (_ & _ & r & E & _ & H & _); [discriminate|].
  etransitivity; [exact H|]. vm_compute in E. injection E as <-. reflexivity.
Defined.

(** X12: when the callbacks release nothing, [publish] calls through
    the subscriptions of the event's type whose control block has an
    owner, all of them, in the order of the vector; and an object
    subscribed last is called last: after [subscribe(type, sp)] with
    the owner of [sp] alive, the calls are those made before, followed
    by one through [sp] unless its object is among them already. *)
Theorem delivery_in_subscription_order
    (on_event : listener -> event_data -> gset control_block -> gset control_block)
    (ev : event_data) (sp : shared_ptr) (listeners_ : listeners_map)
    (released : gset control_block) :
  (forall l o, on_event l ev o ⊆ o) ->
  let subscribed := default [] (listeners_ !! type ev) in
  let live := erase_remove_if (expired released) subscribed in
  snd <$> publish on_event ev listeners_ released = Some live /\
  (control sp ∉ released ->
   snd <$> publish on_event ev
             (subscribe released (type ev) (Some sp) listeners_) released
   = Some (if bool_decide (get sp ∈ map get live) then live else live ++ [sp])).
Proof.
  intros Hp subscribed live.
  split; [apply publish_passive, Hp|].
  intros Ho. rewrite publish_passive by exact Hp.
  rewrite subscribe_lookup. cbn [default]. cbv zeta. fold subscribed. fold live.
  unfold id. f_equal. destruct (bool_decide (get sp ∈ map get live)).
  - apply erase_expired_idem.
  - rewrite erase_expired_app. unfold live at 1. rewrite erase_expired_idem.
    f_equal. unfold erase_remove_if. cbn.
    apply EventBusProps.expired_false in Ho. rewrite Ho. reflexivity.
Qed.

Lemma delivery_in_subscription_order_witness :
  let on_event : listener -> event_data -> gset control_block -> gset control_block :=
    fun _ _ _ => ∅ in
  let p1 := mk_shared_ptr 10%nat 1%nat in
  let p1' := mk_shared_ptr 11%nat 1%nat in
  let p2 := mk_shared_ptr 20%nat 2%nat in
  let p3 := mk_shared_ptr 30%nat 3%nat in
  let p4 := mk_shared_ptr 40%nat 4%nat in
  let listeners_ : listeners_map := {[battery_low := [p3; p2; p1]]} in
  let released : gset control_block := {[20%nat]} in
  snd <$> publish on_event (event battery_low) listeners_ released
  = Some [p3; p1] /\
  snd <$> publish on_event (event battery_low)
            (subscribe released battery_low (Some p4) listeners_) released
  = Some [p3; p1; p4] /\
  snd <$> publish on_event (event battery_low)
            (subscribe released battery_low (Some p1') listeners_) released
  = Some [p3; p1].
Proof.
  intros on_event p1 p1' p2 p3 p4 listeners_ released.
  assert (Hp : forall l o, on_event l (event battery_low) o ⊆ o)
    by (intros l o x Hx; vm_compute in Hx; discriminate Hx).
  split; [|split].
  - destruct (delivery_in_subscription_order on_event (event battery_low) p4
                listeners_ released Hp) as [H1 _].
    etransitivity; [exact H1|]. vm_compute. reflexivity.
  - destruct (delivery_in_subscription_order on_event (event battery_low) p4
                listeners_ released Hp) as [_ H2].
    etransitivity; [apply H2; vm_compute; intros H; discriminate H|].
    vm_compute. reflexivity.
  - destruct (delivery_in_subscription_order on_event (event battery_low) p1'
                listeners_ released Hp) as [_ H2].
    etransitivity; [apply H2; vm_compute; intros H; discriminate H|].
    vm_compute. reflexivity.
Defined.

(** ** Runs of the bus *)

Lemma filter_filter_sublist {A} (p q : A -> bool) (v : list A) :
  sublist (List.filter p (List.filter q v)) (List.filter p v).
Proof.
  induction v as [|x v IH]; cbn; [constructor|].
  destruct (q x) eqn:Q; cbn; destruct (p x); try constructor; exact IH.
Qed.

(** In every vector of the table the subscriptions that have an owner
    are of distinct objects. *)
Local Abbreviation live_distinct listeners_ released :=
  (forall t v, listeners_ !! t = Some v ->
     List.NoDup (map get (erase_remove_if (expired released) v))).

Lemma live_distinct_mono (listeners_ : listeners_map)
    (released released' : gset control_block) :
  released ⊆ released' ->
  live_distinct listeners_ released -> live_distinct listeners_ released'.
Proof.
  intros H I t v E. eapply sublist_ListNoDup; [|exact (I t v E)].
  apply sublist_map, erase_expired_mono, H.
Qed.

Lemma subscribe_live_distinct released t l (listeners_ : listeners_map) :
  live_distinct listeners_ released ->
  live_distinct (subscribe released t l listeners_) released.
Proof.
  intros I t' v. destruct l as [l|]; [|apply I].
  destruct (decide (t' = t)) as [->|Hne].
  - rewrite subscribe_lookup. cbv zeta. intros [= <-].
    set (live := erase_remove_if (expired released) (default [] (listeners_ !! t))).
    assert (Hl : List.NoDup (map get live)).
    { subst live. destruct (listeners_ !! t) as [w|] eqn:E; cbn;
        [eapply I, E|constructor]. }
    assert (Hi : erase_remove_if (expired released) live = live)
      by apply erase_expired_idem.
    case_bool_decide as H; [rewrite Hi; exact Hl|].
    rewrite erase_expired_app, Hi.
    change (erase_remove_if (expired released) [l])
      with (if negb (expired released l) then [l] else []).
    destruct (negb (expired released l)).
    + rewrite map_app. apply DeviceManagerProps.NoDup_snoc; [exact Hl|].
      rewrite <- list_elem_of_In. exact H.
    + rewrite app_nil_r. exact Hl.
  - rewrite subscribe_other by exact Hne. apply I.
Qed.

Lemma unsubscribe_live_distinct released t l (listeners_ : listeners_map) :
  live_distinct listeners_ released ->
  live_distinct (unsubscribe released t l listeners_) released.
Proof.
  intros I t' v. destruct l as [l|]; [|apply I].
  destruct (decide (t' = t)) as [->|Hne].
  - rewrite unsubscribe_lookup.
    destruct (listeners_ !! t) as [w|] eqn:E; cbn; [|discriminate].
    intros [= <-]. eapply sublist_ListNoDup; [|exact (I t w E)].
    apply sublist_map. unfold erase_remove_if. apply filter_filter_sublist.
  - rewrite unsubscribe_other by exact Hne. apply I.
Qed.

Section Runs.

Variable on_event :
  listener -> event_data -> gset control_block -> gset control_block.

Lemma publish_live_distinct ev (listeners_ : listeners_map) released :
  live_distinct listeners_ released ->
  exists listeners_' released' invoked,
    publish on_event ev listeners_ released
    = Some (listeners_', released', invoked) /\
    released ⊆ released' /\
    live_distinct listeners_' released' /\
    List.NoDup (map get invoked).
Proof.
  intros I.
  destruct (EventBusProps.publish_returns on_event ev listeners_ released)
    as (r' & inv & E & Hr & Hs & _). cbv zeta in E, Hs.
  eexists _, r', inv. split; [exact E|]. split; [exact Hr|].
  destruct (listeners_ !! type ev) as [w|] eqn:L; cbn in *.
  - split.
    + intros t v. destruct (decide (t = type ev)) as [->|Hne].
      * rewrite lookup_insert_eq. intros [= <-].
        eapply sublist_ListNoDup; [|exact (I _ w L)].
        apply sublist_map.
        rewrite <- (erase_expired_idem released w) at 2.
        apply erase_expired_mono, Hr.
      * rewrite lookup_insert_ne by congruence.
        apply (live_distinct_mono listeners_ released r' Hr I).
    + eapply sublist_ListNoDup; [|exact (I _ w L)]. apply sublist_map, Hs.
  - split; [apply (live_distinct_mono listeners_ released r' Hr I)|].
    apply sublist_nil_r in Hs. subst inv. constructor.
Qed.

Lemma run_bus_calls_NoDup cs : forall (listeners_ : listeners_map) released,
  live_distinct listeners_ released ->
  exists r,
    run_bus_calls on_event cs listeners_ released = Some r /\
    Forall (fun invoked => List.NoDup (map get invoked)) (snd r).
Proof.
  induction cs as [|c cs IH]; intros listeners_ released I; cbn [run_bus_calls].
  - eexists. split; [reflexivity|]. constructor.
  - assert (S1 : exists l1 r1 out1,
               run_bus_call on_event c listeners_ released = Some (l1, r1, out1) /\
               live_distinct l1 r1 /\
               forall inv, out1 = Some inv -> List.NoDup (map get inv)).
    { destruct c as [t l|t l|ev|b]; cbn [run_bus_call].
      - eexists _, _, _. split; [reflexivity|].
        split; [apply subscribe_live_distinct, I|discriminate].
      - eexists _, _, _. split; [reflexivity|].
        split; [apply unsubscribe_live_distinct, I|discriminate].
      - destruct (publish_live_distinct ev listeners_ released I)
          as (l1 & r1 & inv & E & _ & I1 & N).
        rewrite E. eexists _, _, _. split; [reflexivity|].
        split; [exact I1|]. intros ? [= <-]. exact N.
      - eexists _, _, _. split; [reflexivity|].
        split; [|discriminate].
        apply (live_distinct_mono listeners_ released); [set_solver|exact I]. }
    destruct S1 as (l1 & r1 & out1 & E1 & I1 & N1). rewrite E1.
    destruct (IH l1 r1 I1) as ([[l2 r2] out2] & E2 & F2). rewrite E2.
    eexists. split; [reflexivity|]. cbn [snd] in *.
    destruct out1 as [inv|]; [|exact F2].
    constructor; [apply N1; reflexivity|exact F2].
Qed.

(** Every step lets the released set grow, and a [publish] calls
    through no released control block. *)
Lemma run_bus_call_returns c (listeners_ : listeners_map) released :
  exists l1 r1 out1,
    run_bus_call on_event c listeners_ released = Some (l1, r1, out1) /\
    released ⊆ r1 /\
    forall inv sp, out1 = Some inv -> In sp inv -> control sp ∉ released.
Proof.
  destruct c as [t l|t l|ev|b]; cbn [run_bus_call];
    try (eexists _, _, _; split; [reflexivity|]; split; [set_solver|discriminate]).
  destruct (EventBusProps.publish_returns on_event ev listeners_ released)
    as (r' & inv & E & Hr & Hs & _). cbv zeta in E, Hs.
  rewrite E. eexists _, _, _. split; [reflexivity|]. split; [exact Hr|].
  intros ? sp [= <-] Hin. apply (EventBusProps.sublist_In _ _ _ Hs) in Hin.
  destruct (listeners_ !! type ev) as [w|]; cbn in Hin; [|destruct Hin].
  apply EventBusProps.erase_expired_In in Hin. tauto.
Qed.

(** [publish] adds no subscription to the table. *)
Lemma publish_shrinks ev (listeners_ : listeners_map) released :
  exists listeners_' released' invoked,
    publish on_event ev listeners_ released
    = Some (listeners_', released', invoked) /\
    released ⊆ released' /\
    forall t v' wp, listeners_' !! t = Some v' -> In wp v' ->
      exists v, listeners_ !! t = Some v /\ In wp v.
Proof.
  destruct (EventBusProps.publish_returns on_event ev listeners_ released)
    as (r' & inv & E & Hr & _). cbv zeta in E.
  eexists _, r', inv. split; [exact E|]. split; [exact Hr|].
  destruct (listeners_ !! type ev) as [w|] eqn:L; cbn; [|eauto].
  intros t v' wp. destruct (decide (t = type ev)) as [->|Hne].
  - rewrite lookup_insert_eq. intros [= <-] Hin.
    apply EventBusProps.erase_expired_In in Hin. exists w. tauto.
  - rewrite lookup_insert_ne by congruence. eauto.
Qed.

(** A control block that is released is called through by no later
    [publish]. *)
Lemma run_bus_calls_dead b cs : forall (listeners_ : listeners_map) released,
  b ∈ released ->
  exists r,
    run_bus_calls on_event cs listeners_ released = Some r /\
    Forall (fun invoked => forall sp, In sp invoked -> control sp <> b) (snd r).
Proof.
  induction cs as [|c cs IH]; intros listeners_ released Hb; cbn [run_bus_calls].
  - eexists. split; [reflexivity|]. constructor.
  - destruct (run_bus_call_returns c listeners_ released)
      as (l1 & r1 & out1 & E1 & Hr & Hi). rewrite E1.
    destruct (IH l1 r1 (Hr _ Hb)) as ([[l2 r2] out2] & E2 & F2). rewrite E2.
    eexists. split; [reflexivity|]. cbn [snd] in *.
    destruct out1 as [inv|]; [|exact F2].
    constructor; [|exact F2]. intros sp Hin Hsp.
    apply (Hi inv sp eq_refl Hin). rewrite Hsp. exact Hb.
Qed.

End Runs.

(** The subscriptions of the object at an address all refer to control
    blocks of a given set. *)
Local Abbreviation subscribed_through a listeners_ X :=
  (forall t v wp, listeners_ !! t = Some v -> In wp v -> get wp = a ->
     control wp ∈ X).

Lemma subscribe_subscribed_through a (X : gset control_block) released t l
    (listeners_ : listeners_map) :
  (forall sp, l = Some sp -> get sp = a -> control sp ∈ X) ->
  subscribed_through a listeners_ X ->
  subscribed_through a (subscribe released t l listeners_) X.
Proof.
  intros Hl J t' v wp. destruct l as [l|]; [|apply J].
  destruct (decide (t' = t)) as [->|Hne].
  - rewrite subscribe_lookup. cbv zeta. intros [= <-] Hin Hg.
    assert (Hv : forall x, In x (erase_remove_if (expired released)
                                   (default [] (listeners_ !! t))) ->
                           get x = a -> control x ∈ X).
    { intros x Hx Hxg. apply EventBusProps.erase_expired_In in Hx.
      destruct Hx as [Hx _].
      destruct (listeners_ !! t) as [w|] eqn:E; cbn in Hx; [|destruct Hx].
      eapply J; eassumption. }
    case_bool_decide as H; [apply Hv; assumption|].
    apply in_app_or in Hin. destruct Hin as [Hin|[<-|[]]];
      [apply Hv; assumption|].
    apply Hl; [reflexivity|exact Hg].
  - rewrite subscribe_other by exact Hne. apply J.
Qed.

Lemma unsubscribe_subscribed_through a (X : gset control_block) released t l
    (listeners_ : listeners_map) :
  subscribed_through a listeners_ X ->
  subscribed_through a (unsubscribe released t l listeners_) X.
Proof.
  intros J t' v wp. destruct l as [l|]; [|apply J].
  destruct (decide (t' = t)) as [->|Hne].
  - rewrite unsubscribe_lookup.
    destruct (listeners_ !! t) as [w|] eqn:E; cbn; [|discriminate].
    intros [= <-] Hin. apply filter_In in Hin. destruct Hin as [Hin _].
    eapply J; eassumption.
  - rewrite unsubscribe_other by exact Hne. apply J.
Qed.

Section Deaf.

Variable on_event :
  listener -> event_data -> gset control_block -> gset control_block.

(** [publish] keeps the subscriptions of an object within the set, and
    does not reach the object when the set is released. *)
Lemma publish_subscribed_through a (X : gset control_block) ev
    (listeners_ : listeners_map) released :
  subscribed_through a listeners_ X ->
  exists listeners_' released' invoked,
    publish on_event ev listeners_ released
    = Some (listeners_', released', invoked) /\
    released ⊆ released' /\
    subscribed_through a listeners_' X /\
    (X ⊆ released -> ~ In a (map get invoked)).
Proof.
  intros J.
  destruct (EventBusProps.publish_returns on_event ev listeners_ released)
    as (r' & inv & E & Hr & Hs & _). cbv zeta in E, Hs.
  eexists _, r', inv. split; [exact E|]. split; [exact Hr|].
  destruct (listeners_ !! type ev) as [w|] eqn:L; cbn in *.
  - split.
    + intros t v wp. destruct (decide (t = type ev)) as [->|Hne].
      * rewrite lookup_insert_eq. intros [= <-] Hin.
        apply EventBusProps.erase_expired_In in Hin. destruct Hin as [Hin _].
        eapply J; eassumption.
      * rewrite lookup_insert_ne by congruence. apply J.
    + intros HX Hin. apply in_map_iff in Hin. destruct Hin as (x & Hg & Hin).
      apply (EventBusProps.sublist_In _ _ _ Hs), EventBusProps.erase_expired_In in Hin.
      destruct Hin as [Hin Ha]. apply Ha, HX. eapply J; eassumption.
  - split; [exact J|]. apply sublist_nil_r in Hs. subst inv. intros _ [].
Qed.

(** An object whose subscriptions are all released is reached by no
    later [publish], as long as it is not subscribed again. *)
Lemma run_bus_calls_deaf a cs : forall (listeners_ : listeners_map) released,
  subscribed_through a listeners_ released ->
  Forall (fun c => forall t sp, c = call_subscribe t (Some sp) -> get sp <> a) cs ->
  exists r,
    run_bus_calls on_event cs listeners_ released = Some r /\
    Forall (fun invoked => ~ In a (map get invoked)) (snd r).
Proof.
  induction cs as [|c cs IH]; intros listeners_ released J Hc; cbn [run_bus_calls].
  - eexists. split; [reflexivity|]. constructor.
  - apply Forall_cons in Hc. destruct Hc as [Hc Hcs].
    assert (S1 : exists l1 r1 out1,
               run_bus_call on_event c listeners_ released = Some (l1, r1, out1) /\
               subscribed_through a l1 r1 /\
               forall inv, out1 = Some inv -> ~ In a (map get inv)).
    { destruct c as [t l|t l|ev|b]; cbn [run_bus_call].
      - eexists _, _, _. split; [reflexivity|]. split; [|discriminate].
        apply subscribe_subscribed_through; [|exact J].
        intros sp -> Hg. exfalso. exact (Hc t sp eq_refl Hg).
      - eexists _, _, _. split; [reflexivity|]. split; [|discriminate].
        apply unsubscribe_subscribed_through, J.
      - destruct (publish_subscribed_through a released ev listeners_ released J)
          as (l1 & r1 & inv & E & Hr & J1 & N).
        rewrite E. eexists _, _, _. split; [reflexivity|]. split.
        + intros t v wp Hv Hin Hg. apply Hr. eapply J1; eassumption.
        + intros ? [= <-]. apply N. reflexivity.
      - eexists _, _, _. split; [reflexivity|]. split; [|discriminate].
        intros t v wp Hv Hin Hg. apply elem_of_union_r. eapply J; eassumption. }
    destruct S1 as (l1 & r1 & out1 & E1 & J1 & N1). rewrite E1.
    destruct (IH l1 r1 J1 Hcs) as ([[l2 r2] out2] & E2 & F2). rewrite E2.
    eexists. split; [reflexivity|]. cbn [snd] in *.
    destruct out1 as [inv|]; [|exact F2].
    constructor; [apply N1; reflexivity|exact F2].
Qed.

End Deaf.

(** X13: starting from an empty table, whatever is subscribed,
    unsubscribed and published through whichever owners, and whichever
    owners are released in between, every [publish] completes and none
    calls [on_event] of an object twice. *)
Theorem no_listener_invoked_twice
    (on_event : listener -> event_data -> gset control_block -> gset control_block)
    (cs : list bus_call) (released : gset control_block) :
  exists r,
    run_bus_calls on_event cs ∅ released = Some r /\
    Forall (fun invoked => List.NoDup (map get invoked)) (snd r).
Proof.
  apply run_bus_calls_NoDup. intros t v H. rewrite lookup_empty in H. discriminate.
Qed.

End BusSubscriptions.

(* ===================================================================== *)
(** * Invariants of the battery monitor *)
(* ===================================================================== *)

Module BatteryMonitor.

Import EventBus Battery.

Section Invariants.

Variable invalid_cast : F32.float -> Z.

(** A tick keeps the thresholds. *)
Lemma update_keeps_thresholds device m :
  low_battery_threshold_ (fst (update_battery_state invalid_cast device m))
  = low_battery_threshold_ m /\
  critical_battery_threshold_ (fst (update_battery_state invalid_cast device m))
  = critical_battery_threshold_ m.
Proof.
  destruct device as [r|]; [|split; reflexivity].
  unfold update_battery_state.
  destruct (check_temperature _ _) as [c w]. split; reflexivity.
Qed.

Lemma step_keeps_thresholds_in_range i m :
  5 <= low_battery_threshold_ m <= 50 ->
  1 <= critical_battery_threshold_ m <= 20 ->
  5 <= low_battery_threshold_ (step invalid_cast i m) <= 50 /\
  1 <= critical_battery_threshold_ (step invalid_cast i m) <= 20.
Proof.
  intros Hl Hc. destruct i as [device|present ev|p|p]; cbn [step].
  - destruct (update_keeps_thresholds device m) as [-> ->]. auto.
  - unfold on_event. destruct (type ev); cbn; auto.
  - unfold set_low_battery_threshold.
    destruct (p <? 5) eqn:E1; cbn; [auto|].
    destruct (p >? 50) eqn:E2; cbn; [auto|].
    apply Z.ltb_ge in E1. rewrite Z.gtb_ltb in E2. apply Z.ltb_ge in E2. lia.
  - unfold set_critical_battery_threshold.
    destruct (p <? 1) eqn:E1; cbn; [auto|].
    destruct (p >? 20) eqn:E2; cbn; [auto|].
    apply Z.ltb_ge in E1. rewrite Z.gtb_ltb in E2. apply Z.ltb_ge in E2. lia.
Qed.

(** The state reports charging exactly when the charging state does. *)
Lemma step_keeps_charging_agreement i m :
  (current_state_ m = battery_state.charging <->
   charging_state_ m <> charging_state.not_charging) ->
  (current_state_ (step invalid_cast i m) = battery_state.charging <->
   charging_state_ (step invalid_cast i m) <> charging_state.not_charging).
Proof.
  intros H. destruct i as [device|present ev|p|p]; cbn [step].
  - destruct device as [r|]; [|exact H].
    unfold update_battery_state.
    destruct (check_temperature _ _) as [c w]. cbn.
    unfold next_battery_state, next_charging_state.
    destruct (is_charging r).
    + split; [|reflexivity]. intros _.
      destruct (F32.lt _ _); [discriminate|].
      destruct (F32.lt _ _); [discriminate|].
      destruct (F32.lt _ _); [discriminate|].
      destruct (_ >=? _); discriminate.
    + split; [|intros E; contradiction E; reflexivity].
      destruct (_ <=? _); [discriminate|].
      destruct (_ <=? _); [discriminate|].
      destruct (_ >? _); [discriminate|].
      destruct (_ >=? _); discriminate.
  - unfold on_event. destruct (type ev); cbn; exact H.
  - unfold set_low_battery_threshold.
    destruct (_ || _); cbn; exact H.
  - unfold set_critical_battery_threshold.
    destruct (_ || _); cbn; exact H.
Qed.

End Invariants.

(** X14: built with thresholds inside the ranges the configuration
    allows (low from 5 to 50, critical from 1 to 20), a manager keeps
    them inside these ranges through every sequence of ticks, events
    and calls of the two setters, whatever values the setters are
    given. *)
Theorem thresholds_stay_in_range
    (invalid_cast : F32.float -> Z) (low critical : Z) (inputs : list input) :
  5 <= low <= 50 ->
  1 <= critical <= 20 ->
  let m := run invalid_cast inputs (new low critical) in
  5 <= low_battery_threshold_ m <= 50 /\
  1 <= critical_battery_threshold_ m <= 20.
Proof.
  intros Hl Hc. unfold run.
  assert (G : forall m,
             5 <= low_battery_threshold_ m <= 50 ->
             1 <= critical_battery_threshold_ m <= 20 ->
             5 <= low_battery_threshold_
                    (fold_left (fun m i => step invalid_cast i m) inputs m) <= 50 /\
             1 <= critical_battery_threshold_
                    (fold_left (fun m i => step invalid_cast i m) inputs m) <= 20).
  { induction inputs as [|i inputs IH]; intros m H1 H2; cbn; [auto|].
    destruct (step_keeps_thresholds_in_range invalid_cast i m H1 H2).
    apply IH; assumption. }
  apply G; assumption.
Qed.

Lemma thresholds_stay_in_range_witness :
  let m := run (fun _ => 0) [in_set_low_battery_threshold 60;
                             in_set_critical_battery_threshold 15;
                             in_tick (Some (sample_at 25));
                             in_set_low_battery_threshold 4] (new 20 10) in
  (5 <= low_battery_threshold_ m <= 50 /\
   1 <= critical_battery_threshold_ m <= 20) /\
  low_battery_threshold_ m = 20 /\ critical_battery_threshold_ m = 15.
Proof.
  intros m. split.
  - apply (thresholds_stay_in_range (fun _ => 0) 20 10); lia.
  - vm_compute. split; reflexivity.
Defined.

(** X15: after every sequence of ticks, events and setter calls on a
    new manager, the battery state is [charging] exactly when the
    charging state is not [not_charging]. *)
Theorem charging_reported_consistently
    (invalid_cast : F32.float -> Z) (low critical : Z) (inputs : list input) :
  let m := run invalid_cast inputs (new low critical) in
  current_state_ m = battery_state.charging <->
  charging_state_ m <> charging_state.not_charging.
Proof.
  unfold run.
  assert (G : forall m,
             (current_state_ m = battery_state.charging <->
              charging_state_ m <> charging_state.not_charging) ->
             (current_state_ (fold_left (fun m i => step invalid_cast i m) inputs m)
              = battery_state.charging <->
              charging_state_ (fold_left (fun m i => step invalid_cast i m) inputs m)
              <> charging_state.not_charging)).
  { induction inputs as [|i inputs IH]; intros m H; cbn; [exact H|].
    apply IH, step_keeps_charging_agreement, H. }
  apply G. cbn. split; [discriminate|]. intros H. contradiction H. reflexivity.
Qed.

(** X16: the setters do not compare the two thresholds.  When the low
    threshold is not above the critical one, a tick keeps it so, never
    leaves the manager in the state [low] and never publishes
    [battery_low]. *)
Theorem low_needs_low_above_critical
    (invalid_cast : F32.float -> Z) (device : option reading) (m : battery_manager) :
  low_battery_threshold_ m <= critical_battery_threshold_ m ->
  (low_battery_threshold_ (fst (update_battery_state invalid_cast device m))
   <= critical_battery_threshold_ (fst (update_battery_state invalid_cast device m))) /\
  (device <> None ->
   current_state_ (fst (update_battery_state invalid_cast device m))
   <> battery_state.low) /\
  ~ In (bus_publish (event battery_low))
       (snd (update_battery_state invalid_cast device m)).
Proof.
  intros H.
  destruct (update_keeps_thresholds invalid_cast device m) as [-> ->].
  split; [exact H|].
  destruct device as [r|]; [|split; [congruence|intros []]].
  unfold update_battery_state.
  destruct (check_temperature (temperature r) (temp_warning_active_ m)) as [c w] eqn:C.
  cbn [fst snd current_state_].
  assert (N : next_battery_state (is_charging r)
                (calculate_percentage invalid_cast (voltage r))
                (critical_battery_threshold_ m) (low_battery_threshold_ m)
              <> battery_state.low).
  { unfold next_battery_state. destruct (is_charging r); [discriminate|].
    destruct (_ <=? critical_battery_threshold_ m) eqn:E1; [discriminate|].
    destruct (_ <=? low_battery_threshold_ m) eqn:E2.
    - apply Z.leb_gt in E1. apply Z.leb_le in E2. lia.
    - destruct (_ >? _); [discriminate|]. destruct (_ >=? _); discriminate. }
  split; [intros _; exact N|].
  intros Hin. apply in_app_or in Hin. destruct Hin as [Hin|Hin].
  - unfold check_temperature in C.
    destruct (F32.gt _ _).
    + destruct (negb _); injection C as <- _;
        cbn in Hin; intuition discriminate.
    + destruct (_ && _); injection C as <- _;
        cbn in Hin; intuition discriminate.
  - unfold state_change_calls in Hin.
    destruct (bool_decide _); [|destruct Hin].
    destruct (next_battery_state _ _ _ _); cbn in Hin;
      try contradiction; try (intuition discriminate).
Qed.

Lemma low_needs_low_above_critical_witness :
  let m := set_critical_battery_threshold 20
             (set_low_battery_threshold 10 (new 20 10)) in
  low_battery_threshold_ m = 10 /\ critical_battery_threshold_ m = 20 /\
  current_state_ (fst (update_battery_state (fun _ => 0)
                         (Some (walk_sample 310)) m))
  <> battery_state.low.
Proof.
  intros m. split; [reflexivity|]. split; [reflexivity|].
  apply (low_needs_low_above_critical (fun _ => 0) (Some (walk_sample 310)) m).
  - vm_compute. discriminate.
  - discriminate.
Defined.

End BatteryMonitor.

(* ===================================================================== *)
(** * Polling and initialisation of the battery monitor *)
(* ===================================================================== *)

Module BatteryPolling.

Import EventBus Battery.

(** The millisecond clock of [loop()] at tick [n] of the scheduler,
    whose counter wraps like the clock does. *)
Lemma uint32_clock (n P : Z) : uint32 (uint32 n * P) = uint32 (n * P).
Proof. unfold uint32. apply Z.mul_mod_idemp_l. discriminate. Qed.

(** The difference of two readings of a wrapping clock is the time
    between them, as long as that is less than one turn of the clock. *)
Lemma uint32_elapsed (t0 t : Z) :
  0 <= t - t0 < 2 ^ 32 -> uint32 (uint32 t - uint32 t0) = t - t0.
Proof.
  intros H. unfold uint32. rewrite <- Zminus_mod. apply Z.mod_small. exact H.
Qed.

(** X17: [loop()] at tick [n] of the scheduler, after the last sampling
    at tick [n0], samples the battery exactly when 10000 ms or more
    have passed, and then records the time of the call; this holds
    across the wrap of the 32-bit tick counter and of the millisecond
    clock computed from it, as long as less than [2 ^ 32] ms passed
    between the two calls. *)
Theorem loop_samples_every_ten_seconds
    (invalid_cast : F32.float -> Z) (portTICK_PERIOD_MS : Z)
    (n0 n : Z) (device : option reading) (m : battery_manager) :
  0 <= (n - n0) * portTICK_PERIOD_MS < 2 ^ 32 ->
  let last_check_time := uint32 (uint32 n0 * portTICK_PERIOD_MS) in
  let now := uint32 (uint32 n * portTICK_PERIOD_MS) in
  loop invalid_cast portTICK_PERIOD_MS (uint32 n) device last_check_time m
  = if 10000 <=? (n - n0) * portTICK_PERIOD_MS
    then (now, fst (update_battery_state invalid_cast device m),
          snd (update_battery_state invalid_cast device m))
    else (last_check_time, m, []).
Proof.
  intros H last_check_time now. unfold loop. fold now.
  subst last_check_time now. rewrite !uint32_clock.
  rewrite uint32_elapsed by (replace (n * portTICK_PERIOD_MS - n0 * portTICK_PERIOD_MS)
                               with ((n - n0) * portTICK_PERIOD_MS) by ring; exact H).
  replace (n * portTICK_PERIOD_MS - n0 * portTICK_PERIOD_MS)
    with ((n - n0) * portTICK_PERIOD_MS) by ring.
  unfold BATTERY_CHECK_INTERVAL_MS. rewrite Z.geb_leb.
  destruct (10000 <=? _); [|reflexivity].
  destruct (update_battery_state invalid_cast device m). reflexivity.
Qed.

Lemma loop_samples_every_ten_seconds_witness :
  let m := new 20 10 in
  let last_check_time := uint32 (uint32 429495900 * 10) in
  last_check_time = 4294959000 /\
  loop (fun _ => 0) 10 (uint32 429496800) None last_check_time m
  = (last_check_time, m, []) /\
  loop (fun _ => 0) 10 (uint32 429496900) None last_check_time m
  = (1704, m, []).
Proof.
  intros m last_check_time. split; [reflexivity|]. split.
  - apply (loop_samples_every_ten_seconds (fun _ => 0) 10 429495900 429496800 None m).
    vm_compute. split; [discriminate|reflexivity].
  - apply (loop_samples_every_ten_seconds (fun _ => 0) 10 429495900 429496900 None m).
    vm_compute. split; [discriminate|reflexivity].
Defined.

Section FirstTick.

Variable on_event :
  listener -> event_data -> gset control_block -> gset control_block.

(** The publications of a tick complete; they release only more and
    add no subscription to the table. *)
Lemma publish_calls_returns calls :
  forall (listeners_ : listeners_map) released,
  exists listeners_' released',
    publish_calls on_event calls listeners_ released
    = Some (listeners_', released') /\
    released ⊆ released' /\
    forall t v' wp, listeners_' !! t = Some v' -> In wp v' ->
      exists v, listeners_ !! t = Some v /\ In wp v.
Proof.
  induction calls as [|c calls IH]; intros listeners_ released;
    cbn [publish_calls].
  - eexists _, _. split; [reflexivity|]. split; [reflexivity|eauto].
  - destruct c as [| |ev]; try apply IH.
    destruct (BusSubscriptions.publish_shrinks on_event ev listeners_ released)
      as (l1 & r1 & inv & E & Hr & S1).
    rewrite E. destruct (IH l1 r1) as (l2 & r2 & E2 & Hr2 & S2).
    eexists _, _. split; [exact E2|]. split.
    + intros x Hx. apply Hr2, Hr, Hx.
    + intros t v' wp Hv Hin. destruct (S2 t v' wp Hv Hin) as (v1 & Hv1 & Hin1).
      eapply S1; eassumption.
Qed.

End FirstTick.

(** X18: [init(device)] with a null device returns false and subscribes
    nothing.  With a device it returns true after the first tick, and
    the owner it made for its three subscriptions, a local variable, is
    released when it returns: no [publish] of any later run of the bus
    calls through that control block.  When the manager was not
    subscribed through an owner that lives, and is not subscribed again,
    no later [publish] calls the [on_event] of the manager at all. *)
Theorem init_subscriptions_expire
    (invalid_cast : F32.float -> Z)
    (on_event : listener -> event_data -> gset control_block -> gset control_block)
    (r : reading) (listener_ptr : shared_ptr)
    (listeners_ : listeners_map) (released : gset control_block)
    (m : battery_manager) (cs : list bus_call) :
  init invalid_cast on_event None listener_ptr listeners_ released m
  = Some (false, m, [], listeners_, released) /\
  exists m' calls listeners_' released',
    init invalid_cast on_event (Some r) listener_ptr listeners_ released m
    = Some (true, m', calls, listeners_', released') /\
    (m', calls) = update_battery_state invalid_cast (Some r) m /\
    control listener_ptr ∈ released' /\
    released ⊆ released' /\
    (exists out,
       run_bus_calls on_event cs listeners_' released' = Some out /\
       Forall (fun invoked =>
                 forall sp, In sp invoked -> control sp <> control listener_ptr)
              (snd out)) /\
    ((forall t v wp, listeners_ !! t = Some v -> In wp v ->
        get wp = get listener_ptr -> control wp ∈ released) ->
     Forall (fun c => forall t sp, c = call_subscribe t (Some sp) ->
                                   get sp <> get listener_ptr) cs ->
     exists out,
       run_bus_calls on_event cs listeners_' released' = Some out /\
       Forall (fun invoked => ~ In (get listener_ptr) (map get invoked))
              (snd out)).
Proof.
  split; [reflexivity|]. unfold init.
  destruct (update_battery_state invalid_cast (Some r) m) as [m' calls].
  set (X := {[control listener_ptr]} ∪ released).
  set (l3 := subscribe released enter_deep_sleep (Some listener_ptr) _).
  assert (J3 : (forall t v wp, listeners_ !! t = Some v -> In wp v ->
                  get wp = get listener_ptr -> control wp ∈ released) ->
               forall t v wp, l3 !! t = Some v -> In wp v ->
                 get wp = get listener_ptr -> control wp ∈ X).
  { intros J. subst l3.
    repeat (apply BusSubscriptions.subscribe_subscribed_through;
            [intros sp [= <-] _; subst X; set_solver|]).
    intros t v wp Hv Hin Hg. subst X. apply elem_of_union_r. eapply J; eassumption. }
  destruct (publish_calls_returns on_event calls l3 released)
    as (l4 & r4 & E & Hr & S4).
  rewrite E. eexists m', calls, l4, _. split; [reflexivity|].
  split; [reflexivity|]. split; [set_solver|]. split; [set_solver|]. split.
  - apply BusSubscriptions.run_bus_calls_dead. set_solver.
  - intros J Hc.
    apply BusSubscriptions.run_bus_calls_deaf; [|exact Hc].
    intros t v wp Hv Hin Hg. destruct (S4 t v wp Hv Hin) as (v3 & Hv3 & Hin3).
    pose proof (J3 J t v3 wp Hv3 Hin3 Hg) as HX. subst X.
    apply elem_of_union in HX. destruct HX as [HX|HX].
    + apply elem_of_union_l, HX.
    + apply elem_of_union_r, Hr, HX.
Qed.

(** The system listener at address 1 is subscribed to
    [enter_deep_sleep] through the control block 10; the manager is at
    address 2 and [init] makes the control block 20 for it. *)
Lemma init_subscriptions_expire_witness :
  let on_event : listener -> event_data -> gset control_block -> gset control_block :=
    fun _ _ _ => ∅ in
  let system_listener := mk_shared_ptr 10%nat 1%nat in
  let listener_ptr := mk_shared_ptr 20%nat 2%nat in
  let listeners_ : listeners_map := {[enter_deep_sleep := [system_listener]]} in
  let cs := [call_publish (event enter_deep_sleep);
             call_publish (event network_connected)] in
  exists m' calls listeners_' released',
    init (fun _ => 0) on_event (Some (sample_at 25)) listener_ptr listeners_ ∅
      (new 20 10)
    = Some (true, m', calls, listeners_', released') /\
    listeners_' !! enter_deep_sleep = Some [system_listener; listener_ptr] /\
    listeners_' !! network_connected = Some [listener_ptr] /\
    released' = {[20%nat]} /\
    exists out,
      run_bus_calls on_event cs listeners_' released' = Some out /\
      snd out = [[system_listener]; []] /\
      Forall (fun invoked => ~ In 2%nat (map get invoked)) (snd out).
Proof.
  intros on_event system_listener listener_ptr listeners_ cs.
  destruct (init_subscriptions_expire (fun _ => 0) on_event (sample_at 25)
              listener_ptr listeners_ ∅ (new 20 10) cs)
    as (_ & m' & calls & l' & r' & E & _ & _ & _ & _ & H).
  exists m', calls, l', r'. split; [exact E|].
  assert (E' := E). vm_compute in E'. injection E' as _ _ El Er.
  split; [rewrite <- El; vm_compute; reflexivity|].
  split; [rewrite <- El; vm_compute; reflexivity|].
  split; [rewrite <- Er; vm_compute; reflexivity|].
  destruct H as (out & Eo & F).
  - intros t v wp Hv Hin Hg.
    destruct t; vm_compute in Hv; try discriminate Hv.
    injection Hv as <-. destruct Hin as [<-|[]]. discriminate Hg.
  - repeat constructor; intros t sp Hc; discriminate Hc.
  - exists out. split; [exact Eo|]. split; [|exact F].
    rewrite <- El, <- Er in Eo. vm_compute in Eo. injection Eo as <-.
    reflexivity.
Defined.

End BatteryPolling.

(* ===================================================================== *)
(** * Properties of the battery sensor *)
(* ===================================================================== *)

Module BatteryDeviceProps.

Import BatteryDevice.

(** X19: [battery_device::init()] returns 0 and leaves the device
    initialised; it calls [enable_charging()] before it sets
    [initialized_], so on a device that was not initialised it never
    writes the charge-enable pin, and only a repeated [init()] writes
    level 1 to it.  After [init()], [enable_charging()] writes the pin
    and returns whether the write succeeded. *)
Theorem init_leaves_charging_as_it_is (ret ret' : Z) (d : battery_device) :
  let '(result, d', calls) := init ret d in
  result = 0 /\
  initialized_ d' = true /\
  charge_enable_pin_ d' = BATTERY_CHARGE_ENABLE_PIN /\
  (initialized_ d = false ->
   forall gpio_num level, ~ In (gpio_set_level gpio_num level) calls) /\
  (initialized_ d = true ->
   In (gpio_set_level BATTERY_CHARGE_ENABLE_PIN 1) calls) /\
  enable_charging ret' d'
  = (ret' =? ESP_OK, [gpio_set_level BATTERY_CHARGE_ENABLE_PIN 1]).
Proof.
  unfold init, enable_charging. cbn [initialized_ charge_enable_pin_].
  destruct (initialized_ d); cbn [negb].
  - destruct (negb (ret =? ESP_OK)); (split; [reflexivity|]);
      (split; [reflexivity|]); (split; [reflexivity|]);
      (split; [discriminate|]);
      (split; [intros _; cbn; tauto|]);
      destruct (ret' =? ESP_OK); reflexivity.
  - split; [reflexivity|]. split; [reflexivity|]. split; [reflexivity|].
    split; [|split; [discriminate|destruct (ret' =? ESP_OK); reflexivity]].
    intros _ gpio_num level Hin. cbn in Hin.
    repeat (destruct Hin as [Hin|Hin]; [discriminate Hin|]). exact Hin.
Qed.

(** The wrapped differences [0 - 5], ..., [4 - 5] all convert to the
    same [float], [2 ^ 32]: the fluctuation depends on the residue of
    the random number only through [Z.max 4]. *)
Lemma fluctuation_classes (random : Z) (step : F32.float) :
  fluctuation random step
  = F32.mul (F32.of_int (uint32 (Z.max 4 (uint32 random mod 10) - 5))) step.
Proof.
  unfold fluctuation.
  assert (H : 0 <= uint32 random mod 10 < 10) by (apply Z.mod_pos_bound; lia).
  set (b := uint32 random mod 10) in *. clearbody b.
  assert (C : b = 0 \/ b = 1 \/ b = 2 \/ b = 3 \/ b = 4 \/ 5 <= b) by lia.
  destruct C as [->|[->|[->|[->|[->|C]]]]]; try reflexivity.
  rewrite Z.max_r by lia. reflexivity.
Qed.

(** A check of every residue of the first random number against every
    class of the second. *)
Lemma for_all_samples {A B} (base : Z -> A) (fl : Z -> B)
    (g : A -> Z -> B -> bool) (r1 r2 : Z) :
  (let xs := map base (seqZ 0 1000) in
   let ys := map (fun k => (k, fl k)) (seqZ 4 6) in
   forallb (fun x => forallb (fun ky => g x ky.1 ky.2) ys) xs) = true ->
  g (base (uint32 r1 mod 1000)) (Z.max 4 (uint32 r2 mod 10))
    (fl (Z.max 4 (uint32 r2 mod 10))) = true.
Proof.
  cbv zeta. intros H.
  assert (H1 : 0 <= uint32 r1 mod 1000 < 1000) by (apply Z.mod_pos_bound; lia).
  assert (H2 : 0 <= uint32 r2 mod 10 < 10) by (apply Z.mod_pos_bound; lia).
  assert (I1 : In (base (uint32 r1 mod 1000)) (map base (seqZ 0 1000))).
  { apply in_map, list_elem_of_In, elem_of_seqZ. lia. }
  assert (I2 : In (Z.max 4 (uint32 r2 mod 10), fl (Z.max 4 (uint32 r2 mod 10)))
                  (map (fun k => (k, fl k)) (seqZ 4 6))).
  { apply (in_map (fun k => (k, fl k))), list_elem_of_In, elem_of_seqZ. lia. }
  rewrite forallb_forall in H. specialize (H _ I1).
  rewrite forallb_forall in H. exact (H _ I2).
Qed.

(** X20: the temperature an initialised device reports.  The
    fluctuation [((esp_random() % 10) - 5) * 0.1f] is computed in
    [uint32_t], where a residue below 5 wraps: then the temperature is
    above 400000000 degrees, above the critical threshold of the
    thermal guard; for a residue of 5 or more it is from 25 to below 50
    degrees, not above the critical threshold. *)
Theorem simulated_temperature_trips_the_guard
    (random1 random2 : Z) (d : battery_device) :
  initialized_ d = true ->
  let temperature := get_temperature random1 random2 d in
  (uint32 random2 mod 10 < 5 ->
   F32.gt temperature (F32.of_int 400000000) = true /\
   F32.gt temperature Battery.BATTERY_TEMP_CRITICAL = true) /\
  (5 <= uint32 random2 mod 10 ->
   F32.ge temperature (F32.of_int 25) = true /\
   F32.lt temperature (F32.of_int 50) = true /\
   F32.gt temperature Battery.BATTERY_TEMP_CRITICAL = false).
Proof.
  intros Hi temperature. subst temperature. unfold get_temperature.
  rewrite Hi, fluctuation_classes. cbn [negb].
  pose proof (for_all_samples
    (fun a => F32.mul (F32.div (F32.of_int (uint32 (1024 + a))) (F32.of_int 4095))
                      (F32.of_int 100))
    (fun k => F32.mul (F32.of_int (uint32 (k - 5))) (F32.of_decimal 1 10))
    (fun x k y =>
       let t := F32.add x y in
       if k <? 5
       then F32.gt t (F32.of_int 400000000) && F32.gt t Battery.BATTERY_TEMP_CRITICAL
       else F32.ge t (F32.of_int 25) && F32.lt t (F32.of_int 50)
            && negb (F32.gt t Battery.BATTERY_TEMP_CRITICAL))
    random1 random2 ltac:(vm_compute; reflexivity)) as H.
  cbv beta zeta in H.
  set (t := F32.add _ _) in *. clearbody t.
  destruct (Z_lt_ge_dec (uint32 random2 mod 10) 5) as [E|E].
  - rewrite Z.max_l in H by lia. change (4 <? 5) with true in H.
    apply andb_prop in H. split; [intros _; exact H|lia].
  - rewrite Z.max_r in H by lia.
    replace (uint32 random2 mod 10 <? 5) with false in H
      by (symmetry; apply Z.ltb_ge; lia).
    split; [lia|]. intros _.
    apply andb_prop in H. destruct H as [H H3]. apply andb_prop in H.
    destruct H as [H1 H2]. apply negb_true_iff in H3. auto.
Qed.


Lemma simulated_temperature_trips_the_guard_witness :
  let d := mk_battery_device 0 3 6 10 true in
  F32.gt (get_temperature 0 4294967290 d) Battery.BATTERY_TEMP_CRITICAL = true /\
  F32.gt (get_temperature 0 4294967295 d) Battery.BATTERY_TEMP_CRITICAL = false.
Proof.
  intros d.
  destruct (simulated_temperature_trips_the_guard 0 4294967290 d eq_refl) as [H _].
  destruct (simulated_temperature_trips_the_guard 0 4294967295 d eq_refl) as [_ H'].
  split.
  - apply H. vm_compute. reflexivity.
  - apply H'. vm_compute. discriminate.
Defined.

(** The percentage of a voltage between 3.0f and 4.0f, [m] units of
    [2 ^ -22] volt: the bounds of [BatteryProps.percentage_of_excess] on
    the excess [m - 12582912]. *)
Lemma percentage_of_mantissa (invalid_cast : F32.float -> Z) (m : positive) :
  valid_binary F32.prec F32.emax (S754_finite false m (-22)) = true ->
  12582912 < Z.pos m ->
  let p := Battery.calculate_percentage invalid_cast (S754_finite false m (-22)) in
  p * 10066328 * 16384 <= 200 * (Z.pos m - 12582912) * 16384 + 10066328 /\
  200 * (Z.pos m - 12582912) * 16384 < (p + 1) * 10066328 * 16384 + 10066328.
Proof.
  intros Hv Hm p. subst p.
  assert (Hlo : F32.le (S754_finite false m (-22)) Battery.BATTERY_MIN_VOLTAGE = false).
  { unfold F32.le. rewrite BatteryProps.BATTERY_MIN_VOLTAGE_bits.
    destruct (SFleb _ _) eqn:E; [|reflexivity].
    apply F32Props.leb_finite_pos in E. lia. }
  assert (Hhi : F32.ge (S754_finite false m (-22)) Battery.BATTERY_MAX_VOLTAGE = false).
  { unfold F32.ge. rewrite BatteryProps.BATTERY_MAX_VOLTAGE_bits.
    destruct (SFleb _ _) eqn:E; [|reflexivity].
    apply F32Props.leb_finite_pos in E. lia. }
  assert (E : Battery.calculate_percentage invalid_cast (S754_finite false m (-22))
              = F32.to_int invalid_cast
                  (F32.div
                     (F32.mul (binary_normalize F32.prec F32.emax
                                 (Z.pos m - 12582912) (-22) false)
                              (F32.of_int 100))
                     (F32.sub Battery.BATTERY_MAX_VOLTAGE
                              Battery.BATTERY_MIN_VOLTAGE))).
  { unfold Battery.calculate_percentage. rewrite Hlo, Hhi. reflexivity. }
  destruct (BatteryProps.valid_mantissa false m (-22) Hv) as [Hm' _].
  change (2 ^ 24) with 16777216 in Hm'.
  destruct (BatteryProps.percentage_of_excess invalid_cast (Z.pos m - 12582912)
              ltac:(lia)) as (z & Hz & _ & H1 & H2).
  rewrite E, Hz. split; assumption.
Qed.

(** X21: the charge percentage of the voltage an initialised device
    reports: 100 when the residue modulo 10 of the second random number
    is below 5 (the fluctuation wraps in [uint32_t] and the voltage is
    far above the full bound), and from 49 to 77 otherwise. *)
Theorem simulated_percentage
    (invalid_cast : F32.float -> Z) (random1 random2 : Z) (d : battery_device) :
  initialized_ d = true ->
  let percentage :=
    Battery.calculate_percentage invalid_cast (get_voltage random1 random2 d) in
  (uint32 random2 mod 10 < 5 -> percentage = 100) /\
  (5 <= uint32 random2 mod 10 -> 49 <= percentage <= 77).
Proof.
  intros Hi percentage. subst percentage. unfold get_voltage.
  rewrite Hi, fluctuation_classes. cbn [negb].
  pose proof (for_all_samples
    (fun a => F32.add Battery.BATTERY_MIN_VOLTAGE
                (F32.div
                   (F32.mul (F32.sub Battery.BATTERY_MAX_VOLTAGE
                                     Battery.BATTERY_MIN_VOLTAGE)
                            (F32.of_int (uint32 (2047 + a))))
                   (F32.of_int 4095)))
    (fun k => F32.mul (F32.of_int (uint32 (k - 5))) (F32.of_decimal 1 100))
    (fun x k y =>
       let v := F32.add x y in
       if k <? 5
       then negb (F32.le v Battery.BATTERY_MIN_VOLTAGE)
            && F32.ge v Battery.BATTERY_MAX_VOLTAGE
       else match v with
            | S754_finite false m e =>
                valid_binary F32.prec F32.emax v && (e =? -22)
                && (15098879 <? Z.pos m) && (Z.pos m <? 16494523)
            | _ => false
            end)
    random1 random2 ltac:(vm_compute; reflexivity)) as H.
  cbv beta zeta in H.
  set (v := F32.add _ _) in *. clearbody v.
  destruct (Z_lt_ge_dec (uint32 random2 mod 10) 5) as [E|E].
  - rewrite Z.max_l in H by lia. change (4 <? 5) with true in H.
    split; [intros _|lia].
    unfold Battery.calculate_percentage.
    apply andb_prop in H. destruct H as [H1 H2].
    apply negb_true_iff in H1. rewrite H1, H2. reflexivity.
  - rewrite Z.max_r in H by lia.
    replace (uint32 random2 mod 10 <? 5) with false in H
      by (symmetry; apply Z.ltb_ge; lia).
    split; [lia|]. intros _.
    destruct v as [| | |[|] m e]; try discriminate.
    apply andb_prop in H. destruct H as [H H4]. apply andb_prop in H.
    destruct H as [H H3]. apply andb_prop in H. destruct H as [H1 H2].
    apply Z.eqb_eq in H2. subst e. apply Z.ltb_lt in H3, H4.
    destruct (percentage_of_mantissa invalid_cast m H1 ltac:(lia)) as [P1 P2].
    lia.
Qed.

Lemma simulated_percentage_witness :
  let d := mk_battery_device 0 3 6 10 true in
  49 <= Battery.calculate_percentage (fun _ => 0) (get_voltage 123456 7 d) <= 77 /\
  Battery.calculate_percentage (fun _ => 0) (get_voltage 123456 4294967292 d) = 100.
Proof.
  intros d.
  destruct (simulated_percentage (fun _ => 0) 123456 4294967292 d eq_refl) as [H _].
  destruct (simulated_percentage (fun _ => 0) 123456 7 d eq_refl) as [_ H'].
  split.
  - apply H'. vm_compute. discriminate.
  - apply H. vm_compute. reflexivity.
Defined.

(** X22: the current a device reports is never below -10 mA, so a tick
    never finds a fast, slow or trickle charge: while the device says it
    is charging the charging state is [complete] at 100 percent and
    [error] below, and [not_charging] otherwise. *)
Theorem simulated_current_never_charges (s : sampling) (d : battery_device) :
  let r := sample s d in
  F32.lt (Battery.current r) (F32.of_int (-10)) = false /\
  F32.lt (Battery.current r) (F32.of_int (-100)) = false /\
  F32.lt (Battery.current r) (F32.of_int (-500)) = false /\
  forall percentage,
    Battery.next_charging_state r percentage
    = if Battery.is_charging r
      then if percentage >=? 100
           then Battery.charging_state.complete
           else Battery.charging_state.error
      else Battery.charging_state.not_charging.
Proof.
  intros r.
  assert (H : F32.lt (Battery.current r) (F32.of_int (-10)) = false /\
              F32.lt (Battery.current r) (F32.of_int (-100)) = false /\
              F32.lt (Battery.current r) (F32.of_int (-500)) = false).
  { subst r. unfold sample. cbn [Battery.current]. unfold get_current.
    destruct (initialized_ d) eqn:Hi; cbn [negb];
      [|vm_compute; repeat split; reflexivity].
    rewrite fluctuation_classes. unfold is_charging. rewrite Hi. cbn [negb].
    pose proof (fun charging => for_all_samples
      (fun a =>
         let c := F32.mul (F32.div (F32.of_int (uint32 (2047 + a) - 2048))
                                   (F32.of_int 2048)) (F32.of_int 1000) in
         if negb charging then F32.abs c else c)
      (fun k => F32.mul (F32.of_int (uint32 (k - 5))) (F32.of_decimal 5 10))
      (fun x k y =>
         let c := F32.add x y in
         negb (F32.lt c (F32.of_int (-10))) && negb (F32.lt c (F32.of_int (-100)))
         && negb (F32.lt c (F32.of_int (-500))))
      (current_random1 s) (current_random2 s)) as H.
    cbv beta zeta in H.
    destruct (current_level s =? 1);
      [specialize (H true ltac:(vm_compute; reflexivity))
      |specialize (H false ltac:(vm_compute; reflexivity))];
      cbn [negb] in H;
      apply andb_prop in H; destruct H as [H H3];
      apply andb_prop in H; destruct H as [H1 H2];
      apply negb_true_iff in H1, H2, H3; auto. }
  destruct H as (H1 & H2 & H3). split; [exact H1|]. split; [exact H2|].
  split; [exact H3|]. intros percentage.
  unfold Battery.next_charging_state. rewrite H1, H2, H3. reflexivity.
Qed.

(** X29: [battery_device::deinit()] returns 0 and leaves the device not
    initialised; it writes level 0 to the charge-enable pin exactly when
    the device was initialised, and a second [deinit()] calls nothing.
    From then on the device reports its defaults whatever the random
    numbers and the pin are: 3.8 V, 100 mA, 25 degrees, not charging; a
    tick computes 66 percent from them and the thermal guard stays
    quiet. *)
Theorem deinitialised_device_reads_defaults
    (invalid_cast : F32.float -> Z) (ret ret' : Z) (s : sampling)
    (d : battery_device) :
  let '(result, d', calls) := deinit ret d in
  result = 0 /\
  initialized_ d' = false /\
  calls = (if initialized_ d then [gpio_set_level (charge_enable_pin_ d) 0] else []) /\
  deinit ret' d' = (0, d', []) /\
  sample s d'
  = Battery.mk_reading BATTERY_DEFAULT_VOLTAGE BATTERY_DEFAULT_CURRENT
      BATTERY_DEFAULT_TEMP false /\
  Battery.calculate_percentage invalid_cast (Battery.voltage (sample s d')) = 66 /\
  Battery.check_temperature (Battery.temperature (sample s d')) false = ([], false).
Proof.
  unfold deinit, disable_charging.
  destruct (initialized_ d) eqn:Hi; cbn [negb].
  - destruct (negb (ret =? ESP_OK)); cbn;
      (split; [reflexivity|]); (split; [reflexivity|]); (split; [reflexivity|]);
      (split; [reflexivity|]); (split; [reflexivity|]);
      split; vm_compute; reflexivity.
  - rewrite Hi. cbn [negb].
    assert (E : sample s d
                = Battery.mk_reading BATTERY_DEFAULT_VOLTAGE
                    BATTERY_DEFAULT_CURRENT BATTERY_DEFAULT_TEMP false).
    { unfold sample, get_voltage, get_current, get_temperature, is_charging.
      rewrite Hi. reflexivity. }
    rewrite E. cbn [Battery.voltage Battery.temperature].
    split; [reflexivity|]. split; [reflexivity|]. split; [reflexivity|].
    split; [reflexivity|]. split; [reflexivity|].
    split; vm_compute; reflexivity.
Qed.

End BatteryDeviceProps.

(* ===================================================================== *)
(** * Properties of the serial port *)
(* ===================================================================== *)

Module UartDeviceProps.

Import UartDevice.

(** X23: [uart_device::init()] on a device that is not initialised
    calls [uart_driver_install] once and returns 0 with the device
    initialised exactly when the installation, the configuration, the
    pin setting and the creation of the receive task all succeed;
    otherwise it returns -1 with the device not initialised, having
    deleted the driver, as its last call, if and only if it had
    installed it; the task is created only after the three driver calls
    succeeded. *)
Theorem init_succeeds_or_cleans_up (a : init_answers) (d : uart_device) :
  is_initialized_ d = false ->
  let '(result, d', calls) := init a d in
  let all_ok := (install_ret a =? ESP_OK) && (param_config_ret a =? ESP_OK)
                && (set_pin_ret a =? ESP_OK) && (task_create_ret a =? pdPASS) in
  result = (if all_ok then 0 else -1) /\
  is_initialized_ d' = all_ok /\
  installs calls = 1%nat /\
  deletions calls
  = (if (install_ret a =? ESP_OK) && negb all_ok then 1%nat else 0%nat) /\
  (all_ok = false -> install_ret a = ESP_OK ->
   last calls = Some (uart_driver_delete (uart_num_ d))) /\
  (In xTaskCreate calls <->
   install_ret a = ESP_OK /\ param_config_ret a = ESP_OK /\ set_pin_ret a = ESP_OK).
Proof.
  intros Hi. unfold init. rewrite Hi.
  destruct (install_ret a =? ESP_OK) eqn:E1;
    [apply Z.eqb_eq in E1
    |apply Z.eqb_neq in E1; cbn; rewrite Hi;
     repeat split; try reflexivity; try congruence; intuition discriminate].
  destruct (param_config_ret a =? ESP_OK) eqn:E2;
    [apply Z.eqb_eq in E2
    |apply Z.eqb_neq in E2; cbn; rewrite Hi;
     repeat split; try reflexivity; try congruence; intuition discriminate].
  destruct (set_pin_ret a =? ESP_OK) eqn:E3;
    [apply Z.eqb_eq in E3
    |apply Z.eqb_neq in E3; cbn; rewrite Hi;
     repeat split; try reflexivity; try congruence; intuition discriminate].
  destruct (task_create_ret a =? pdPASS) eqn:E4; cbn; rewrite ?Hi;
    repeat split; try reflexivity; try congruence; intuition discriminate.
Qed.

Lemma init_succeeds_or_cleans_up_witness :
  let d := new 1 115200 17 18 in
  let pin_refused := mk_init_answers 0 (Some 5%nat) 0 258 1 (Some 9%nat) in
  init pin_refused d
  = (-1, with_queue (Some 5%nat) d,
     [uart_driver_install 1; uart_param_config 1 115200; uart_set_pin 1 17 18;
      uart_driver_delete 1]) /\
  deletions (init pin_refused d).2 = 1%nat /\
  last (init pin_refused d).2 = Some (uart_driver_delete 1).
Proof.
  intros d pin_refused.
  pose proof (init_succeeds_or_cleans_up pin_refused d eq_refl) as H.
  destruct (init pin_refused d) as [[result d'] calls] eqn:E.
  cbv zeta in H. destruct H as (_ & _ & _ & H1 & H2 & _).
  vm_compute in E. injection E as <- <- <-.
  split; [reflexivity|]. split; [exact H1|]. apply H2; reflexivity.
Defined.

(** X24: when [uart_driver_delete] fails in [deinit()] on an initialised
    device, [deinit()] returns -1 and leaves the device initialised but
    without its receive task (already deleted): a later [init()] returns
    0 and creates no task, [suspend()] and [resume()] call nothing, a
    second [deinit()] only deletes the driver, and [send_data] still
    writes. *)
Theorem failed_deinit_loses_the_receive_task
    (delete_ret : Z) (a : init_answers) (delete_ret' written : Z) (data : list Z)
    (d : uart_device) :
  is_initialized_ d = true ->
  delete_ret <> ESP_OK ->
  let '(result, d', calls) := deinit delete_ret d in
  result = -1 /\
  is_initialized_ d' = true /\
  uart_task_handle_ d' = None /\
  calls = match uart_task_handle_ d with
          | Some task => [vTaskDelete task; uart_driver_delete (uart_num_ d)]
          | None => [uart_driver_delete (uart_num_ d)]
          end /\
  init a d' = (0, d', []) /\
  suspend d' = (0, []) /\
  resume d' = (0, []) /\
  snd (deinit delete_ret' d') = [uart_driver_delete (uart_num_ d)] /\
  (data <> [] ->
   send_data written data d' = (written, [uart_write_bytes (uart_num_ d) data])).
Proof.
  intros Hi Hr. unfold deinit. rewrite Hi. cbn [negb].
  apply Z.eqb_neq in Hr. rewrite Hr. cbn [negb].
  unfold init, suspend, resume, deinit, send_data.
  cbn [with_task is_initialized_ uart_task_handle_ uart_num_]. rewrite Hi.
  cbn [negb orb].
  split; [reflexivity|]. split; [reflexivity|]. split; [reflexivity|].
  split; [destruct (uart_task_handle_ d); reflexivity|].
  split; [reflexivity|]. split; [reflexivity|]. split; [reflexivity|].
  split; [destruct (negb (delete_ret' =? ESP_OK)); reflexivity|].
  intros Hd. rewrite bool_decide_eq_false_2 by exact Hd. reflexivity.
Qed.

Lemma failed_deinit_loses_the_receive_task_witness :
  let d := mk_uart_device 1 115200 17 18 (Some 5%nat) (Some 9%nat) true in
  let d' := mk_uart_device 1 115200 17 18 (Some 5%nat) None true in
  deinit 259 d = (-1, d', [vTaskDelete 9%nat; uart_driver_delete 1]) /\
  init (mk_init_answers 0 (Some 6%nat) 0 0 1 (Some 10%nat)) d' = (0, d', []) /\
  suspend d' = (0, []).
Proof.
  intros d d'.
  pose proof (failed_deinit_loses_the_receive_task 259
                (mk_init_answers 0 (Some 6%nat) 0 0 1 (Some 10%nat)) 0 1 [65] d
                eq_refl ltac:(discriminate)) as H.
  cbv beta iota zeta in H. split; [reflexivity|].
  change (deinit 259 d) with (-1, d', [vTaskDelete 9%nat; uart_driver_delete 1]) in H.
  cbv beta iota zeta in H. destruct H as (_ & _ & _ & _ & H1 & H2 & _).
  split; [exact H1|exact H2].
Defined.

End UartDeviceProps.

(* ===================================================================== *)
(** * Properties of the network module *)
(* ===================================================================== *)

Module NetworkProps.

Import EventBus Network.

(** What [disconnect_tcp] leaves. *)
Lemma disconnect_tcp_effect (n : network_module) :
  tcp_connected_ (disconnect_tcp n).1 = false /\
  wifi_connected_ (disconnect_tcp n).1 = wifi_connected_ n /\
  (tcp_connected_ n = false -> disconnect_tcp n = (n, [])) /\
  (tcp_connected_ n = true ->
   sock_ (disconnect_tcp n).1 < 0 /\
   data_callback_ (disconnect_tcp n).1 = None /\
   closed_sockets (disconnect_tcp n).2
   = if sock_ n >=? 0 then [sock_ n] else []).
Proof.
  unfold disconnect_tcp. destruct (tcp_connected_ n) eqn:E; cbn [negb].
  - cbn [with_tcp_connected sock_ task_handle_].
    destruct (sock_ n >=? 0) eqn:S; cbn [with_sock task_handle_].
    + cbn. destruct (task_handle_ n); cbn; repeat split; try discriminate; lia.
    + rewrite Z.geb_leb in S. apply Z.leb_gt in S.
      cbn. destruct (task_handle_ n); cbn; repeat split; try discriminate; lia.
  - cbn. rewrite E. repeat split; try discriminate.
Qed.

(** X25: [connect_tcp] returns the value of [tcp_connected_] it leaves.
    Already connected, it returns true and changes nothing (the new host
    and port are ignored); without WiFi it returns false and calls
    nothing.  When it connects it leaves the new socket, not negative,
    in [sock_], closes nothing and records host and port; when it fails
    it has closed the socket it created, once, and leaves [sock_]
    negative. *)
Theorem connect_tcp_reports_the_connection
    (a : connect_answers) (host : string) (port : Z) (n : network_module) :
  let '(ok, n', calls) := connect_tcp a host port n in
  tcp_connected_ n' = ok /\
  (tcp_connected_ n = true -> ok = true /\ n' = n /\ calls = []) /\
  (tcp_connected_ n = false -> wifi_connected_ n = false ->
   ok = false /\ n' = n /\ calls = []) /\
  (tcp_connected_ n = false -> ok = true ->
   sock_ n' = socket_ret a /\ 0 <= sock_ n' /\ closed_sockets calls = [] /\
   server_host_ n' = host /\ server_port_ n' = port) /\
  (tcp_connected_ n = false -> ok = false ->
   (tcp_connected_ n' = false) /\
   closed_sockets calls
   = (if wifi_connected_ n && (0 <=? socket_ret a) then [socket_ret a] else []) /\
   (wifi_connected_ n = true -> sock_ n' < 0)).
Proof.
  unfold connect_tcp.
  destruct (tcp_connected_ n) eqn:T.
  { repeat split; try reflexivity; try discriminate; auto. }
  destruct (wifi_connected_ n) eqn:W; cbn [negb].
  2:{ repeat split; try reflexivity; try discriminate; auto. }
  cbn [with_server with_sock sock_ task_handle_ with_tcp_connected].
  destruct (socket_ret a <? 0) eqn:S.
  { apply Z.ltb_lt in S. replace (0 <=? socket_ret a) with false
      by (symmetry; apply Z.leb_gt; lia).
    cbn. rewrite ?T. repeat split; try reflexivity; try discriminate; auto. }
  apply Z.ltb_ge in S.
  replace (0 <=? socket_ret a) with true by (symmetry; apply Z.leb_le; lia).
  assert (G : (socket_ret a >=? 0) = true)
    by (rewrite Z.geb_leb; apply Z.leb_le; lia).
  destruct (negb (connect_ret a =? 0) && negb (errno_is_EINPROGRESS a)).
  { cbn. rewrite ?T. repeat split; try reflexivity; try discriminate; lia. }
  destruct (negb (connect_ret a =? 0) && errno_is_EINPROGRESS a); cbn [andb];
    [destruct (select_ret a <=? 0);
     [cbn; rewrite ?T; repeat split; try reflexivity; try discriminate; lia|];
     destruct ((getsockopt_ret a <? 0) || negb (so_error a =? 0));
     [cbn; rewrite ?T; repeat split; try reflexivity; try discriminate; lia|]
    |];
    (destruct (task_handle_ n) eqn:H;
     [cbn; repeat split; try reflexivity; try discriminate; lia|];
     destruct (negb (task_create_ret a =? pdPASS));
     [unfold disconnect_tcp; cbn; rewrite G; destruct (created_task a); cbn;
      repeat split; try reflexivity; try discriminate; lia
     |cbn; repeat split; try reflexivity; try discriminate; lia]).
Qed.


Lemma connect_tcp_reports_the_connection_witness :
  let n := with_wifi_connected true new in
  let refused := mk_connect_answers 54 (-1) false 0 0 0 1 None in
  let accepted := mk_connect_answers 54 0 false 0 0 0 1 (Some 7%nat) in
  connect_tcp refused "10.0.0.1" 8080 n
  = (false, with_sock (-1) (with_server "10.0.0.1" 8080 n),
     [sys_socket; sys_fcntl_getfl 54; sys_fcntl_setfl 54 true;
      sys_setsockopt_rcvtimeo 54 600; sys_connect 54 "10.0.0.1" 8080;
      sys_close 54]) /\
  closed_sockets (connect_tcp refused "10.0.0.1" 8080 n).2 = [54] /\
  sock_ (connect_tcp accepted "10.0.0.1" 8080 n).1.2 = 54.
Proof.
  intros n refused accepted.
  pose proof (connect_tcp_reports_the_connection refused "10.0.0.1" 8080 n) as R.
  pose proof (connect_tcp_reports_the_connection accepted "10.0.0.1" 8080 n) as A.
  destruct (connect_tcp refused "10.0.0.1" 8080 n) as [[ok n'] calls] eqn:ER.
  destruct (connect_tcp accepted "10.0.0.1" 8080 n) as [[ok2 n2] calls2] eqn:EA.
  vm_compute in ER. injection ER as <- <- <-.
  vm_compute in EA. injection EA as <- <- <-.
  destruct R as (_ & _ & _ & _ & R). destruct (R eq_refl eq_refl) as (_ & R2 & _).
  destruct A as (_ & _ & _ & A & _). destruct (A eq_refl eq_refl) as (A1 & _).
  split; [reflexivity|]. split; [exact R2|exact A1].
Defined.

(** Every step keeps: a connected module holds a socket. *)
Lemma run_step_keeps_socket (s : step) (n n' : network_module) :
  (tcp_connected_ n = true -> 0 <= sock_ n) ->
  run_step s n = Some n' ->
  tcp_connected_ n' = true -> 0 <= sock_ n'.
Proof.
  intros Hn Hs.
  assert (D : forall m, tcp_connected_ (disconnect_tcp m).1 = true ->
                        0 <= sock_ (disconnect_tcp m).1).
  { intros m H. destruct (disconnect_tcp_effect m) as [E _]. congruence. }
  destruct s as [a host port| |sent data|c|a|a ev|e|failed|]; cbn in Hs.
  - injection Hs as <-.
    pose proof (connect_tcp_reports_the_connection a host port n) as C.
    destruct (connect_tcp a host port n) as [[ok m] calls]. cbn.
    destruct C as (C1 & C2 & _ & C4 & _). intros H. rewrite H in C1. subst ok.
    destruct (tcp_connected_ n) eqn:T.
    + destruct (C2 eq_refl) as (_ & -> & _). auto.
    + destruct (C4 eq_refl eq_refl) as (_ & C & _). exact C.
  - injection Hs as <-. apply D.
  - injection Hs as <-. exact Hn.
  - injection Hs as <-. exact Hn.
  - unfold disconnect_wifi in Hs. destruct (wifi_connected_ n).
    + cbn [negb] in Hs. pose proof (D n) as D'.
      destruct (disconnect_tcp n) as [m closing].
      destruct (error_checked _) as [stopping ok]. destruct ok; cbn in Hs; [|discriminate].
      injection Hs as <-. exact D'.
    + cbn in Hs. injection Hs as <-. exact Hn.
  - unfold on_event in Hs.
    destruct (type ev); cbn in Hs; try (injection Hs as <-; exact Hn).
    pose proof (D n) as D'. pose proof (disconnect_tcp_effect n) as (E1 & _).
    destruct (disconnect_tcp n) as [m closing]. cbn in D', E1.
    unfold disconnect_wifi in Hs. destruct (wifi_connected_ m).
    + cbn [negb] in Hs. pose proof (D m) as D2.
      destruct (disconnect_tcp m) as [m2 closing2].
      destruct (error_checked _) as [stopping ok]. destruct ok; cbn in Hs; [|discriminate].
      injection Hs as <-. exact D2.
    + cbn in Hs. injection Hs as <-. exact D'.
  - injection Hs as <-. destruct e; cbn; exact Hn.
  - injection Hs as <-. unfold tcp_receive_task_exit. destruct failed.
    + pose proof (D n) as D'. destruct (disconnect_tcp n) as [m closing]. exact D'.
    + exact Hn.
  - injection Hs as <-. exact Hn.
Qed.

Lemma run_steps_keep_socket (ss : list step) : forall n n',
  (tcp_connected_ n = true -> 0 <= sock_ n) ->
  run_steps ss n = Some n' ->
  tcp_connected_ n' = true -> 0 <= sock_ n'.
Proof.
  induction ss as [|s ss IH]; intros n n' Hn Hs; cbn in Hs.
  - injection Hs as <-. exact Hn.
  - destruct (run_step s n) as [m|] eqn:E; [|discriminate].
    eapply IH; [|exact Hs]. eapply run_step_keeps_socket; eassumption.
Qed.

(** X26: in every state a module reaches from construction (through
    [connect_tcp], [disconnect_tcp], [send_data], [set_data_callback],
    [disconnect_wifi], [on_event], WiFi events and the end of the
    receive task), a connected module holds a socket that is not
    negative; so [send_data] calls [send] exactly when [tcp_connected_]
    is set, and returns whether [send] did not fail. *)
Theorem connected_module_holds_a_socket
    (ss : list step) (n : network_module) (sent : Z) (data : list Z) :
  run_steps ss new = Some n ->
  (tcp_connected_ n = true -> 0 <= sock_ n) /\
  send_data sent data n
  = if tcp_connected_ n
    then (negb (sent <? 0), [sys_send (sock_ n) data])
    else (false, []).
Proof.
  intros H.
  assert (S : tcp_connected_ n = true -> 0 <= sock_ n).
  { eapply run_steps_keep_socket; [|exact H]. discriminate. }
  split; [exact S|]. unfold send_data.
  destruct (tcp_connected_ n); [|reflexivity]. cbn [negb orb].
  replace (sock_ n <? 0) with false by (symmetry; apply Z.ltb_ge; auto).
  destruct (sent <? 0); reflexivity.
Qed.

Lemma connected_module_holds_a_socket_witness :
  let accepted := mk_connect_answers 54 0 false 0 0 0 1 (Some 7%nat) in
  let ss := [do_wifi_event IP_EVENT_STA_GOT_IP;
             do_connect_tcp accepted "10.0.0.1" 8080;
             do_wifi_event WIFI_EVENT_STA_DISCONNECTED] in
  exists n,
    run_steps ss new = Some n /\
    tcp_connected_ n = true /\ wifi_connected_ n = false /\
    send_data 3 [72; 105; 33] n = (true, [sys_send 54 [72; 105; 33]]).
Proof.
  intros accepted ss.
  destruct (run_steps ss new) as [n|] eqn:E; [|vm_compute in E; discriminate].
  exists n. split; [reflexivity|].
  destruct (connected_module_holds_a_socket ss n 3 [72; 105; 33] E) as [_ H].
  vm_compute in E. injection E as <-.
  split; [reflexivity|]. split; [reflexivity|]. exact H.
Defined.


(** The five calls [disconnect_wifi] wraps in [ESP_ERROR_CHECK]. *)
Lemma wifi_shutdown_calls (a : wifi_answers) :
  let r := error_checked
             [(esp_wifi_disconnect, wifi_disconnect_ret a);
              (esp_wifi_stop, wifi_stop_ret a);
              (esp_wifi_deinit, wifi_deinit_ret a);
              (esp_event_handler_unregister_ip, unregister_ip_ret a);
              (esp_event_handler_unregister_wifi, unregister_wifi_ret a)] in
  (r.2 = true <->
   wifi_disconnect_ret a = ESP_OK /\ wifi_stop_ret a = ESP_OK /\
   wifi_deinit_ret a = ESP_OK /\ unregister_ip_ret a = ESP_OK /\
   unregister_wifi_ret a = ESP_OK) /\
  hd_error r.1 = Some esp_wifi_disconnect /\
  closed_sockets r.1 = [].
Proof.
  cbn.
  destruct (wifi_disconnect_ret a =? ESP_OK) eqn:A1;
    [apply Z.eqb_eq in A1|apply Z.eqb_neq in A1; cbn; intuition congruence].
  destruct (wifi_stop_ret a =? ESP_OK) eqn:A2;
    [apply Z.eqb_eq in A2|apply Z.eqb_neq in A2; cbn; intuition congruence].
  destruct (wifi_deinit_ret a =? ESP_OK) eqn:A3;
    [apply Z.eqb_eq in A3|apply Z.eqb_neq in A3; cbn; intuition congruence].
  destruct (unregister_ip_ret a =? ESP_OK) eqn:A4;
    [apply Z.eqb_eq in A4|apply Z.eqb_neq in A4; cbn; intuition congruence].
  destruct (unregister_wifi_ret a =? ESP_OK) eqn:A5;
    [apply Z.eqb_eq in A5|apply Z.eqb_neq in A5]; cbn; intuition congruence.
Qed.

(** [disconnect_wifi] on a module whose TCP connection is closed. *)
Lemma disconnect_wifi_effect (a : wifi_answers) (m : network_module) :
  tcp_connected_ m = false ->
  let '(result, calls) := disconnect_wifi a m in
  (forall m', result = Some m' ->
              tcp_connected_ m' = false /\ wifi_connected_ m' = false) /\
  (result = None <->
   wifi_connected_ m = true /\
   ~ (wifi_disconnect_ret a = ESP_OK /\ wifi_stop_ret a = ESP_OK /\
      wifi_deinit_ret a = ESP_OK /\ unregister_ip_ret a = ESP_OK /\
      unregister_wifi_ret a = ESP_OK)) /\
  closed_sockets calls = [] /\
  (wifi_connected_ m = true -> In esp_wifi_disconnect calls).
Proof.
  intros Ht. unfold disconnect_wifi.
  destruct (wifi_connected_ m) eqn:W; cbn [negb].
  - destruct (disconnect_tcp_effect m) as (_ & _ & E & _).
    rewrite (E Ht).
    pose proof (wifi_shutdown_calls a) as K. cbv zeta in K.
    destruct (error_checked _) as [stopping ok]. cbn [fst snd] in K.
    destruct K as (K1 & K2 & K3). cbn [app].
    assert (Hin : In esp_wifi_disconnect stopping).
    { destruct stopping as [|x stopping]; [discriminate|].
      injection K2 as ->. left. reflexivity. }
    destruct ok.
    + split; [intros m' [= <-]; cbn; auto|].
      split; [|auto]. split; [discriminate|].
      intros [_ H]. exfalso. apply H, K1. reflexivity.
    + split; [discriminate|]. split; [|auto].
      split; [|reflexivity]. intros _. split; [reflexivity|].
      intros H. apply K1 in H. discriminate.
  - split; [intros m' [= <-]; auto|]. split; [|split; [reflexivity|discriminate]].
    split; [discriminate|]. intros [H _]. discriminate.
Qed.

(** X27: after [disconnect_tcp()] the module is not connected, a second
    [disconnect_tcp()] changes and calls nothing, and [send_data]
    returns false without calling [send]; on a module that was not
    connected it changes nothing; on a connected one it also drops the
    data callback, which has to be set again after the next
    [connect_tcp]. *)
Theorem disconnect_tcp_is_final
    (n : network_module) (sent : Z) (data : list Z) (c : option callback) :
  let n' := (disconnect_tcp n).1 in
  is_tcp_connected n' = false /\
  disconnect_tcp n' = (n', []) /\
  send_data sent data n' = (false, []) /\
  (is_tcp_connected n = false -> disconnect_tcp n = (n, [])) /\
  (is_tcp_connected (set_data_callback c n) = true ->
   data_callback_ (disconnect_tcp (set_data_callback c n)).1 = None).
Proof.
  intros n'. subst n'. unfold is_tcp_connected.
  destruct (disconnect_tcp_effect n) as (E1 & _ & E3 & _).
  split; [exact E1|]. split.
  - destruct (disconnect_tcp_effect (disconnect_tcp n).1) as (_ & _ & E & _).
    apply E, E1.
  - split.
    + unfold send_data. rewrite E1. reflexivity.
    + split; [exact E3|]. intros H.
      destruct (disconnect_tcp_effect (set_data_callback c n)) as (_ & _ & _ & E).
      apply E, H.
Qed.

Lemma disconnect_tcp_is_final_witness :
  let n := mk_network_module "ap" "secret" "10.0.0.1" 8080 54 true true
             (Some 7%nat) None in
  data_callback_ (disconnect_tcp (set_data_callback (Some 3%nat) n)).1 = None /\
  disconnect_tcp (set_data_callback (Some 3%nat) n)
  = (mk_network_module "ap" "secret" "10.0.0.1" 8080 (-1) true false
       (Some 7%nat) None,
     [sys_close 54; vTaskDelay_ms 100]).
Proof.
  intros n.
  destruct (disconnect_tcp_is_final n 0 [] (Some 3%nat)) as (_ & _ & _ & _ & H).
  split; [apply H; reflexivity|reflexivity].
Defined.

(** X28: [on_event] does nothing for an event that is not
    [enter_deep_sleep].  For [enter_deep_sleep], if it returns, the
    module is connected neither to the server nor to WiFi; it does not
    return (an [ESP_ERROR_CHECK] aborts) exactly when WiFi was connected
    and one of the five calls that shut it down failed; a connected
    socket is closed first, once, and WiFi is disconnected when it was
    connected. *)
Theorem deep_sleep_event_disconnects
    (a : wifi_answers) (ev : event_data) (n : network_module) :
  let '(result, calls) := on_event a ev n in
  (type ev <> enter_deep_sleep -> result = Some n /\ calls = []) /\
  (type ev = enter_deep_sleep ->
   (forall n', result = Some n' ->
               is_tcp_connected n' = false /\ is_wifi_connected n' = false) /\
   (result = None <->
    is_wifi_connected n = true /\
    ~ (wifi_disconnect_ret a = ESP_OK /\ wifi_stop_ret a = ESP_OK /\
       wifi_deinit_ret a = ESP_OK /\ unregister_ip_ret a = ESP_OK /\
       unregister_wifi_ret a = ESP_OK)) /\
   (is_tcp_connected n = true -> 0 <= sock_ n ->
    hd_error calls = Some (sys_close (sock_ n)) /\
    closed_sockets calls = [sock_ n]) /\
   (is_wifi_connected n = true -> In esp_wifi_disconnect calls)).
Proof.
  unfold on_event, is_tcp_connected, is_wifi_connected.
  destruct (type ev) eqn:T;
    try (split; [intros _; split; reflexivity|discriminate]).
  pose proof (disconnect_tcp_effect n) as (E1 & E2 & E3 & E4).
  assert (Hd : tcp_connected_ n = true -> 0 <= sock_ n ->
               hd_error (disconnect_tcp n).2 = Some (sys_close (sock_ n))).
  { intros Ht Hs. unfold disconnect_tcp. rewrite Ht. cbn.
    replace (sock_ n >=? 0) with true
      by (symmetry; rewrite Z.geb_leb; apply Z.leb_le; lia).
    reflexivity. }
  destruct (disconnect_tcp n) as [m closing]. cbn [fst snd] in *.
  pose proof (disconnect_wifi_effect a m E1) as W.
  destruct (disconnect_wifi a m) as [result stopping].
  destruct W as (W1 & W2 & W3 & W4). rewrite E2 in *.
  split; [congruence|]. intros _.
  split; [exact W1|]. split; [exact W2|]. split.
  - intros Ht Hs. destruct (E4 Ht) as (_ & _ & C).
    replace (sock_ n >=? 0) with true in C
      by (symmetry; rewrite Z.geb_leb; apply Z.leb_le; lia).
    specialize (Hd Ht Hs). split.
    + destruct closing; [discriminate|exact Hd].
    + unfold closed_sockets in *. rewrite omap_app, C, W3. reflexivity.
  - intros Hw. apply in_or_app. right. apply W4, Hw.
Qed.

Lemma deep_sleep_event_disconnects_witness :
  let n := mk_network_module "ap" "secret" "10.0.0.1" 8080 54 true true
             (Some 7%nat) (Some 3%nat) in
  on_event (mk_wifi_answers 0 0 0 0 0) (event enter_deep_sleep) n
  = (Some (mk_network_module "ap" "secret" "10.0.0.1" 8080 (-1) false false
             (Some 7%nat) None),
     [sys_close 54; vTaskDelay_ms 100; esp_wifi_disconnect; esp_wifi_stop;
      esp_wifi_deinit; esp_event_handler_unregister_ip;
      esp_event_handler_unregister_wifi]) /\
  (on_event (mk_wifi_answers 0 12289 0 0 0) (event enter_deep_sleep) n).1 = None /\
  on_event (mk_wifi_answers 0 0 0 0 0) (event battery_low) n = (Some n, []).
Proof.
  intros n.
  pose proof (deep_sleep_event_disconnects (mk_wifi_answers 0 12289 0 0 0)
                (event enter_deep_sleep) n) as H.
  pose proof (deep_sleep_event_disconnects (mk_wifi_answers 0 0 0 0 0)
                (event battery_low) n) as H'.
  destruct (on_event (mk_wifi_answers 0 12289 0 0 0) (event enter_deep_sleep) n)
    as [result calls].
  destruct (on_event (mk_wifi_answers 0 0 0 0 0) (event battery_low) n)
    as [result' calls'].
  destruct H as [_ H]. destruct (H eq_refl) as (_ & H2 & _).
  destruct H' as [H' _]. destruct (H' ltac:(discriminate)) as [-> ->].
  split; [reflexivity|]. split; [|reflexivity].
  apply H2. split; [reflexivity|]. cbn. intros (_ & E & _). discriminate E.
Defined.

(** X30: the loss of WiFi ([WIFI_EVENT_STA_DISCONNECTED]) clears
    [wifi_connected_] and publishes [network_disconnected] last, but
    leaves the TCP state as it is: the socket stays in [sock_],
    [disconnect_wifi()] then returns at once without closing it, and
    [connect_tcp] still answers true without connecting while
    [tcp_connected_] is set (false, without WiFi, otherwise). *)
Theorem wifi_loss_keeps_the_tcp_state
    (a : connect_answers) (w : wifi_answers) (host : string) (port : Z)
    (n : network_module) :
  let '(n', calls) := wifi_event_handler WIFI_EVENT_STA_DISCONNECTED n in
  is_wifi_connected n' = false /\
  is_tcp_connected n' = is_tcp_connected n /\
  sock_ n' = sock_ n /\
  last calls = Some (event_bus_publish network_disconnected) /\
  disconnect_wifi w n' = (Some n', []) /\
  (is_tcp_connected n = true -> connect_tcp a host port n' = (true, n', [])) /\
  (is_tcp_connected n = false -> connect_tcp a host port n' = (false, n', [])).
Proof.
  cbn. unfold is_tcp_connected, is_wifi_connected, disconnect_wifi, connect_tcp.
  cbn. repeat split.
  - intros ->. reflexivity.
  - intros ->. reflexivity.
Qed.

Lemma wifi_loss_keeps_the_tcp_state_witness :
  let n := mk_network_module "ap" "secret" "10.0.0.1" 8080 54 true true
             (Some 7%nat) (Some 3%nat) in
  let n' := mk_network_module "ap" "secret" "10.0.0.1" 8080 54 false true
              (Some 7%nat) (Some 3%nat) in
  (wifi_event_handler WIFI_EVENT_STA_DISCONNECTED n).1 = n' /\
  connect_tcp (mk_connect_answers 55 0 false 0 0 0 1 None) "10.0.0.2" 9090 n'
  = (true, n', []).
Proof.
  intros n n'.
  pose proof (wifi_loss_keeps_the_tcp_state
                (mk_connect_answers 55 0 false 0 0 0 1 None)
                (mk_wifi_answers 0 0 0 0 0) "10.0.0.2" 9090 n) as H.
  change (wifi_event_handler WIFI_EVENT_STA_DISCONNECTED n)
    with (n', [esp_wifi_connect; xEventGroupClearBits_connected;
               xEventGroupSetBits_fail; event_bus_publish network_disconnected]) in H.
  cbv beta iota zeta in H. destruct H as (_ & _ & _ & _ & _ & H & _).
  split; [reflexivity|]. apply H. reflexivity.
Defined.

End NetworkProps.
